(** * Locanote desktop icon tooling: the ICNS and ICO container writers

    A shallow embedding of [apps/desktop/create-icns.py] and
    [apps/desktop/create-ico.py].  Both scripts read a list of PNG files,
    keep the ones that start with the PNG signature, and write one
    container file.  With them come [apps/desktop/generate-icons.py],
    which prepares their input directory, and [update_settings.py],
    which patches one page of the web app.  The embedding keeps the
    shape of the Python code:
    a file system with directories that is threaded through every call,
    exceptions that abort the rest of the function but keep what was
    already written, and [struct.pack] / [struct.unpack] with their
    range and length checks. *)

From Stdlib Require Import ZArith List Lia String.
From Stdlib Require Import Strings.Byte.
From stdpp Require Import gmap strings list.
From coqutil Require Import Byte Word.LittleEndianList.
Local Open Scope Z_scope.

(** ** Byte strings *)

(** A Python [bytes] object. *)
Abbreviation bytes := (list byte).

#[global] Instance byte_eq_decision : EqDecision byte := Byte.byte_eq_dec.

(** [len(b)] as a Python integer. *)
Definition len (b : bytes) : Z := Z.of_nat (length b).

(** [b[i:j]] for constants [0 <= i <= j]. *)
Definition slice (i j : nat) (b : bytes) : bytes := take (j - i) (drop i b).

(** ** Exceptions *)

Inductive exn : Type :=
  | FileNotFoundError (p : string)
  | IsADirectoryError (p : string)
  | NotADirectoryError (p : string)
  | FileExistsError (p : string)
  | SameFileError (src dst : string)
  | struct_error.

Inductive outcome (A : Type) : Type :=
  | Return (a : A)
  | Raise (e : exn).
Arguments Return {A} a.
Arguments Raise {A} e.

(** ** The file system

    What a name stands for: a regular file with its content, or a
    directory. *)
Inductive node (A : Type) : Type :=
  | File (content : A)
  | Dir.
Arguments File {A} content.
Arguments Dir {A}.

#[global] Instance node_eq_decision {A} `{EqDecision A} : EqDecision (node A).
Proof. solve_decision. Defined.

(** The names in use, seen from the working directory, which is itself
    always there.  A name is a relative path with its components
    separated by single slashes, as in [src-tauri/icons/icon.png]; the
    paths the scripts open are of this kind.  Every file and every
    directory has this one name: other spellings of it (with [.] or
    [..], a doubled or trailing slash, an absolute path, a link) are
    not part of the model, and neither are permissions.  A name whose
    directory is not there, or is a regular file, names nothing that
    can be reached.  The content type is [bytes] for files opened in
    binary mode and a list of characters for files opened as text. *)
Abbreviation names A := (gmap string (node A)).
Abbreviation fsys := (names bytes).

Definition slash : Ascii.ascii := Ascii.ascii_of_nat 47.

(** The directories a path goes through, outermost first: [a] and [a/b]
    for [a/b/c]; [seen] is the part of the path already passed. *)
Fixpoint dirs_from (seen rest : string) : list string :=
  match rest with
  | EmptyString => []
  | String c rest' =>
      (if Ascii.eqb c slash then [seen] else [])
        ++ dirs_from (seen +:+ String c EmptyString) rest'
  end.

Definition dirs (p : string) : list string := dirs_from EmptyString p.

(** The last component of a path, [os.path.basename]. *)
Fixpoint basename_from (seen rest : string) : string :=
  match rest with
  | EmptyString => seen
  | String c rest' =>
      if Ascii.eqb c slash then basename_from EmptyString rest'
      else basename_from (seen +:+ String c EmptyString) rest'
  end.

Definition basename (p : string) : string := basename_from EmptyString p.

(** Going down the directories [ds] on the way to [p]: the first one
    that is not a directory stops the walk, with [ENOTDIR] when it is a
    regular file and [ENOENT] when nothing has this name. *)
Fixpoint walk {A} (fs : names A) (p : string) (ds : list string) : option exn :=
  match ds with
  | [] => None
  | d :: ds' =>
      match fs !! d with
      | Some Dir => walk fs p ds'
      | Some (File _) => Some (NotADirectoryError p)
      | None => Some (FileNotFoundError p)
      end
  end.

(** What the system finds at [p]: nothing, a file or a directory, once
    the way to [p] is clear.  The empty path names nothing. *)
Definition lookup_path {A} (fs : names A) (p : string)
  : outcome (option (node A)) :=
  if decide (p = EmptyString) then Raise (FileNotFoundError p)
  else match walk fs p (dirs p) with
       | Some e => Raise e
       | None => Return (fs !! p)
       end.

(** [open(p, 'r')] or [open(p, 'rb')], then [f.read()]. *)
Definition read_path {A} (fs : names A) (p : string) : outcome A :=
  match lookup_path fs p with
  | Raise e => Raise e
  | Return None => Raise (FileNotFoundError p)
  | Return (Some Dir) => Raise (IsADirectoryError p)
  | Return (Some (File content)) => Return content
  end.

(** [open(p, 'w')] or [open(p, 'wb')]: the file is created in its
    directory, or truncated when it exists; [empty] is the content of a
    file just opened. *)
Definition create_path {A} (empty : A) (fs : names A) (p : string)
  : outcome (names A) :=
  match lookup_path fs p with
  | Raise e => Raise e
  | Return (Some Dir) => Raise (IsADirectoryError p)
  | Return _ => Return (<[p := File empty]> fs)
  end.

(** [os.path.isdir(p)] and [os.path.exists(p)]. *)
Definition isdir {A} (fs : names A) (p : string) : bool :=
  match lookup_path fs p with
  | Return (Some Dir) => true
  | _ => false
  end.

Definition path_exists {A} (fs : names A) (p : string) : bool :=
  match lookup_path fs p with
  | Return (Some _) => true
  | _ => false
  end.

(** ** Computations on the file system *)

(** A computation runs on a file system and leaves a file system behind,
    also when it raises. *)
Definition M (A : Type) : Type := fsys -> outcome A * fsys.

Definition ret {A} (a : A) : M A := fun fs => (Return a, fs).

Definition bind {A B} (c : M A) (k : A -> M B) : M B :=
  fun fs =>
    match c fs with
    | (Return a, fs') => k a fs'
    | (Raise e, fs') => (Raise e, fs')
    end.

Definition lift {A} (o : outcome A) : M A := fun fs => (o, fs).

#[global] Instance M_ret : MRet M := @ret.
#[global] Instance M_bind : MBind M := fun A B k c => bind c k.

(** [for x in xs: s = body(s, x)], the loop state made explicit. *)
Fixpoint for_each {A S} (xs : list A) (body : S -> A -> M S) (s : S) : M S :=
  match xs with
  | [] => ret s
  | x :: xs' => s' ← body s x; for_each xs' body s'
  end.

(** [with open(p, 'rb') as f: data = f.read()] *)
Definition read_file (p : string) : M bytes :=
  fun fs => (read_path fs p, fs).

(** [open(p, 'wb')] *)
Definition open_wb (p : string) : M unit :=
  fun fs =>
    match create_path [] fs p with
    | Return fs' => (Return tt, fs')
    | Raise e => (Raise e, fs)
    end.

(** [f.write(b)] on the file opened at [p]. *)
Definition write (p : string) (b : bytes) : M unit :=
  fun fs =>
    (Return tt,
     alter (fun n => match n with File old => File (old ++ b) | Dir => Dir end)
       p fs).

(** [os.makedirs(p, exist_ok=True)] goes down the directories on the
    way to [p] and [p] itself, outermost first, and makes the ones that
    are missing.  A regular file stops it: the [mkdir] of the name below
    it raises [NotADirectoryError], and [p] itself being a regular file
    raises [FileExistsError]. *)
Fixpoint make_each (ds : list string) : M unit :=
  match ds with
  | [] => ret tt
  | d :: ds' =>
      fun fs =>
        match fs !! d with
        | Some (File _) =>
            (Raise (match ds' with
                    | [] => FileExistsError d
                    | d' :: _ => NotADirectoryError d'
                    end), fs)
        | Some Dir => make_each ds' fs
        | None => make_each ds' (<[d := Dir]> fs)
        end
  end.

Definition makedirs (p : string) : M unit :=
  if decide (p = EmptyString) then lift (Raise (FileNotFoundError p))
  else make_each (dirs p ++ [p]).

(** ** The [struct] module, for the formats the scripts use *)

Inductive byte_order : Type := BigEndian | LittleEndian.

(** Format characters: [B] one byte, [H] two bytes, [I] four bytes, all
    unsigned. *)
Inductive fmt_char : Type := fmt_B | fmt_H | fmt_I.

Definition fmt_size (c : fmt_char) : nat :=
  match c with fmt_B => 1 | fmt_H => 2 | fmt_I => 4 end%nat.

Definition encode (o : byte_order) (n : nat) (v : Z) : bytes :=
  match o with
  | LittleEndian => le_split n v
  | BigEndian => rev (le_split n v)
  end.

Definition decode (o : byte_order) (b : bytes) : Z :=
  match o with
  | LittleEndian => le_combine b
  | BigEndian => le_combine (rev b)
  end.

(** One field of [struct.pack]: the value must fit the field. *)
Definition pack_field (o : byte_order) (c : fmt_char) (v : Z) : outcome bytes :=
  if (0 <=? v) && (v <? 2 ^ (8 * Z.of_nat (fmt_size c)))
  then Return (encode o (fmt_size c) v)
  else Raise struct_error.

(** [struct.pack(fmt, *vals)] with standard sizes and no padding. *)
Fixpoint struct_pack (o : byte_order) (fmt : list fmt_char) (vals : list Z)
  : outcome bytes :=
  match fmt, vals with
  | [], [] => Return []
  | c :: fmt', v :: vals' =>
      match pack_field o c v with
      | Return b =>
          match struct_pack o fmt' vals' with
          | Return rest => Return (b ++ rest)
          | Raise e => Raise e
          end
      | Raise e => Raise e
      end
  | _, _ => Raise struct_error
  end.

(** [struct.unpack('>I', b)[0]]: the buffer must be exactly four bytes. *)
Definition unpack_uint32_be (b : bytes) : outcome Z :=
  if bool_decide (length b = 4%nat)
  then Return (decode BigEndian b)
  else Raise struct_error.

(** ** What both scripts share *)

(** [b'\x89PNG\r\n\x1a\n'] *)
Definition PNG_SIGNATURE : bytes := [x89; x50; x4e; x47; x0d; x0a; x1a; x0a].

(** [data[:8] == b'\x89PNG\r\n\x1a\n'] *)
Definition has_png_signature (data : bytes) : bool :=
  bool_decide (take 8 data = PNG_SIGNATURE).

(** ** create-icns.py *)

Module Icns.

(** The [icon_types] dictionary. *)
Definition icon_types : gmap Z (list byte) :=
  list_to_map
    [ (16,   list_byte_of_string "icp4");
      (32,   list_byte_of_string "icp5");
      (48,   list_byte_of_string "icp6");
      (128,  list_byte_of_string "ic07");
      (256,  list_byte_of_string "ic08");
      (512,  list_byte_of_string "ic09");
      (1024, list_byte_of_string "ic10") ].

(** [icon_types.get(width, b'ic09')] *)
Definition icon_type (width : Z) : bytes :=
  default (list_byte_of_string "ic09") (icon_types !! width).

(** The body of the loop over [png_files]; the loop state is
    [(entries, total_size)]. *)
Definition read_entry (st : list bytes * Z) (png_file : string)
  : M (list bytes * Z) :=
  let '(entries, total_size) := st in
  data ← read_file png_file;
  if has_png_signature data then
    width ← lift (unpack_uint32_be (slice 16 20 data));
    let icon_type := icon_type width in
    let entry_size := 8 + len data in
    size_field ← lift (struct_pack BigEndian [fmt_I] [entry_size]);
    let entry := icon_type ++ size_field ++ data in
    ret (entries ++ [entry], total_size + entry_size)
  else
    ret (entries, total_size).

Definition create_icns (png_files : list string) (output_file : string)
  : M unit :=
  '(entries, total_size) ← for_each png_files read_entry ([], 8);
  open_wb output_file;;
  write output_file (list_byte_of_string "icns");;
  size_field ← lift (struct_pack BigEndian [fmt_I] [total_size]);
  write output_file size_field;;
  for_each entries (fun _ entry => write output_file entry) tt.

End Icns.

(** ** create-ico.py *)

Module Ico.

(** The body of the first loop: the images kept so far, as
    [(w, h, data)]. *)
Definition read_image (images : list (Z * Z * bytes)) (png_file : string)
  : M (list (Z * Z * bytes)) :=
  data ← read_file png_file;
  if has_png_signature data then
    let width := slice 16 20 data in
    let height := slice 20 24 data in
    w ← lift (unpack_uint32_be width);
    h ← lift (unpack_uint32_be height);
    ret (images ++ [(w, h, data)])
  else
    ret images.

(** The body of the second loop; the loop state is
    [(entries, data_block, offset)]. *)
Definition add_entry (st : bytes * bytes * Z) (image : Z * Z * bytes)
  : M (bytes * bytes * Z) :=
  let '(entries, data_block, offset) := st in
  let '(width, height, img_data) := image in
  let w := if width <? 256 then width else 0 in
  let h := if height <? 256 then height else 0 in
  entry ← lift (struct_pack LittleEndian
                   [fmt_B; fmt_B; fmt_B; fmt_B; fmt_H; fmt_H; fmt_I; fmt_I]
                   [w; h; 0; 0; 1; 32; len img_data; offset]);
  ret (entries ++ entry, data_block ++ img_data, offset + len img_data).

Definition create_ico (png_files : list string) (output_file : string)
  : M unit :=
  images ← for_each png_files read_image [];
  match images with
  | [] => ret tt
  | _ :: _ =>
      ico_header ← lift (struct_pack LittleEndian [fmt_H; fmt_H; fmt_H]
                            [0; 1; Z.of_nat (length images)]);
      let offset := 6 + Z.of_nat (length images) * 16 in
      '(entries, data_block, _) ←
        for_each images add_entry ([], [], offset);
      open_wb output_file;;
      write output_file ico_header;;
      write output_file entries;;
      write output_file data_block
  end.

End Ico.

(** ** The scripts' top level

    Below the function, each script builds the list of its four input
    paths, calls the function and prints one line.  A world is the
    file system and the lines printed so far. *)

Record world : Type := World { files : fsys; stdout : list string }.

Definition IO (A : Type) : Type := world -> outcome A * world.

#[global] Instance IO_ret : MRet IO := fun A a w => (Return a, w).
#[global] Instance IO_bind : MBind IO :=
  fun A B k c w =>
    match c w with
    | (Return a, w') => k a w'
    | (Raise e, w') => (Raise e, w')
    end.

(** A file-system computation, run in a world. *)
Definition on_files {A} (c : M A) : IO A :=
  fun w => let '(r, fs') := c (files w) in (r, World fs' (stdout w)).

(** [print(line)] *)
Definition print (line : string) : IO unit :=
  fun w => (Return tt, World (files w) (stdout w ++ [line])).

Module CreateIcns.

Definition icon_dir : string := "src-tauri/icons".

Definition png_files : list string :=
  [ icon_dir +:+ "/32x32.png";
    icon_dir +:+ "/128x128.png";
    icon_dir +:+ "/128x128@2x.png";
    icon_dir +:+ "/icon.png" ]%string.

(** The statements after the function definition. *)
Definition script : IO unit :=
  on_files (Icns.create_icns png_files (icon_dir +:+ "/icon.icns"));;
  print ("Created " +:+ icon_dir +:+ "/icon.icns").

End CreateIcns.

Module CreateIco.

Definition icon_dir : string := "src-tauri/icons".

Definition png_files : list string :=
  [ icon_dir +:+ "/32x32.png";
    icon_dir +:+ "/128x128.png";
    icon_dir +:+ "/128x128@2x.png";
    icon_dir +:+ "/icon.png" ]%string.

(** The statements after the function definition. *)
Definition script : IO unit :=
  on_files (Ico.create_ico png_files (icon_dir +:+ "/icon.ico"));;
  print ("Created " +:+ icon_dir +:+ "/icon.ico").

End CreateIco.

(** ** generate-icons.py *)

Module GenerateIcons.

Inductive error : Type := ValueError.

Definition ICON_DIR : string := "src-tauri/icons".

(** [for _ in range(n): s = body(s)]; neither loop of
    [create_simple_png] uses its index. *)
Fixpoint for_range {S} (n : nat) (body : S -> error + S) (s : S) : error + S :=
  match n with
  | O => inr s
  | S n' =>
      match body s with
      | inl e => inl e
      | inr s' => for_range n' body s'
      end
  end.

(** [raw.extend(vals)] on a bytearray: every value must be a byte. *)
Definition bytearray_extend (raw : bytes) (vals : list Z) : error + bytes :=
  if forallb (fun v => (0 <=? v) && (v <? 256)) vals
  then inr (raw ++ (byte.of_Z <$> vals))
  else inl ValueError.

(** The default of the [color] argument. *)
Definition default_color : list Z := [0; 102; 204].

Definition create_simple_png (width height : Z) (color : list Z)
  : error + bytes :=
  let png_signature := PNG_SIGNATURE in
  match
    for_range (Z.to_nat height)
      (fun raw_data =>
         let raw_data := raw_data ++ [x00] in
         for_range (Z.to_nat width)
           (fun raw_data =>
              match bytearray_extend raw_data color with
              | inl e => inl e
              | inr raw_data => inr (raw_data ++ [xff])
              end)
           raw_data)
      []
  with
  | inl e => inl e
  | inr raw_data => inr (png_signature ++ raw_data)
  end.

(** [shutil.copy(src, dst)]: a [dst] that is a directory stands for the
    file of the name of [src] in it; copying a file onto itself is
    refused; then [src] is opened for reading, [dst] for writing, and
    the content of [src] becomes the content of [dst]. *)
Definition shutil_copy (src dst : string) : M unit :=
  fun fs =>
    let dst :=
      if isdir fs dst then (dst +:+ "/" +:+ basename src)%string else dst in
    if bool_decide (src = dst) && path_exists fs src
    then (Raise (SameFileError src dst), fs)
    else (data ← read_file src; open_wb dst;; write dst data) fs.

(** [main()]; [sizes] is not used. *)
Definition main : IO unit :=
  on_files (makedirs ICON_DIR);;
  print "Creating icons...";;
  print ("Icons will be saved to: " +:+ ICON_DIR);;
  print EmptyString;;
  print "Note: For production, please install ImageMagick and run:";;
  print "  ./generate-icons.sh";;
  print EmptyString;;
  print "Or use the Tauri CLI:";;
  print "  npx @tauri-apps/cli icon icon.svg";;
  print EmptyString;;
  on_files (shutil_copy "icon.svg" (ICON_DIR +:+ "/icon.png"));;
  print "✓ Created icon.svg (copy this to icon.png)";;
  print ("✓ Directory ready: " +:+ ICON_DIR).

End GenerateIcons.

(** ** update_settings.py

    The script patches one text file.  A Python [str] is a list of
    characters; the text of a file is what [f.read()] returns and what
    [f.write] is given. *)

Module UpdateSettings.

Abbreviation str := (list Ascii.ascii).

(** The double quote and the line feed, to write the literals of the
    script one source line at a time. *)
Definition q : string := String (Ascii.ascii_of_nat 34) EmptyString.
Definition nl : string := String (Ascii.ascii_of_nat 10) EmptyString.

(** The first index at or after [i] where [sub] starts in the text whose
    tail from [i] on is [s]. *)
Fixpoint find_at (sub s : str) (i : nat) {struct s} : option nat :=
  if decide (sub `prefix_of` s) then Some i
  else match s with
       | [] => None
       | _ :: s' => find_at sub s' (S i)
       end.

(** [s.find(sub, start)] *)
Definition str_find (s sub : str) (start : Z) : Z :=
  let n := Z.of_nat (length s) in
  let start := if start <? 0 then Z.max 0 (start + n) else start in
  if n <? start then -1
  else match find_at sub (drop (Z.to_nat start) s) (Z.to_nat start) with
       | Some i => Z.of_nat i
       | None => -1
       end.

(** [sub in s] *)
Definition str_contains (s sub : str) : bool :=
  negb (str_find s sub 0 =? -1).

(** [s[i:j]] *)
Definition str_slice (s : str) (i j : Z) : str :=
  let n := Z.of_nat (length s) in
  let clip k := Z.to_nat (if k <? 0 then Z.max 0 (k + n) else Z.min k n) in
  take (clip j - clip i) (drop (clip i) s).

(** [s.replace(old, new)] for a non-empty [old], from left to right;
    [skip] counts the characters of a replaced occurrence that are still
    to be passed. *)
Fixpoint replace_from (old new s : str) (skip : nat) {struct s} : str :=
  match s with
  | [] => []
  | c :: s' =>
      match skip with
      | S k => replace_from old new s' k
      | O =>
          if decide (old `prefix_of` s)
          then new ++ replace_from old new s' (length old - 1)
          else c :: replace_from old new s' 0
      end
  end.

(** [s.replace(old, new)]; an empty [old] matches before every
    character and at the end. *)
Definition str_replace (s old new : str) : str :=
  match old with
  | [] => new ++ flat_map (fun c => c :: new) s
  | _ :: _ => replace_from old new s 0
  end.

Definition file_path : string :=
  "apps/web/src/routes/app/settings/+page.svelte".

Definition import_marker : str :=
  list_ascii_of_string
   ("import { fly, fade } from " +:+ q +:+ "svelte/transition" +:+ q +:+ ";")%string.

Definition new_import : str :=
  list_ascii_of_string
   ("import { isBrowser } from " +:+ q +:+ "/browser" +:+ q +:+ ";")%string.

Definition func_marker : str :=
  list_ascii_of_string
   ("function handleLogout() {")%string.

Definition go_back_func : str :=
  list_ascii_of_string
   (nl +:+
    "  function goBack() {" +:+ nl +:+
    "    // Smart Back: Use history if available, else fallback to dashboard" +:+ nl +:+
    "    if (isBrowser && window.history.length > 1) {" +:+ nl +:+
    "      window.history.back();" +:+ nl +:+
    "    } else {" +:+ nl +:+
    "      goto(" +:+ q +:+ "/app" +:+ q +:+ ");" +:+ nl +:+
    "    }" +:+ nl +:+
    "  }" +:+ nl +:+
    nl)%string.

Definition old_header_start : str :=
  list_ascii_of_string
   ("<header")%string.

Definition old_header_end : str :=
  list_ascii_of_string
   ("</header>")%string.

Definition new_header : str :=
  list_ascii_of_string
   ("<header" +:+ nl +:+
    "    class=" +:+ q +:+ "flex items-start sm:items-center gap-4 sm:gap-6 mb-8" +:+ q +:+ nl +:+
    "    in:fly={{ y: -20 }}" +:+ nl +:+
    "  >" +:+ nl +:+
    "    <button" +:+ nl +:+
    "      onclick={goBack}" +:+ nl +:+
    "      class=" +:+ q +:+ "mt-1 sm:mt-0 p-3 glass-2 rounded-2xl text-[var(--ui-text-muted)] hover:text-primary transition-all hover:scale-110 active:scale-95 shrink-0" +:+ q +:+ nl +:+
    "      aria-label=" +:+ q +:+ "Go Back" +:+ q +:+ nl +:+
    "    >" +:+ nl +:+
    "      <svg" +:+ nl +:+
    "        xmlns=" +:+ q +:+ "http://www.w3.org/2000/svg" +:+ q +:+ nl +:+
    "        width=" +:+ q +:+ "24" +:+ q +:+ nl +:+
    "        height=" +:+ q +:+ "24" +:+ q +:+ nl +:+
    "        viewBox=" +:+ q +:+ "0 0 24 24" +:+ q +:+ nl +:+
    "        fill=" +:+ q +:+ "none" +:+ q +:+ nl +:+
    "        stroke=" +:+ q +:+ "currentColor" +:+ q +:+ nl +:+
    "        stroke-width=" +:+ q +:+ "3" +:+ q +:+ nl +:+
    "        stroke-linecap=" +:+ q +:+ "round" +:+ q +:+ nl +:+
    "        stroke-linejoin=" +:+ q +:+ "round" +:+ q +:+ "><path d=" +:+ q +:+ "m15 18-6-6 6-6" +:+ q +:+ " /></svg" +:+ nl +:+
    "      >" +:+ nl +:+
    "    </button>" +:+ nl +:+
    nl +:+
    "    <div>" +:+ nl +:+
    "      <h1" +:+ nl +:+
    "        class=" +:+ q +:+ "text-4xl sm:text-5xl font-black text-[var(--ui-text)] tracking-tighter" +:+ q +:+ nl +:+
    "      >" +:+ nl +:+
    "        System Console" +:+ nl +:+
    "      </h1>" +:+ nl +:+
    "      <p class=" +:+ q +:+ "text-[var(--ui-text-muted)] font-medium" +:+ q +:+ ">" +:+ nl +:+
    "        Configure your neural link and environment." +:+ nl +:+
    "      </p>" +:+ nl +:+
    "    </div>" +:+ nl +:+
    "  </header>")%string.

(** [# 1. Add Import] *)
Definition add_import (content : str) : str :=
  if negb (str_contains content new_import)
  then str_replace content import_marker
         (import_marker ++ list_ascii_of_string (nl +:+ "  ") ++ new_import)
  else content.

(** [# 2. Add goBack function] *)
Definition add_go_back (content : str) : str :=
  if negb (str_contains content (list_ascii_of_string "function goBack()"))
  then str_replace content func_marker
         (go_back_func ++ list_ascii_of_string "  " ++ func_marker)
  else content.

(** [# 3. Replace Header] *)
Definition replace_header (content : str) : str :=
  let start_idx := str_find content old_header_start 0 in
  let end_idx :=
    str_find content old_header_end start_idx
    + Z.of_nat (length old_header_end) in
  if negb (start_idx =? -1) then
    let old_header := str_slice content start_idx end_idx in
    str_replace content old_header new_header
  else content.

(** The files on disk, as text, and the lines printed. *)
Record text_world : Type :=
  TextWorld { text_files : names str; printed : list string }.

(** The whole script: read the page, patch it in three steps, write it
    back, report. *)
Definition script (w : text_world) : outcome unit * text_world :=
  match read_path (text_files w) file_path with
  | Raise e => (Raise e, w)
  | Return content =>
      let content := add_import content in
      let content := add_go_back content in
      let content := replace_header content in
      match create_path [] (text_files w) file_path with
      | Raise e => (Raise e, w)
      | Return opened =>
          (Return tt,
           TextWorld (<[file_path := File content]> opened)
             (printed w ++ ["Successfully updated settings page."%string]))
      end
  end.

End UpdateSettings.

(** ** Test data *)

(** A complete 1x1 RGBA PNG file (signature, IHDR, IDAT, IEND), 67 bytes. *)
Definition png_1x1 : bytes :=
  [x89; x50; x4e; x47; x0d; x0a; x1a; x0a; x00; x00; x00; x0d; x49; x48; x44; x52;
   x00; x00; x00; x01; x00; x00; x00; x01; x08; x06; x00; x00; x00; x1f; x15; xc4;
   x89; x00; x00; x00; x0a; x49; x44; x41; x54; x78; x9c; x63; x00; x01; x00; x00;
   x05; x00; x01; x0d; x0a; x2d; xb4; x00; x00; x00; x00; x49; x45; x4e; x44; xae;
   x42; x60; x82].

(** A buffer that starts like a [width] x [height] PNG: signature, IHDR
    chunk header, the two dimensions, then [rest]. *)
Definition png_stub (width height : Z) (rest : bytes) : bytes :=
  PNG_SIGNATURE ++ [x00; x00; x00; x0d; x49; x48; x44; x52]
    ++ encode BigEndian 4 width ++ encode BigEndian 4 height ++ rest.

(** Not a PNG: the first bytes of a GIF file. *)
Definition gif_stub : bytes :=
  list_byte_of_string "GIF89a" ++ [x01; x00; x01; x00; x00; x00; x00].

(** The working directory with, in it, four PNG headers of the sizes the
    scripts are run on, a complete PNG, an SVG text file, a file cut off
    right after the PNG signature, and an empty directory. *)
Definition icon_dir : fsys :=
  list_to_map
    [ ("32x32.png"%string, File (png_stub 32 32 []));
      ("128x128.png"%string, File (png_stub 128 128 []));
      ("128x128@2x.png"%string, File (png_stub 256 256 [x01]));
      ("icon.png"%string, File (png_stub 512 512 [x02; x03]));
      ("pixel.png"%string, File png_1x1);
      ("icon.svg"%string, File (list_byte_of_string "<svg/>"));
      ("cut.png"%string, File PNG_SIGNATURE);
      ("build"%string, Dir) ].

(** A working directory with one file, cut off right after the PNG
    signature. *)
Definition cut_dir : fsys := {[ "cut.png"%string := File PNG_SIGNATURE ]}.

(** A working directory with one complete PNG file. *)
Definition pixel_dir : fsys := {[ "pixel.png"%string := File png_1x1 ]}.

(** A buffer of 16 MiB that starts like a 1 x 1 PNG. *)
Definition png_16mib : bytes :=
  png_stub 1 1 (replicate (Z.to_nat 16777192) x00).

(** A working directory that holds it. *)
Definition big_dir : fsys := {[ "big.png"%string := File png_16mib ]}.

(** The directory the scripts work in, with no PNG file in it: the four
    inputs are SVG text. *)
Definition svg_only_dir : fsys :=
  list_to_map
    [ ("src-tauri"%string, Dir);
      ("src-tauri/icons"%string, Dir);
      ("src-tauri/icons/32x32.png"%string, File (list_byte_of_string "<svg/>"));
      ("src-tauri/icons/128x128.png"%string, File (list_byte_of_string "<svg/>"));
      ("src-tauri/icons/128x128@2x.png"%string,
       File (list_byte_of_string "<svg/>"));
      ("src-tauri/icons/icon.png"%string, File (list_byte_of_string "<svg/>")) ].
(** The settings page with the text [content], in the directories of
    its route. *)
Definition settings_page (content : UpdateSettings.str)
  : names UpdateSettings.str :=
  list_to_map
    [ ("apps"%string, Dir);
      ("apps/web"%string, Dir);
      ("apps/web/src"%string, Dir);
      ("apps/web/src/routes"%string, Dir);
      ("apps/web/src/routes/app"%string, Dir);
      ("apps/web/src/routes/app/settings"%string, Dir);
      (UpdateSettings.file_path, File content) ].


(** * Vocabulary of the statements *)

(** The buffer starts with the PNG signature. *)
Definition is_png (data : bytes) : Prop := take 8 data = PNG_SIGNATURE.

#[global] Instance is_png_dec data : Decision (is_png data).
Proof. unfold is_png. apply _. Defined.

(** ** Paths *)

(** The way to [p] is clear: [p] is a name, and every directory it goes
    through is there. *)
Definition reachable {A} (fs : names A) (p : string) : Prop :=
  p <> EmptyString /\ Forall (fun d => fs !! d = Some Dir) (dirs p).

(** [p] names a regular file that holds [content]. *)
Definition file_at {A} (fs : names A) (p : string) (content : A) : Prop :=
  reachable fs p /\ fs !! p = Some (File content).

(** [p] can be opened for writing: its directory is there, and [p] is
    not itself a directory. *)
Definition writable {A} (fs : names A) (p : string) : Prop :=
  reachable fs p /\ fs !! p <> Some Dir.

#[global] Instance reachable_dec {A} `{EqDecision A} (fs : names A) p :
  Decision (reachable fs p).
Proof. unfold reachable. apply _. Defined.

#[global] Instance file_at_dec {A} `{EqDecision A} (fs : names A) p content :
  Decision (file_at fs p content).
Proof. unfold file_at. apply _. Defined.

#[global] Instance writable_dec {A} `{EqDecision A} (fs : names A) p :
  Decision (writable fs p).
Proof. unfold writable. apply _. Defined.

(** The way to [p] is blocked, and [e] is what [open] raises: [p] is the
    empty path, or the first name on the way that is not a directory is
    missing, or it is a regular file. *)
Inductive unreachable {A} (fs : names A) (p : string) : exn -> Prop :=
  | unreachable_empty :
      p = EmptyString -> unreachable fs p (FileNotFoundError p)
  | unreachable_missing above d below :
      p <> EmptyString ->
      dirs p = above ++ d :: below ->
      Forall (fun d => fs !! d = Some Dir) above ->
      fs !! d = None ->
      unreachable fs p (FileNotFoundError p)
  | unreachable_file above d below content :
      p <> EmptyString ->
      dirs p = above ++ d :: below ->
      Forall (fun d => fs !! d = Some Dir) above ->
      fs !! d = Some (File content) ->
      unreachable fs p (NotADirectoryError p).

(** [p] cannot be opened for reading, and [e] is what [open] raises. *)
Inductive cannot_read {A} (fs : names A) (p : string) : exn -> Prop :=
  | cannot_read_unreachable e :
      unreachable fs p e -> cannot_read fs p e
  | cannot_read_missing :
      reachable fs p -> fs !! p = None ->
      cannot_read fs p (FileNotFoundError p)
  | cannot_read_directory :
      reachable fs p -> fs !! p = Some Dir ->
      cannot_read fs p (IsADirectoryError p).

(** [p] cannot be opened for writing, and [e] is what [open] raises. *)
Inductive cannot_write {A} (fs : names A) (p : string) : exn -> Prop :=
  | cannot_write_unreachable e :
      unreachable fs p e -> cannot_write fs p e
  | cannot_write_directory :
      reachable fs p -> fs !! p = Some Dir ->
      cannot_write fs p (IsADirectoryError p).

(** No regular file has the name [p]: nothing has, or a directory. *)
Definition no_file_at {A} (fs : names A) (p : string) : Prop :=
  fs !! p = None \/ fs !! p = Some Dir.

(** The files named by [png_files] exist and hold the buffers [bufs], in
    this order. *)
Definition holds (fs : fsys) (png_files : list string) (bufs : list bytes) : Prop :=
  Forall2 (file_at fs) png_files bufs.

(** The big-endian integers at byte offsets 16 and 20. *)
Definition png_width (data : bytes) : Z := decode BigEndian (slice 16 20 data).
Definition png_height (data : bytes) : Z := decode BigEndian (slice 20 24 data).

#[global] Instance holds_dec fs png_files bufs :
  Decision (holds fs png_files bufs).
Proof. unfold holds. apply _. Defined.

(** ** ICNS files *)

Module IcnsSpec.
Import Icns.

(** The entry the loop builds for one PNG buffer. *)
Definition entry_of (data : bytes) : bytes :=
  icon_type (png_width data) ++ encode BigEndian 4 (8 + len data) ++ data.

(** What the loop needs from a PNG buffer to get through it. *)
Definition encodable (data : bytes) : Prop :=
  (20 <= length data)%nat /\ 8 + len data < 2 ^ 32.

#[global] Instance encodable_dec data : Decision (encodable data).
Proof. unfold encodable. apply _. Defined.

(** The total the loop computes for the kept buffers [pngs]. *)
Definition total_size (pngs : list bytes) : Z :=
  8 + Z.of_nat (sum_list_with (fun data => 8 + length data)%nat pngs).

(** The whole file for the kept PNG buffers [pngs]. *)
Definition icns_file (pngs : list bytes) : bytes :=
  list_byte_of_string "icns" ++ encode BigEndian 4 (total_size pngs)
    ++ concat (entry_of <$> pngs).

End IcnsSpec.

(** ** ICO files *)

Module IcoSpec.
Import Ico.

(** What the first loop keeps of one PNG buffer. *)
Definition image_of (data : bytes) : Z * Z * bytes :=
  (png_width data, png_height data, data).

(** What the first loop needs from a PNG buffer to get through it. *)
Definition readable (data : bytes) : Prop := (24 <= length data)%nat.

#[global] Instance readable_dec data : Decision (readable data).
Proof. unfold readable. apply _. Defined.

(** The directory entry of the image [data] whose payload starts at [off]. *)
Definition dir_entry (data : bytes) (off : Z) : bytes :=
  [ byte.of_Z (if png_width data <? 256 then png_width data else 0);
    byte.of_Z (if png_height data <? 256 then png_height data else 0);
    x00; x00; x01; x00; x20; x00 ]
  ++ encode LittleEndian 4 (len data) ++ encode LittleEndian 4 off.

(** The directory of the images [pngs] when the first payload starts at
    [off]. *)
Fixpoint directory (off : Z) (pngs : list bytes) : list bytes :=
  match pngs with
  | [] => []
  | data :: pngs' => dir_entry data off :: directory (off + len data) pngs'
  end.

(** Every size and every offset fits its 32-bit field. *)
Fixpoint entries_fit (off : Z) (pngs : list bytes) : Prop :=
  match pngs with
  | [] => True
  | data :: pngs' =>
      (len data < 2 ^ 32 /\ off < 2 ^ 32) /\ entries_fit (off + len data) pngs'
  end.

#[global] Instance entries_fit_dec off pngs : Decision (entries_fit off pngs).
Proof. revert off. induction pngs; intros off; simpl; apply _. Defined.

(** The file header for [n] images. *)
Definition ico_header (n : nat) : bytes :=
  encode LittleEndian 2 0 ++ encode LittleEndian 2 1
    ++ encode LittleEndian 2 (Z.of_nat n).

(** Where the data block starts in a file of [n] images. *)
Definition data_start (n : nat) : Z := 6 + Z.of_nat n * 16.

(** The whole file for the kept PNG buffers [pngs]. *)
Definition ico_file (pngs : list bytes) : bytes :=
  ico_header (length pngs)
    ++ concat (directory (data_start (length pngs)) pngs) ++ concat pngs.

End IcoSpec.

(** ** Placeholder images *)

Module GenerateIconsSpec.

(** One row of a placeholder image: the filter byte, then [width]
    pixels of the colour and the alpha byte. *)
Definition row (width : Z) (color : list Z) : bytes :=
  x00 :: concat (replicate (Z.to_nat width) ((byte.of_Z <$> color) ++ [xff])).

End GenerateIconsSpec.


(** * Properties *)

Ltac unfold_monad :=
  unfold mbind, M_bind, bind, mret, M_ret, ret, lift in *.

(** A decidable fact about given files is settled by evaluation. *)
Ltac evaluate := apply (bool_decide_unpack _); vm_compute; exact I.

(** ** Running computations *)

Lemma bind_Return {A B} (c : M A) (k : A -> M B) fs a fs' :
  c fs = (Return a, fs') -> (x ← c; k x) fs = k a fs'.
Proof. intros H. unfold_monad. by rewrite H. Qed.

Lemma bind_Raise {A B} (c : M A) (k : A -> M B) fs e fs' :
  c fs = (Raise e, fs') -> (x ← c; k x) fs = (Raise e, fs').
Proof. intros H. unfold_monad. by rewrite H. Qed.

(** ** Paths *)

Lemma walk_None {A} (fs : names A) p ds :
  walk fs p ds = None <-> Forall (fun d => fs !! d = Some Dir) ds.
Proof.
  induction ds as [|d ds IH]; simpl.
  - split; [intros _; apply Forall_nil_2|done].
  - rewrite Forall_cons. destruct (fs !! d) as [[c|]|] eqn:Hd.
    + split; [done|]. by intros [? _].
    + rewrite IH. split; [done|]. by intros [_ ?].
    + split; [done|]. by intros [? _].
Qed.

Lemma walk_missing {A} (fs : names A) p above d below :
  Forall (fun d => fs !! d = Some Dir) above -> fs !! d = None ->
  walk fs p (above ++ d :: below) = Some (FileNotFoundError p).
Proof.
  intros Habove Hd. induction Habove as [|a above Ha _ IH]; simpl.
  - by rewrite Hd.
  - by rewrite Ha.
Qed.

Lemma walk_file {A} (fs : names A) p above d below content :
  Forall (fun d => fs !! d = Some Dir) above -> fs !! d = Some (File content) ->
  walk fs p (above ++ d :: below) = Some (NotADirectoryError p).
Proof.
  intros Habove Hd. induction Habove as [|a above Ha _ IH]; simpl.
  - by rewrite Hd.
  - by rewrite Ha.
Qed.

Lemma walk_Some {A} (fs : names A) p ds e :
  walk fs p ds = Some e ->
  exists above d below,
    ds = above ++ d :: below
    /\ Forall (fun d => fs !! d = Some Dir) above
    /\ (fs !! d = None /\ e = FileNotFoundError p
        \/ exists content,
             fs !! d = Some (File content) /\ e = NotADirectoryError p).
Proof.
  induction ds as [|d ds IH]; simpl; [done|].
  destruct (fs !! d) as [[c|]|] eqn:Hd.
  - intros [= <-]. exists [], d, ds. split_and!; [done|apply Forall_nil_2|].
    right. by exists c.
  - intros (above & d' & below & -> & Habove & Hd')%IH.
    exists (d :: above), d', below. split_and!; [done| |done].
    by apply Forall_cons_2.
  - intros [= <-]. exists [], d, ds. split_and!; [done|apply Forall_nil_2|].
    by left.
Qed.

(** A name without a slash is in the working directory itself. *)
Lemma reachable_top {A} (fs : names A) p :
  p <> EmptyString -> dirs p = [] -> reachable fs p.
Proof. intros Hp Hdirs. split; [done|]. rewrite Hdirs. apply Forall_nil_2. Qed.

Lemma lookup_path_reachable {A} (fs : names A) p :
  reachable fs p -> lookup_path fs p = Return (fs !! p).
Proof.
  intros [Hp Hdirs]. unfold lookup_path. rewrite decide_False by done.
  apply (walk_None fs p) in Hdirs. by rewrite Hdirs.
Qed.

Lemma lookup_path_unreachable {A} (fs : names A) p e :
  unreachable fs p e -> lookup_path fs p = Raise e.
Proof.
  unfold lookup_path.
  intros [Hp|above d below Hp Hdirs Habove Hd|above d below c Hp Hdirs Habove Hd].
  - by rewrite decide_True.
  - rewrite decide_False, Hdirs by done. by erewrite walk_missing.
  - rewrite decide_False, Hdirs by done. by erewrite walk_file.
Qed.

(** The way to a path is clear or blocked. *)
Lemma reachable_cases {A} (fs : names A) p :
  reachable fs p \/ exists e, unreachable fs p e.
Proof.
  destruct (decide (p = EmptyString)) as [Hp|Hp].
  { right. eexists. by apply unreachable_empty. }
  destruct (walk fs p (dirs p)) as [e|] eqn:Hwalk.
  - right. exists e.
    apply walk_Some in Hwalk
      as (above & d & below & Hdirs & Habove & [[Hd ->]|(c & Hd & ->)]).
    + by eapply unreachable_missing.
    + by eapply unreachable_file.
  - left. split; [done|]. by apply (walk_None fs p).
Qed.

Lemma unreachable_not_reachable {A} (fs : names A) p e :
  unreachable fs p e -> ~ reachable fs p.
Proof.
  intros Hblocked Hclear. apply lookup_path_unreachable in Hblocked.
  apply lookup_path_reachable in Hclear. congruence.
Qed.

Lemma read_path_file {A} (fs : names A) p content :
  file_at fs p content -> read_path fs p = Return content.
Proof.
  intros [Hclear Hp]. unfold read_path.
  by rewrite lookup_path_reachable, Hp.
Qed.

Lemma read_path_cannot {A} (fs : names A) p e :
  cannot_read fs p e -> read_path fs p = Raise e.
Proof.
  unfold read_path. intros [e' Hblocked|Hclear Hp|Hclear Hp].
  - by rewrite (lookup_path_unreachable fs p e').
  - by rewrite lookup_path_reachable, Hp.
  - by rewrite lookup_path_reachable, Hp.
Qed.

(** A path names a file, or it cannot be read. *)
Lemma read_path_cases {A} (fs : names A) p :
  (exists content, file_at fs p content) \/ (exists e, cannot_read fs p e).
Proof.
  destruct (reachable_cases fs p) as [Hclear|[e Hblocked]].
  - destruct (fs !! p) as [[c|]|] eqn:Hp.
    + left. by exists c.
    + right. eexists. by apply cannot_read_directory.
    + right. eexists. by apply cannot_read_missing.
  - right. exists e. by apply cannot_read_unreachable.
Qed.

Lemma create_path_writable {A} (empty : A) (fs : names A) p :
  writable fs p -> create_path empty fs p = Return (<[p := File empty]> fs).
Proof.
  intros [Hclear Hp]. unfold create_path. rewrite lookup_path_reachable by done.
  by destruct (fs !! p) as [[c|]|].
Qed.

Lemma create_path_cannot {A} (empty : A) (fs : names A) p e :
  cannot_write fs p e -> create_path empty fs p = Raise e.
Proof.
  unfold create_path. intros [e' Hblocked|Hclear Hp].
  - by rewrite (lookup_path_unreachable fs p e').
  - by rewrite lookup_path_reachable, Hp.
Qed.

(** A path can be opened for writing, or [open] raises. *)
Lemma writable_cases {A} (fs : names A) p :
  writable fs p \/ exists e, cannot_write fs p e.
Proof.
  destruct (reachable_cases fs p) as [Hclear|[e Hblocked]].
  - destruct (fs !! p) as [[c|]|] eqn:Hp.
    + left. split; [done|]. by rewrite Hp.
    + right. eexists. by apply cannot_write_directory.
    + left. split; [done|]. by rewrite Hp.
  - right. exists e. by apply cannot_write_unreachable.
Qed.

Lemma file_at_writable {A} (fs : names A) p content :
  file_at fs p content -> writable fs p.
Proof. intros [Hclear Hp]. split; [done|]. by rewrite Hp. Qed.

(** Writing a file leaves the way to every other path as it was: a
    file that is written is not a directory on some way. *)
Lemma reachable_insert {A} (fs : names A) p out content :
  fs !! out <> Some Dir -> reachable fs p ->
  reachable (<[out := File content]> fs) p.
Proof.
  intros Hout [Hp Hdirs]. split; [done|].
  eapply Forall_impl; [exact Hdirs|]. simpl. intros d Hd.
  rewrite lookup_insert_ne; [done|]. intros ->. done.
Qed.

Lemma file_at_insert_ne {A} (fs : names A) p out content new :
  fs !! out <> Some Dir -> out <> p -> file_at fs p content ->
  file_at (<[out := File new]> fs) p content.
Proof.
  intros Hout Hne [Hclear Hp]. split; [by apply reachable_insert|].
  by rewrite lookup_insert_ne.
Qed.

Lemma writable_insert {A} (fs : names A) out content :
  writable fs out -> writable (<[out := File content]> fs) out.
Proof.
  intros [Hclear Hout]. split; [by apply reachable_insert|].
  by rewrite lookup_insert_eq.
Qed.

(** ** Reading and writing files *)

Lemma read_file_Some p (fs : fsys) data :
  file_at fs p data -> read_file p fs = (Return data, fs).
Proof. intros H. unfold read_file. by rewrite (read_path_file fs p data). Qed.

Lemma read_file_cannot p (fs : fsys) e :
  cannot_read fs p e -> read_file p fs = (Raise e, fs).
Proof. intros H. unfold read_file. by rewrite (read_path_cannot fs p e). Qed.

Lemma open_wb_writable p (fs : fsys) :
  writable fs p -> open_wb p fs = (Return tt, <[p := File []]> fs).
Proof. intros H. unfold open_wb. by rewrite create_path_writable. Qed.

Lemma open_wb_cannot p (fs : fsys) e :
  cannot_write fs p e -> open_wb p fs = (Raise e, fs).
Proof. intros H. unfold open_wb. by rewrite (create_path_cannot _ fs p e). Qed.

(** Everything written after [open(p, 'wb')] ends up in the file, in the
    order of the writes. *)
Lemma write_insert p b c (fs : fsys) :
  write p b (<[p := File c]> fs) = (Return tt, <[p := File (c ++ b)]> fs).
Proof. unfold write. by rewrite alter_insert_eq. Qed.

Lemma write_each p (chunks : list bytes) : forall c (fs : fsys),
  for_each chunks (fun _ chunk => write p chunk) tt (<[p := File c]> fs)
  = (Return tt, <[p := File (c ++ concat chunks)]> fs).
Proof.
  induction chunks as [|chunk chunks IH]; intros c fs; simpl.
  - by rewrite app_nil_r.
  - erewrite bind_Return by apply write_insert.
    rewrite IH. by rewrite <- app_assoc.
Qed.

(** ** Integers as bytes *)

Lemma length_encode o n v : length (encode o n v) = n.
Proof.
  destruct o; simpl; rewrite ?length_rev; apply length_le_split.
Qed.

Lemma decode_encode o n v :
  0 <= v < 2 ^ (8 * Z.of_nat n) -> decode o (encode o n v) = v.
Proof.
  intros Hv. destruct o; simpl; rewrite ?rev_involutive;
    rewrite le_combine_split; apply Z.mod_small; by rewrite Z.mul_comm.
Qed.

Lemma decode_bound o b : 0 <= decode o b < 2 ^ (8 * Z.of_nat (length b)).
Proof.
  destruct o; simpl.
  - rewrite <- (length_rev b). apply le_combine_bound.
  - apply le_combine_bound.
Qed.

Lemma lor_shiftl_byte a r :
  0 <= a < 2 ^ 8 -> Z.lor a (Z.shiftl r 8) = a + 2 ^ 8 * r.
Proof.
  intros Ha. pose proof (Z.add_lor_land a (Z.shiftl r 8)) as Hadd.
  assert (Z.land a (Z.shiftl r 8) = 0) as Hland.
  { apply Z.bits_inj'. intros i Hi. rewrite Z.land_spec, Z.bits_0.
    destruct (Z.lt_ge_cases i 8).
    - rewrite Z.shiftl_spec_low by lia. apply andb_false_r.
    - assert (Z.testbit a i = false) as ->; [|done].
      destruct (Z.eq_dec a 0) as [->|]; [apply Z.bits_0|].
      apply Z.bits_above_log2; [lia|].
      apply Z.lt_le_trans with 8; [|done]. apply Z.log2_lt_pow2; lia. }
  rewrite Z.shiftl_mul_pow2 in * by lia. lia.
Qed.

(** The value of four big-endian bytes. *)
Lemma decode_be_4 b0 b1 b2 b3 :
  decode BigEndian [b0; b1; b2; b3]
  = byte.unsigned b0 * 2 ^ 24 + byte.unsigned b1 * 2 ^ 16
    + byte.unsigned b2 * 2 ^ 8 + byte.unsigned b3.
Proof.
  unfold decode. cbn [rev app]. unfold le_combine.
  pose proof (byte.unsigned_range b0). pose proof (byte.unsigned_range b1).
  pose proof (byte.unsigned_range b2). pose proof (byte.unsigned_range b3).
  rewrite !lor_shiftl_byte by done. lia.
Qed.

(** ** [struct.pack] succeeds exactly on values that fit *)

Lemma pack_field_fits o c v :
  0 <= v < 2 ^ (8 * Z.of_nat (fmt_size c)) ->
  pack_field o c v = Return (encode o (fmt_size c) v).
Proof.
  intros [H0 H1]. unfold pack_field.
  apply Z.leb_le in H0. apply Z.ltb_lt in H1. by rewrite H0, H1.
Qed.

Lemma pack_field_overflow o c v :
  ~ 0 <= v < 2 ^ (8 * Z.of_nat (fmt_size c)) ->
  pack_field o c v = Raise struct_error.
Proof.
  intros H. unfold pack_field.
  destruct (0 <=? v) eqn:H0; [|done].
  destruct (v <? 2 ^ (8 * Z.of_nat (fmt_size c))) eqn:H1; [|done].
  apply Z.leb_le in H0. apply Z.ltb_lt in H1. lia.
Qed.

Lemma pack_uint32_fits o v :
  0 <= v < 2 ^ 32 -> struct_pack o [fmt_I] [v] = Return (encode o 4 v).
Proof.
  intros H. simpl. rewrite pack_field_fits by done. by rewrite app_nil_r.
Qed.

Lemma pack_uint32_overflow o v :
  ~ 0 <= v < 2 ^ 32 -> struct_pack o [fmt_I] [v] = Raise struct_error.
Proof. intros H. simpl. by rewrite pack_field_overflow. Qed.

Lemma unpack_uint32_be_4 b :
  length b = 4%nat -> unpack_uint32_be b = Return (decode BigEndian b).
Proof. intros H. unfold unpack_uint32_be. by rewrite bool_decide_eq_true_2. Qed.

Lemma unpack_uint32_be_short b :
  length b <> 4%nat -> unpack_uint32_be b = Raise struct_error.
Proof. intros H. unfold unpack_uint32_be. by rewrite bool_decide_eq_false_2. Qed.

(** ** Slices and tables of records *)

Lemma length_slice i j (b : bytes) :
  (j <= length b)%nat -> length (slice i j b) = (j - i)%nat.
Proof. intros H. unfold slice. rewrite length_take, length_drop. lia. Qed.

Lemma length_slice_short i j (b : bytes) :
  (length b < j)%nat -> (i < j)%nat -> length (slice i j b) <> (j - i)%nat.
Proof. intros H1 H2. unfold slice. rewrite length_take, length_drop. lia. Qed.

Lemma slice_app_middle (pre x post : bytes) i j :
  length pre = i -> length x = (j - i)%nat ->
  slice i j (pre ++ x ++ post) = x.
Proof.
  intros Hpre Hx. unfold slice.
  rewrite drop_app_length' by done. by rewrite take_app_length'.
Qed.

Lemma take_drop_app_l (l1 l2 : bytes) i n :
  (i + n <= length l1)%nat -> take n (drop i (l1 ++ l2)) = take n (drop i l1).
Proof.
  intros H. rewrite drop_app_le by lia.
  rewrite take_app_le; [done|]. rewrite length_drop. lia.
Qed.

(** The [k]-th record of a table of records of [c] bytes each. *)
Lemma record_lookup (c : nat) (records : list bytes) : forall k record,
  Forall (fun r => length r = c) records ->
  records !! k = Some record ->
  take c (drop (c * k) (concat records)) = record.
Proof.
  induction records as [|r records IH]; intros k record Hlen Hk; [done|].
  apply Forall_cons in Hlen as [Hr Hlen]. destruct k as [|k]; simpl in Hk.
  - injection Hk as ->. rewrite Nat.mul_0_r, drop_0. cbn [concat].
    by rewrite take_app_length'.
  - cbn [concat]. replace (c * S k)%nat with (length r + c * k)%nat by lia.
    rewrite drop_app_add. by apply IH.
Qed.

(** ** Input buffers *)

Lemma has_png_signature_true data : is_png data -> has_png_signature data = true.
Proof. intros H. unfold has_png_signature. by rewrite bool_decide_eq_true_2. Qed.

Lemma has_png_signature_false data : ~ is_png data -> has_png_signature data = false.
Proof. intros H. unfold has_png_signature. by rewrite bool_decide_eq_false_2. Qed.

Lemma png_width_bound data : 0 <= png_width data < 2 ^ 32.
Proof.
  unfold png_width. pose proof (decode_bound BigEndian (slice 16 20 data)) as H.
  assert (length (slice 16 20 data) <= 4)%nat
    by (unfold slice; rewrite length_take; lia).
  assert (2 ^ (8 * Z.of_nat (length (slice 16 20 data))) <= 2 ^ 32)
    by (apply Z.pow_le_mono_r; lia).
  lia.
Qed.

Lemma png_height_bound data : 0 <= png_height data < 2 ^ 32.
Proof.
  unfold png_height. pose proof (decode_bound BigEndian (slice 20 24 data)) as H.
  assert (length (slice 20 24 data) <= 4)%nat
    by (unfold slice; rewrite length_take; lia).
  assert (2 ^ (8 * Z.of_nat (length (slice 20 24 data))) <= 2 ^ 32)
    by (apply Z.pow_le_mono_r; lia).
  lia.
Qed.

(** Files that hold just the PNG buffers of an input always exist: the
    input files themselves, without the ones passed over. *)
Lemma kept_files_exist fs png_files bufs :
  holds fs png_files bufs ->
  exists kept_files,
    sublist kept_files png_files /\ holds fs kept_files (filter is_png bufs).
Proof.
  induction 1 as [|p data png_files bufs Hp _ (kept & Hsub & Hkept)].
  - exists []. split; [done|apply Forall2_nil_2].
  - destruct (decide (is_png data)) as [Hsig|Hsig].
    + exists (p :: kept). rewrite filter_cons_True by done.
      split; [by apply sublist_skip|by apply Forall2_cons_2].
    + exists kept. rewrite filter_cons_False by done.
      split; [by apply sublist_cons|done].
Qed.

Lemma holds_replicate (fs : fsys) p data n :
  file_at fs p data -> holds fs (replicate n p) (replicate n data).
Proof.
  intros Hp. induction n as [|n IH]; [apply Forall2_nil_2|].
  by apply Forall2_cons_2.
Qed.

Lemma filter_is_png_replicate data n :
  is_png data -> filter is_png (replicate n data) = replicate n data.
Proof.
  intros Hsig. induction n as [|n IH]; [done|].
  cbn [replicate]. by rewrite filter_cons_True, IH.
Qed.

Lemma sum_list_with_replicate {A} (f : A -> nat) n x :
  sum_list_with f (replicate n x) = (n * f x)%nat.
Proof. induction n as [|n IH]; [done|]. cbn [replicate sum_list_with]. lia. Qed.

Lemma length_png_16mib : length png_16mib = Z.to_nat 16777216.
Proof.
  unfold png_16mib, png_stub.
  rewrite !length_app, !length_encode, length_replicate. simpl length. lia.
Qed.

(** ** The ICNS writer *)

Module IcnsFacts.
Import Icns IcnsSpec.

Lemma read_entry_fs st p fs : (read_entry st p fs).2 = fs.
Proof.
  destruct st as [entries total]. unfold read_entry, read_file. unfold_monad.
  destruct (read_path fs p) as [data|]; [|done].
  destruct (has_png_signature data); [|done].
  destruct (unpack_uint32_be _); [|done].
  by destruct (struct_pack _ _ _).
Qed.

Lemma read_entry_same_content st p q (fs : fsys) data :
  file_at fs p data -> file_at fs q data ->
  read_entry st p fs = read_entry st q fs.
Proof.
  intros Hp Hq. destruct st as [entries total].
  unfold read_entry, read_file. unfold_monad.
  by rewrite (read_path_file fs p data), (read_path_file fs q data).
Qed.

Lemma read_entry_skip st p (fs : fsys) data :
  file_at fs p data -> ~ is_png data -> read_entry st p fs = (Return st, fs).
Proof.
  intros Hp Hsig. destruct st as [entries total].
  unfold read_entry. erewrite bind_Return by by apply read_file_Some.
  by rewrite has_png_signature_false.
Qed.

Lemma read_entry_png entries total p (fs : fsys) data :
  file_at fs p data -> is_png data -> encodable data ->
  read_entry (entries, total) p fs
  = (Return (entries ++ [entry_of data], total + (8 + len data)), fs).
Proof.
  intros Hp Hsig [Hlen Hsize].
  unfold read_entry. erewrite bind_Return by by apply read_file_Some.
  rewrite has_png_signature_true by done. unfold_monad.
  rewrite unpack_uint32_be_4 by (rewrite length_slice; lia).
  rewrite pack_uint32_fits by (unfold len in *; lia). done.
Qed.

Lemma read_entry_unreadable st p (fs : fsys) data :
  file_at fs p data -> is_png data -> ~ encodable data ->
  read_entry st p fs = (Raise struct_error, fs).
Proof.
  intros Hp Hsig Hbad. destruct st as [entries total].
  unfold read_entry. erewrite bind_Return by by apply read_file_Some.
  rewrite has_png_signature_true by done. unfold_monad.
  destruct (decide (20 <= length data)%nat) as [Hlen|Hlen].
  - rewrite unpack_uint32_be_4 by (rewrite length_slice; lia).
    rewrite pack_uint32_overflow; [done|].
    unfold encodable in Hbad. unfold len in *. lia.
  - rewrite unpack_uint32_be_short; [done|].
    replace 4%nat with (20 - 16)%nat by done. apply length_slice_short; lia.
Qed.

(** The loop over the input files: every encodable PNG adds its entry, in
    input order; everything else is passed over. *)
Lemma read_entries fs png_files bufs :
  holds fs png_files bufs ->
  Forall (fun data => is_png data -> encodable data) bufs ->
  forall entries total,
    for_each png_files read_entry (entries, total) fs
    = (Return (entries ++ (entry_of <$> filter is_png bufs),
               total + Z.of_nat (sum_list_with (fun data => 8 + length data)%nat
                                   (filter is_png bufs))), fs).
Proof.
  induction 1 as [|p data png_files bufs Hp _ IH]; intros Hok entries total.
  - simpl. unfold_monad. by rewrite app_nil_r, Z.add_0_r.
  - apply Forall_cons in Hok as [Hdata Hok]. cbn [for_each].
    destruct (decide (is_png data)) as [Hsig|Hsig].
    + erewrite bind_Return by (apply read_entry_png; [done|done|by apply Hdata]).
      rewrite IH by done. rewrite filter_cons_True by done.
      cbn [fmap list_fmap sum_list_with]. rewrite <- app_assoc.
      do 3 f_equal. unfold len. lia.
    + erewrite bind_Return by by eapply read_entry_skip.
      rewrite IH by done. by rewrite filter_cons_False.
Qed.

(** One PNG buffer that is too short or too large stops the loop. *)
Lemma read_entries_unreadable fs png_files bufs :
  holds fs png_files bufs ->
  Exists (fun data => is_png data /\ ~ encodable data) bufs ->
  forall st, for_each png_files read_entry st fs = (Raise struct_error, fs).
Proof.
  induction 1 as [|p data png_files bufs Hp _ IH]; intros Hbad st.
  - by apply Exists_nil in Hbad.
  - cbn [for_each]. destruct st as [entries total].
    destruct (decide (is_png data)) as [Hsig|Hsig].
    + destruct (decide (encodable data)) as [Hok|Hok].
      * erewrite bind_Return by by apply read_entry_png.
        apply IH. apply Exists_cons in Hbad as [[_ ?]|?]; done.
      * erewrite bind_Raise; [done|]. by eapply read_entry_unreadable.
    + erewrite bind_Return by by eapply read_entry_skip.
      apply IH. apply Exists_cons in Hbad as [[? _]|?]; done.
Qed.

(** The loop sees only the PNG buffers: two inputs that keep the same
    buffers run alike. *)
Lemma read_entries_kept fs png_files bufs :
  holds fs png_files bufs ->
  forall kept_files st,
    holds fs kept_files (filter is_png bufs) ->
    for_each png_files read_entry st fs = for_each kept_files read_entry st fs.
Proof.
  induction 1 as [|p data png_files bufs Hp _ IH]; intros kept_files st Hkept.
  - rewrite filter_nil in Hkept. by apply Forall2_nil_inv_r in Hkept as ->.
  - cbn [for_each]. destruct (decide (is_png data)) as [Hsig|Hsig].
    + rewrite filter_cons_True in Hkept by done.
      apply Forall2_cons_inv_r in Hkept as (q & kept' & Hq & Hkept & ->).
      cbn [for_each]. unfold_monad.
      rewrite (read_entry_same_content st p q fs data) by done.
      pose proof (read_entry_fs st q fs) as Hfs.
      destruct (read_entry st q fs) as [[st'|e] fs']; simpl in Hfs; subst fs'; [|done].
      by apply IH.
    + rewrite filter_cons_False in Hkept by done.
      erewrite bind_Return by by eapply read_entry_skip.
      by apply IH.
Qed.

(** After the loop: the file is opened and written, unless the total
    does not fit its field; then only the magic has been written. *)
Lemma create_icns_written png_files output_file (fs : fsys) entries total :
  for_each png_files read_entry ([], 8) fs = (Return (entries, total), fs) ->
  writable fs output_file ->
  0 <= total < 2 ^ 32 ->
  create_icns png_files output_file fs
  = (Return tt,
     <[output_file := File (list_byte_of_string "icns" ++ encode BigEndian 4 total
                              ++ concat entries)]> fs).
Proof.
  intros Hloop Hout Htotal. unfold create_icns.
  erewrite bind_Return by exact Hloop. unfold_monad.
  rewrite open_wb_writable by done.
  rewrite write_insert, pack_uint32_fits by done.
  rewrite write_insert, write_each. by rewrite <- app_assoc.
Qed.

Lemma create_icns_total_overflow png_files output_file (fs : fsys) entries total :
  for_each png_files read_entry ([], 8) fs = (Return (entries, total), fs) ->
  writable fs output_file ->
  ~ 0 <= total < 2 ^ 32 ->
  create_icns png_files output_file fs
  = (Raise struct_error,
     <[output_file := File (list_byte_of_string "icns")]> fs).
Proof.
  intros Hloop Hout Htotal. unfold create_icns.
  erewrite bind_Return by exact Hloop. unfold_monad.
  rewrite open_wb_writable by done.
  by rewrite write_insert, pack_uint32_overflow.
Qed.

(** When the output file cannot be opened, nothing is written. *)
Lemma create_icns_not_opened png_files output_file (fs : fsys) st e :
  for_each png_files read_entry ([], 8) fs = (Return st, fs) ->
  cannot_write fs output_file e ->
  create_icns png_files output_file fs = (Raise e, fs).
Proof.
  intros Hloop Hout. unfold create_icns.
  erewrite bind_Return by exact Hloop. destruct st as [entries total].
  unfold_monad. by rewrite (open_wb_cannot _ _ e).
Qed.

Lemma create_icns_unreadable png_files output_file (fs : fsys) bufs :
  holds fs png_files bufs ->
  Exists (fun data => is_png data /\ ~ encodable data) bufs ->
  create_icns png_files output_file fs = (Raise struct_error, fs).
Proof.
  intros Hin Hbad. unfold create_icns.
  erewrite bind_Raise; [done|]. by eapply read_entries_unreadable.
Qed.

Lemma sum_entry_lengths (pngs : list bytes) :
  sum_list_with length (entry_of <$> pngs)
  = sum_list_with (fun data => 8 + length data)%nat pngs.
Proof.
  induction pngs as [|data pngs IH]; [done|].
  cbn [fmap list_fmap sum_list_with]. rewrite IH. f_equal.
  unfold entry_of. rewrite !length_app, length_encode.
  assert (length (icon_type (png_width data)) = 4%nat) as ->; [|lia].
  unfold icon_type. destruct (icon_types !! png_width data) as [code|] eqn:Hc; [|done].
  apply elem_of_list_to_map_2 in Hc.
  repeat (apply elem_of_cons in Hc as [[= _ ->]|Hc]; [reflexivity|]).
  by apply elem_of_nil in Hc.
Qed.

Lemma sum_encodable (pngs : list bytes) data :
  data ∈ pngs ->
  (8 + length data <= sum_list_with (fun data => 8 + length data) pngs)%nat.
Proof.
  induction pngs as [|d pngs IH]; intros Hin; [by apply elem_of_nil in Hin|].
  cbn [sum_list_with]. apply elem_of_cons in Hin as [->|Hin]; [lia|].
  specialize (IH Hin). lia.
Qed.

Lemma create_icns_kept fs png_files bufs output_file :
  holds fs png_files bufs ->
  Forall (fun data => is_png data -> encodable data) bufs ->
  writable fs output_file ->
  create_icns png_files output_file fs
  = let pngs := filter is_png bufs in
    if decide (total_size pngs < 2 ^ 32)
    then (Return tt, <[output_file := File (icns_file pngs)]> fs)
    else (Raise struct_error,
          <[output_file := File (list_byte_of_string "icns")]> fs).
Proof.
  intros Hin Hok Hout. cbv zeta.
  pose proof (read_entries fs png_files bufs Hin Hok [] 8) as Hloop.
  rewrite app_nil_l in Hloop. fold (total_size (filter is_png bufs)) in Hloop.
  destruct (decide _) as [Hfit|Hfit].
  - erewrite create_icns_written; [done|exact Hloop|done|].
    unfold total_size in *. lia.
  - erewrite create_icns_total_overflow; [done|exact Hloop|done|]. lia.
Qed.

Lemma create_icns_blocked fs png_files bufs output_file e :
  holds fs png_files bufs ->
  Forall (fun data => is_png data -> encodable data) bufs ->
  cannot_write fs output_file e ->
  create_icns png_files output_file fs = (Raise e, fs).
Proof.
  intros Hin Hok Hout.
  eapply create_icns_not_opened; [|done]. by apply read_entries.
Qed.

(** The encoder returns normally only when every PNG buffer is encodable
    and the total fits. *)
Lemma create_icns_Return fs png_files bufs output_file fs' :
  holds fs png_files bufs ->
  create_icns png_files output_file fs = (Return tt, fs') ->
  Forall encodable (filter is_png bufs)
  /\ total_size (filter is_png bufs) < 2 ^ 32
  /\ writable fs output_file
  /\ fs' = <[output_file := File (icns_file (filter is_png bufs))]> fs.
Proof.
  intros Hin Hrun.
  destruct (decide (Forall (fun data => is_png data -> encodable data) bufs))
    as [Hok|Hbad].
  - destruct (writable_cases fs output_file) as [Hout|[e Hout]].
    2: { by rewrite (create_icns_blocked _ _ bufs _ e) in Hrun. }
    rewrite (create_icns_kept _ _ bufs) in Hrun by done. cbv zeta in Hrun.
    destruct (decide _) as [Hfit|_] in Hrun; [|done].
    injection Hrun as <-. split_and!; try done.
    apply Forall_forall. intros data [Hsig Hdata]%list_elem_of_filter.
    rewrite Forall_forall in Hok. by apply Hok.
  - apply not_Forall_Exists in Hbad; [|apply _].
    erewrite (create_icns_unreadable _ _ _ bufs) in Hrun; [done|done|].
    eapply Exists_impl; [exact Hbad|]. simpl. intros data Hdata.
    destruct (decide (is_png data)); [|tauto]. split; [done|]. tauto.
Qed.

Lemma length_icon_type width : length (icon_type width) = 4%nat.
Proof.
  unfold icon_type. destruct (icon_types !! width) as [code|] eqn:Hc; [|done].
  apply elem_of_list_to_map_2 in Hc.
  repeat (apply elem_of_cons in Hc as [[= _ ->]|Hc]; [reflexivity|]).
  by apply elem_of_nil in Hc.
Qed.

Lemma length_entry_of data : length (entry_of data) = (8 + length data)%nat.
Proof.
  unfold entry_of. rewrite !length_app, length_encode, length_icon_type. lia.
Qed.

(** The [k]-th entry starts after the header and the entries before
    it. *)
Lemma icns_file_entry (pngs : list bytes) : forall (k : nat) (data : bytes),
  pngs !! k = Some data ->
  take (8 + length data)
    (drop (8 + sum_list_with (fun data => 8 + length data)%nat (take k pngs))
       (icns_file pngs))
  = entry_of data.
Proof.
  intros k data Hk. unfold icns_file.
  rewrite app_assoc.
  replace (8 + sum_list_with (fun data => 8 + length data) (take k pngs))%nat
    with (length (list_byte_of_string "icns"
                  ++ encode BigEndian 4 (total_size pngs))
          + sum_list_with (fun data => 8 + length data) (take k pngs))%nat
    by (rewrite length_app, length_encode; done).
  rewrite drop_app_add. clear -Hk. revert k data Hk.
  induction pngs as [|d pngs IH]; intros k data Hk; [done|].
  destruct k as [|k]; simpl in Hk.
  - injection Hk as ->. cbn [take sum_list_with fmap list_fmap concat].
    rewrite drop_0. rewrite <- length_entry_of. apply take_app_length.
  - cbn [take sum_list_with fmap list_fmap concat].
    rewrite <- (length_entry_of d), drop_app_add. by apply IH.
Qed.

End IcnsFacts.

(** ** The ICO writer *)

Module IcoFacts.
Import Ico IcoSpec.

Lemma read_image_fs images p fs : (read_image images p fs).2 = fs.
Proof.
  unfold read_image, read_file. unfold_monad.
  destruct (read_path fs p) as [data|]; [|done].
  destruct (has_png_signature data); [|done].
  destruct (unpack_uint32_be _); [|done].
  by destruct (unpack_uint32_be _).
Qed.

Lemma read_image_same_content images p q (fs : fsys) data :
  file_at fs p data -> file_at fs q data ->
  read_image images p fs = read_image images q fs.
Proof.
  intros Hp Hq. unfold read_image, read_file. unfold_monad.
  by rewrite (read_path_file fs p data), (read_path_file fs q data).
Qed.

Lemma read_image_skip images p (fs : fsys) data :
  file_at fs p data -> ~ is_png data ->
  read_image images p fs = (Return images, fs).
Proof.
  intros Hp Hsig.
  unfold read_image. erewrite bind_Return by by apply read_file_Some.
  by rewrite has_png_signature_false.
Qed.

Lemma read_image_png images p (fs : fsys) data :
  file_at fs p data -> is_png data -> readable data ->
  read_image images p fs = (Return (images ++ [image_of data]), fs).
Proof.
  intros Hp Hsig Hlen. unfold readable in Hlen.
  unfold read_image. erewrite bind_Return by by apply read_file_Some.
  rewrite has_png_signature_true by done. unfold_monad.
  by rewrite !unpack_uint32_be_4 by (rewrite length_slice; lia).
Qed.

Lemma read_image_unreadable images p (fs : fsys) data :
  file_at fs p data -> is_png data -> ~ readable data ->
  read_image images p fs = (Raise struct_error, fs).
Proof.
  intros Hp Hsig Hbad. unfold readable in Hbad.
  unfold read_image. erewrite bind_Return by by apply read_file_Some.
  rewrite has_png_signature_true by done. unfold_monad.
  destruct (decide (20 <= length data)%nat) as [Hlen|Hlen].
  - rewrite unpack_uint32_be_4 by (rewrite length_slice; lia).
    rewrite unpack_uint32_be_short; [done|].
    replace 4%nat with (24 - 20)%nat by done. apply length_slice_short; lia.
  - rewrite unpack_uint32_be_short; [done|].
    replace 4%nat with (20 - 16)%nat by done. apply length_slice_short; lia.
Qed.

(** The first loop: every readable PNG is kept, in input order. *)
Lemma read_images fs png_files bufs :
  holds fs png_files bufs ->
  Forall (fun data => is_png data -> readable data) bufs ->
  forall images,
    for_each png_files read_image images fs
    = (Return (images ++ (image_of <$> filter is_png bufs)), fs).
Proof.
  induction 1 as [|p data png_files bufs Hp _ IH]; intros Hok images.
  - simpl. unfold_monad. by rewrite app_nil_r.
  - apply Forall_cons in Hok as [Hdata Hok]. cbn [for_each].
    destruct (decide (is_png data)) as [Hsig|Hsig].
    + erewrite bind_Return by (apply read_image_png; [done|done|by apply Hdata]).
      rewrite IH by done. rewrite filter_cons_True by done.
      cbn [fmap list_fmap]. by rewrite <- app_assoc.
    + erewrite bind_Return by by eapply read_image_skip.
      rewrite IH by done. by rewrite filter_cons_False.
Qed.

Lemma read_images_unreadable fs png_files bufs :
  holds fs png_files bufs ->
  Exists (fun data => is_png data /\ ~ readable data) bufs ->
  forall images, for_each png_files read_image images fs = (Raise struct_error, fs).
Proof.
  induction 1 as [|p data png_files bufs Hp _ IH]; intros Hbad images.
  - by apply Exists_nil in Hbad.
  - cbn [for_each].
    destruct (decide (is_png data)) as [Hsig|Hsig].
    + destruct (decide (readable data)) as [Hok|Hok].
      * erewrite bind_Return by by apply read_image_png.
        apply IH. apply Exists_cons in Hbad as [[_ ?]|?]; done.
      * erewrite bind_Raise; [done|]. by eapply read_image_unreadable.
    + erewrite bind_Return by by eapply read_image_skip.
      apply IH. apply Exists_cons in Hbad as [[? _]|?]; done.
Qed.

Lemma read_images_kept fs png_files bufs :
  holds fs png_files bufs ->
  forall kept_files images,
    holds fs kept_files (filter is_png bufs) ->
    for_each png_files read_image images fs
    = for_each kept_files read_image images fs.
Proof.
  induction 1 as [|p data png_files bufs Hp _ IH]; intros kept_files images Hkept.
  - rewrite filter_nil in Hkept. by apply Forall2_nil_inv_r in Hkept as ->.
  - cbn [for_each]. destruct (decide (is_png data)) as [Hsig|Hsig].
    + rewrite filter_cons_True in Hkept by done.
      apply Forall2_cons_inv_r in Hkept as (q & kept' & Hq & Hkept & ->).
      cbn [for_each]. unfold_monad.
      rewrite (read_image_same_content images p q fs data) by done.
      pose proof (read_image_fs images q fs) as Hfs.
      destruct (read_image images q fs) as [[images'|e] fs']; simpl in Hfs;
        subst fs'; [|done].
      by apply IH.
    + rewrite filter_cons_False in Hkept by done.
      erewrite bind_Return by by eapply read_image_skip.
      by apply IH.
Qed.

(** [struct.pack('<BBBBHHII', w, h, 0, 0, 1, 32, size, offset)] *)
Lemma pack_dir_entry w h size off :
  0 <= w < 256 -> 0 <= h < 256 -> 0 <= size < 2 ^ 32 -> 0 <= off < 2 ^ 32 ->
  struct_pack LittleEndian
    [fmt_B; fmt_B; fmt_B; fmt_B; fmt_H; fmt_H; fmt_I; fmt_I]
    [w; h; 0; 0; 1; 32; size; off]
  = Return ([byte.of_Z w; byte.of_Z h; x00; x00; x01; x00; x20; x00]
              ++ encode LittleEndian 4 size ++ encode LittleEndian 4 off).
Proof.
  intros Hw Hh Hsize Hoff. cbn [struct_pack].
  rewrite (pack_field_fits _ fmt_B w), (pack_field_fits _ fmt_B h) by done.
  rewrite (pack_field_fits _ fmt_I size), (pack_field_fits _ fmt_I off) by done.
  by rewrite app_nil_r.
Qed.

Lemma pack_dir_entry_overflow w h size off :
  0 <= w < 256 -> 0 <= h < 256 ->
  ~ (0 <= size < 2 ^ 32 /\ 0 <= off < 2 ^ 32) ->
  struct_pack LittleEndian
    [fmt_B; fmt_B; fmt_B; fmt_B; fmt_H; fmt_H; fmt_I; fmt_I]
    [w; h; 0; 0; 1; 32; size; off]
  = Raise struct_error.
Proof.
  intros Hw Hh Hbad. cbn [struct_pack].
  rewrite (pack_field_fits _ fmt_B w), (pack_field_fits _ fmt_B h) by done.
  destruct (decide (0 <= size < 2 ^ 32)) as [Hsize|Hsize].
  - rewrite (pack_field_fits _ fmt_I size) by done.
    by rewrite (pack_field_overflow _ fmt_I off) by (simpl; lia).
  - by rewrite (pack_field_overflow _ fmt_I size) by done.
Qed.

(** [struct.pack('<HHH', 0, 1, count)] *)
Lemma pack_header count :
  0 <= count <= 65535 ->
  struct_pack LittleEndian [fmt_H; fmt_H; fmt_H] [0; 1; count]
  = Return (encode LittleEndian 2 0 ++ encode LittleEndian 2 1
              ++ encode LittleEndian 2 count).
Proof.
  intros Hcount. cbn [struct_pack].
  rewrite (pack_field_fits _ fmt_H count) by (simpl; lia).
  by rewrite app_nil_r.
Qed.

Lemma pack_header_overflow count :
  ~ 0 <= count <= 65535 ->
  struct_pack LittleEndian [fmt_H; fmt_H; fmt_H] [0; 1; count]
  = Raise struct_error.
Proof.
  intros Hcount. cbn [struct_pack].
  by rewrite (pack_field_overflow _ fmt_H count) by (simpl; lia).
Qed.

Lemma dim_byte_range v : 0 <= v -> 0 <= (if v <? 256 then v else 0) < 256.
Proof. intros Hv. destruct (Z.ltb_spec v 256); lia. Qed.

Lemma add_entry_fits entries data_block off data (fs : fsys) :
  0 <= off < 2 ^ 32 -> len data < 2 ^ 32 ->
  add_entry (entries, data_block, off) (image_of data) fs
  = (Return (entries ++ dir_entry data off, data_block ++ data, off + len data), fs).
Proof.
  intros Hoff Hsize. unfold add_entry, image_of. unfold_monad.
  rewrite pack_dir_entry; [done|..]; try done.
  - apply dim_byte_range, png_width_bound.
  - apply dim_byte_range, png_height_bound.
  - unfold len in *. lia.
Qed.

Lemma add_entry_overflow entries data_block off data (fs : fsys) :
  0 <= off -> ~ (len data < 2 ^ 32 /\ off < 2 ^ 32) ->
  add_entry (entries, data_block, off) (image_of data) fs
  = (Raise struct_error, fs).
Proof.
  intros Hoff Hbad. unfold add_entry, image_of. unfold_monad.
  rewrite pack_dir_entry_overflow; [done|..].
  - apply dim_byte_range, png_width_bound.
  - apply dim_byte_range, png_height_bound.
  - lia.
Qed.

(** The second loop builds the directory and the data block side by
    side. *)
Lemma add_entries (fs : fsys) pngs : forall off entries data_block,
  0 <= off -> entries_fit off pngs ->
  for_each (image_of <$> pngs) add_entry (entries, data_block, off) fs
  = (Return (entries ++ concat (directory off pngs),
             data_block ++ concat pngs,
             off + Z.of_nat (sum_list_with length pngs)), fs).
Proof.
  induction pngs as [|data pngs IH]; intros off entries data_block Hoff Hfit.
  - simpl. unfold_monad. by rewrite !app_nil_r, Z.add_0_r.
  - destruct Hfit as [[Hsize Hlt] Hfit]. cbn [fmap list_fmap for_each].
    erewrite bind_Return by by apply add_entry_fits.
    rewrite IH by (done || unfold len; lia).
    cbn [directory concat sum_list_with]. rewrite <- !app_assoc.
    do 3 f_equal. unfold len. lia.
Qed.

Lemma add_entries_overflow (fs : fsys) pngs : forall off st,
  0 <= off -> ~ entries_fit off pngs ->
  for_each (image_of <$> pngs) add_entry (st, off) fs = (Raise struct_error, fs).
Proof.
  induction pngs as [|data pngs IH]; intros off [entries data_block] Hoff Hbad.
  - by destruct Hbad.
  - cbn [fmap list_fmap for_each]. cbn [entries_fit] in Hbad.
    destruct (decide (len data < 2 ^ 32 /\ off < 2 ^ 32)) as [[Hsize Hlt]|Hno].
    + erewrite bind_Return by by apply add_entry_fits.
      apply IH; [unfold len; lia|]. intros Hfit. by apply Hbad.
    + erewrite bind_Raise; [done|]. by apply add_entry_overflow.
Qed.

Lemma no_png_readable (bufs : list bytes) :
  filter is_png bufs = [] -> Forall (fun data => is_png data -> readable data) bufs.
Proof.
  intros Hnone. apply Forall_forall. intros data Hin Hsig.
  assert (data ∈ filter is_png bufs) as Hkept by by apply list_elem_of_filter.
  rewrite Hnone in Hkept. by apply elem_of_nil in Hkept.
Qed.

Lemma create_ico_nothing fs png_files bufs output_file :
  holds fs png_files bufs -> filter is_png bufs = [] ->
  create_ico png_files output_file fs = (Return tt, fs).
Proof.
  intros Hin Hnone. unfold create_ico.
  erewrite bind_Return by (eapply read_images; [done|by apply no_png_readable]).
  by rewrite Hnone.
Qed.

Lemma create_ico_unreadable fs png_files bufs output_file :
  holds fs png_files bufs ->
  Exists (fun data => is_png data /\ ~ readable data) bufs ->
  create_ico png_files output_file fs = (Raise struct_error, fs).
Proof.
  intros Hin Hbad. unfold create_ico.
  erewrite bind_Raise; [done|]. by eapply read_images_unreadable.
Qed.

(** What happens once the first loop has kept the buffers [pngs]. *)
Lemma create_ico_packed fs png_files bufs output_file :
  holds fs png_files bufs ->
  Forall (fun data => is_png data -> readable data) bufs ->
  filter is_png bufs <> [] ->
  create_ico png_files output_file fs
  = let pngs := filter is_png bufs in
    if decide (Z.of_nat (length pngs) <= 65535
               /\ entries_fit (data_start (length pngs)) pngs)
    then (open_wb output_file;;
          write output_file (ico_header (length pngs));;
          write output_file (concat (directory (data_start (length pngs)) pngs));;
          write output_file (concat pngs)) fs
    else (Raise struct_error, fs).
Proof.
  intros Hin Hok Hsome. unfold create_ico.
  erewrite bind_Return by by eapply read_images.
  rewrite app_nil_l. set (pngs := filter is_png bufs) in *.
  destruct (image_of <$> pngs) as [|image images] eqn:Himages.
  { apply fmap_nil_inv in Himages. done. }
  rewrite <- Himages. clear image images Himages.
  rewrite length_fmap. unfold_monad. cbv zeta.
  destruct (decide (Z.of_nat (length pngs) <= 65535)) as [Hcount|Hcount].
  - rewrite pack_header by lia.
    destruct (decide (entries_fit (data_start (length pngs)) pngs)) as [Hfit|Hfit].
    + rewrite decide_True by done. unfold data_start in *.
      rewrite add_entries by (done || lia).
      by rewrite !app_nil_l.
    + rewrite decide_False by tauto. unfold data_start in *.
      by rewrite add_entries_overflow by (done || lia).
  - rewrite decide_False by tauto.
    by rewrite pack_header_overflow by lia.
Qed.

Lemma create_ico_kept fs png_files bufs output_file :
  holds fs png_files bufs ->
  Forall (fun data => is_png data -> readable data) bufs ->
  filter is_png bufs <> [] ->
  writable fs output_file ->
  create_ico png_files output_file fs
  = let pngs := filter is_png bufs in
    if decide (Z.of_nat (length pngs) <= 65535
               /\ entries_fit (data_start (length pngs)) pngs)
    then (Return tt, <[output_file := File (ico_file pngs)]> fs)
    else (Raise struct_error, fs).
Proof.
  intros Hin Hok Hsome Hout. rewrite (create_ico_packed _ _ bufs) by done.
  cbv zeta. destruct (decide _) as [_|_]; [|done]. unfold_monad.
  rewrite open_wb_writable by done.
  rewrite !write_insert. unfold ico_file. by rewrite !app_nil_l, <- !app_assoc.
Qed.

(** The open comes last: when the output file cannot be opened, the
    run has already passed every check of [struct.pack]. *)
Lemma create_ico_blocked fs png_files bufs output_file e :
  holds fs png_files bufs ->
  Forall (fun data => is_png data -> readable data) bufs ->
  filter is_png bufs <> [] ->
  cannot_write fs output_file e ->
  create_ico png_files output_file fs
  = let pngs := filter is_png bufs in
    if decide (Z.of_nat (length pngs) <= 65535
               /\ entries_fit (data_start (length pngs)) pngs)
    then (Raise e, fs)
    else (Raise struct_error, fs).
Proof.
  intros Hin Hok Hsome Hout. rewrite (create_ico_packed _ _ bufs) by done.
  cbv zeta. destruct (decide _) as [_|_]; [|done]. unfold_monad.
  by rewrite (open_wb_cannot _ _ e).
Qed.

(** The encoder returns normally only when every field fits. *)
Lemma create_ico_Return fs png_files bufs output_file fs' :
  holds fs png_files bufs ->
  create_ico png_files output_file fs = (Return tt, fs') ->
  filter is_png bufs <> [] ->
  Forall readable (filter is_png bufs)
  /\ Z.of_nat (length (filter is_png bufs)) <= 65535
  /\ entries_fit (data_start (length (filter is_png bufs))) (filter is_png bufs)
  /\ writable fs output_file
  /\ fs' = <[output_file := File (ico_file (filter is_png bufs))]> fs.
Proof.
  intros Hin Hrun Hsome.
  destruct (decide (Forall (fun data => is_png data -> readable data) bufs))
    as [Hok|Hbad].
  - destruct (writable_cases fs output_file) as [Hout|[e Hout]].
    2: { rewrite (create_ico_blocked _ _ bufs _ e) in Hrun by done.
         cbv zeta in Hrun. by destruct (decide _) in Hrun. }
    rewrite (create_ico_kept _ _ bufs) in Hrun by done. cbv zeta in Hrun.
    destruct (decide _) as [[Hcount Hfit]|_] in Hrun; [|done].
    injection Hrun as <-. split_and!; try done.
    apply Forall_forall. intros data [Hsig Hdata]%list_elem_of_filter.
    rewrite Forall_forall in Hok. by apply Hok.
  - apply not_Forall_Exists in Hbad; [|apply _].
    erewrite (create_ico_unreadable _ _ bufs) in Hrun; [done|done|].
    eapply Exists_impl; [exact Hbad|]. simpl. intros data Hdata.
    destruct (decide (is_png data)); [|tauto]. split; [done|]. tauto.
Qed.

Lemma length_dir_entry data off : length (dir_entry data off) = 16%nat.
Proof. unfold dir_entry. by rewrite !length_app, !length_encode. Qed.

Lemma length_directory pngs : forall off,
  length (directory off pngs) = length pngs.
Proof. induction pngs as [|data pngs IH]; intros off; simpl; by rewrite ?IH. Qed.

Lemma length_concat_directory pngs : forall off,
  length (concat (directory off pngs)) = (16 * length pngs)%nat.
Proof.
  induction pngs as [|data pngs IH]; intros off; [done|].
  cbn [directory concat]. rewrite length_app, length_dir_entry, IH. simpl. lia.
Qed.

(** The [k]-th directory entry points past the payloads before it. *)
Lemma directory_lookup pngs : forall off k data,
  pngs !! k = Some data ->
  directory off pngs !! k
  = Some (dir_entry data (off + Z.of_nat (sum_list_with length (take k pngs)))).
Proof.
  induction pngs as [|d pngs IH]; intros off k data Hk; [done|].
  destruct k as [|k]; simpl in *.
  - injection Hk as ->. by rewrite Z.add_0_r.
  - rewrite (IH _ _ _ Hk). do 2 f_equal. unfold len. lia.
Qed.

(** The [k]-th payload sits in the data block after the payloads before
    it. *)
Lemma payload_lookup (pngs : list bytes) : forall k data,
  pngs !! k = Some data ->
  take (length data) (drop (sum_list_with length (take k pngs)) (concat pngs))
  = data.
Proof.
  induction pngs as [|d pngs IH]; intros k data Hk; [done|].
  destruct k as [|k]; simpl in *.
  - injection Hk as ->. by rewrite drop_0, take_app_length.
  - rewrite drop_app_add. by apply IH.
Qed.

Lemma entries_fit_lookup pngs : forall off k data,
  0 <= off -> entries_fit off pngs -> pngs !! k = Some data ->
  len data < 2 ^ 32
  /\ off + Z.of_nat (sum_list_with length (take k pngs)) < 2 ^ 32.
Proof.
  induction pngs as [|d pngs IH]; intros off k data Hoff Hfit Hk; [done|].
  destruct Hfit as [[Hsize Hlt] Hfit]. destruct k as [|k]; simpl in *.
  - injection Hk as ->. lia.
  - destruct (IH (off + len d) k data) as [? ?]; [unfold len; lia|done|done|].
    unfold len in *. split; [done|lia].
Qed.

(** The converse of [entries_fit_lookup]. *)
Lemma entries_fit_of_lookup pngs : forall off,
  (forall k data,
     pngs !! k = Some data ->
     len data < 2 ^ 32
     /\ off + Z.of_nat (sum_list_with length (take k pngs)) < 2 ^ 32) ->
  entries_fit off pngs.
Proof.
  induction pngs as [|d pngs IH]; intros off Hall; [done|].
  cbn [entries_fit]. split.
  - destruct (Hall 0%nat d eq_refl) as [Hsize Hoff]. simpl in Hoff. lia.
  - apply IH. intros k data Hk.
    destruct (Hall (S k) data Hk) as [Hsize Hoff]. split; [done|].
    cbn [take sum_list_with] in Hoff. unfold len. lia.
Qed.

Lemma length_ico_header n : length (ico_header n) = 6%nat.
Proof. unfold ico_header. by rewrite !length_app, !length_encode. Qed.

Lemma directory_records pngs : forall off,
  Forall (fun r => length r = 16%nat) (directory off pngs).
Proof.
  induction pngs as [|data pngs IH]; intros off; cbn [directory].
  - apply Forall_nil_2.
  - apply Forall_cons_2; [apply length_dir_entry|apply IH].
Qed.

Lemma length_ico_file pngs :
  length (ico_file pngs)
  = (6 + 16 * length pngs + sum_list_with length pngs)%nat.
Proof.
  assert (length (concat pngs) = sum_list_with length pngs) as Hdata.
  { induction pngs as [|data pngs IH]; [done|].
    cbn [concat sum_list_with]. by rewrite length_app, IH. }
  unfold ico_file.
  rewrite !length_app, length_ico_header, length_concat_directory. lia.
Qed.

(** The three 16-bit fields of the header. *)
Lemma ico_file_header pngs :
  slice 0 2 (ico_file pngs) = encode LittleEndian 2 0
  /\ slice 2 4 (ico_file pngs) = encode LittleEndian 2 1
  /\ slice 4 6 (ico_file pngs) = encode LittleEndian 2 (Z.of_nat (length pngs)).
Proof.
  unfold ico_file, ico_header. split_and!.
  - rewrite <- !app_assoc. by apply (slice_app_middle []).
  - rewrite <- !app_assoc. by apply slice_app_middle.
  - rewrite <- !app_assoc.
    rewrite (app_assoc (encode LittleEndian 2 0)). by apply slice_app_middle.
Qed.

(** The [k]-th 16-byte record after the header is the directory entry
    of the [k]-th image. *)
Lemma ico_file_entry pngs k data :
  pngs !! k = Some data ->
  slice (6 + 16 * k) (6 + 16 * k + 16) (ico_file pngs)
  = dir_entry data
      (data_start (length pngs)
       + Z.of_nat (sum_list_with length (take k pngs))).
Proof.
  intros Hk. pose proof (lookup_lt_Some _ _ _ Hk) as Hlt.
  unfold ico_file, slice.
  replace (6 + 16 * k + 16 - (6 + 16 * k))%nat with 16%nat by lia.
  replace (6 + 16 * k)%nat with (length (ico_header (length pngs)) + 16 * k)%nat
    by (rewrite length_ico_header; lia).
  rewrite drop_app_add.
  rewrite take_drop_app_l by (rewrite length_concat_directory; lia).
  apply record_lookup; [apply directory_records|].
  by apply directory_lookup.
Qed.

(** The payload of the [k]-th image starts where its entry says. *)
Lemma ico_file_payload pngs k data :
  pngs !! k = Some data ->
  take (length data)
    (drop (6 + 16 * length pngs + sum_list_with length (take k pngs))
       (ico_file pngs))
  = data.
Proof.
  intros Hk. unfold ico_file.
  replace (6 + 16 * length pngs + sum_list_with length (take k pngs))%nat
    with (length (ico_header (length pngs))
          + (length (concat (directory (data_start (length pngs)) pngs))
             + sum_list_with length (take k pngs)))%nat
    by (rewrite length_ico_header, length_concat_directory; lia).
  rewrite !drop_app_add. by apply payload_lookup.
Qed.

(** The fields of one directory entry. *)
Lemma dir_entry_fields data off :
  slice 8 12 (dir_entry data off) = encode LittleEndian 4 (len data)
  /\ slice 12 16 (dir_entry data off) = encode LittleEndian 4 off.
Proof.
  unfold dir_entry. split.
  - by apply slice_app_middle.
  - rewrite app_assoc.
    pose proof (slice_app_middle
                  ([byte.of_Z (if png_width data <? 256 then png_width data else 0);
                    byte.of_Z (if png_height data <? 256 then png_height data else 0);
                    x00; x00; x01; x00; x20; x00]
                   ++ encode LittleEndian 4 (len data))
                  (encode LittleEndian 4 off) [] 12 16) as Hslice.
    rewrite app_nil_r in Hslice. apply Hslice.
    + by rewrite length_app, length_encode.
    + by rewrite length_encode.
Qed.

Lemma dim_byte_unsigned v :
  0 <= v ->
  byte.unsigned (byte.of_Z (if v <? 256 then v else 0))
  = if 256 <=? v then 0 else v.
Proof.
  intros Hv. rewrite byte.unsigned_of_Z. unfold byte.wrap.
  destruct (Z.ltb_spec v 256), (Z.leb_spec 256 v); try lia.
  - apply Z.mod_small. lia.
  - done.
Qed.

End IcoFacts.

(** * The claims *)

Section Claims.
Import Icns Ico IcnsSpec IcoSpec IcnsFacts IcoFacts.

(** C1, as stated, fails on three kinds of input.  A file that holds
    the PNG signature and nothing else passes the signature test, and
    the width read at offset 16 then raises [struct.error]; no ICNS file
    is written.  With 256 PNG buffers of 16 MiB each the total length
    does not fit its 32-bit field: [struct.pack] raises after the magic
    has been written, and the file is left with these four bytes.  And
    an output file in a directory that does not exist cannot be opened:
    [open] raises and nothing is emitted. *)
Lemma create_icns_unencodable :
  (is_png PNG_SIGNATURE
   /\ create_icns ["cut.png"%string] "icon.icns"%string cut_dir
      = (Raise struct_error, cut_dir))
  /\ (is_png png_16mib
      /\ len png_16mib = 2 ^ 24
      /\ create_icns (replicate 256 "big.png"%string) "icon.icns"%string big_dir
         = (Raise struct_error,
            <["icon.icns"%string := File (list_byte_of_string "icns")]> big_dir))
  /\ (is_png (png_stub 32 32 [])
      /\ create_icns ["32x32.png"%string] "nodir/icon.icns"%string icon_dir
         = (Raise (FileNotFoundError "nodir/icon.icns"), icon_dir)).
Proof.
  split_and!; [reflexivity| |reflexivity| | |reflexivity|].
  - vm_compute. reflexivity.
  - unfold len. rewrite length_png_16mib. lia.
  - rewrite (create_icns_kept _ _ (replicate 256 png_16mib)).
    + cbv zeta. rewrite (filter_is_png_replicate png_16mib) by done.
      rewrite decide_False; [done|]. unfold total_size.
      rewrite sum_list_with_replicate, length_png_16mib. lia.
    + apply holds_replicate.
      split; [by apply reachable_top|apply lookup_singleton_eq].
    + apply Forall_replicate. intros _. split.
      * rewrite length_png_16mib. lia.
      * unfold len. rewrite length_png_16mib. lia.
    + split; [by apply reachable_top|].
      unfold big_dir. by rewrite lookup_singleton_ne.
  - vm_compute. reflexivity.
Qed.

(** C1, amended: when every input buffer that starts with the PNG
    signature has at least 20 bytes, the total length fits 32 bits and
    the output file can be opened for writing, the ICNS encoder writes
    the magic [icns], a 4-byte big-endian total equal to 8 plus the sum
    of the entry lengths, and then one entry per PNG buffer in input
    order; each entry is a 4-byte type code, a 4-byte big-endian length
    equal to 8 plus the payload length, and the payload. *)
Theorem create_icns_layout fs png_files bufs output_file :
  holds fs png_files bufs ->
  Forall (fun data => is_png data -> (20 <= length data)%nat) bufs ->
  8 + Z.of_nat (sum_list_with (fun data => 8 + length data)%nat
                  (filter is_png bufs)) < 2 ^ 32 ->
  writable fs output_file ->
  exists (total_field : bytes) (entries : list bytes),
    create_icns png_files output_file fs
    = (Return tt,
       <[output_file := File (list_byte_of_string "icns" ++ total_field
                                ++ concat entries)]> fs)
    /\ length total_field = 4%nat
    /\ decode BigEndian total_field
       = 8 + Z.of_nat (sum_list_with length entries)
    /\ Forall2 (fun (entry data : bytes) =>
                  exists code size_field : bytes,
                    entry = code ++ size_field ++ data
                    /\ code = icon_type (png_width data)
                    /\ length code = 4%nat
                    /\ length size_field = 4%nat
                    /\ decode BigEndian size_field = 8 + len data)
         entries (filter is_png bufs).
Proof.
  intros Hin Hlen Htotal Hout.
  fold (total_size (filter is_png bufs)) in Htotal.
  assert (Forall (fun data => is_png data -> encodable data) bufs) as Hok.
  { apply Forall_forall. intros data Hdata Hsig. split.
    - rewrite Forall_forall in Hlen. by apply Hlen.
    - assert (data ∈ filter is_png bufs) as Hkept by by apply list_elem_of_filter.
      apply sum_encodable in Hkept. unfold total_size, len in *. lia. }
  exists (encode BigEndian 4 (total_size (filter is_png bufs))),
         (entry_of <$> filter is_png bufs).
  split_and!.
  - rewrite (create_icns_kept _ _ bufs) by done. cbv zeta.
    by rewrite decide_True by done.
  - apply length_encode.
  - rewrite decode_encode by (unfold total_size in *; lia).
    by rewrite sum_entry_lengths.
  - apply Forall2_fmap_l, Forall_Forall2_diag, Forall_forall.
    intros data [Hsig Hdata]%list_elem_of_filter.
    rewrite Forall_forall in Hok. destruct (Hok data Hdata Hsig) as [_ Hsize].
    exists (icon_type (png_width data)), (encode BigEndian 4 (8 + len data)).
    split_and!; [done|done|apply length_icon_type|apply length_encode|].
    apply decode_encode. unfold len in *. lia.
Qed.

Lemma create_icns_layout_witness :
  exists (total_field : bytes) (entries : list bytes),
    create_icns ["32x32.png"; "icon.svg"; "128x128.png"; "128x128@2x.png"]%string
      "icon.icns"%string icon_dir
    = (Return tt,
       <["icon.icns"%string := File (list_byte_of_string "icns" ++ total_field
                                       ++ concat entries)]> icon_dir)
    /\ length total_field = 4%nat
    /\ decode BigEndian total_field
       = 8 + Z.of_nat (sum_list_with length entries)
    /\ Forall2 (fun (entry data : bytes) =>
                  exists code size_field : bytes,
                    entry = code ++ size_field ++ data
                    /\ code = icon_type (png_width data)
                    /\ length code = 4%nat
                    /\ length size_field = 4%nat
                    /\ decode BigEndian size_field = 8 + len data)
         entries
         (filter is_png [png_stub 32 32 []; list_byte_of_string "<svg/>";
                         png_stub 128 128 []; png_stub 256 256 [x01]]).
Proof.
  apply create_icns_layout.
  - evaluate.
  - repeat first [apply Forall_nil_2 | apply Forall_cons_2];
      intros Hsig; first [vm_compute; lia | vm_compute in Hsig; discriminate Hsig].
  - vm_compute. reflexivity.
  - evaluate.
Defined.

(** C2, as stated, fails on four kinds of input.  A file cut off right
    after the PNG signature is kept by the filter, and the reads at
    offsets 16 and 20 then raise.  65536 complete PNG images do not fit
    the 16-bit count field.  With 257 images of 16 MiB each, the payload
    of the last one would start at offset [2 ^ 32 + 4118], which does
    not fit the 32-bit offset field.  Each time [struct.pack] or
    [struct.unpack] raises and nothing is written.  And an output file
    in a directory that does not exist cannot be opened: [open] raises
    and nothing is written either. *)
Lemma create_ico_unencodable :
  (is_png PNG_SIGNATURE
   /\ create_ico ["cut.png"%string] "icon.ico"%string cut_dir
      = (Raise struct_error, cut_dir))
  /\ (is_png png_1x1
      /\ create_ico (replicate (Z.to_nat 65536) "pixel.png"%string)
           "icon.ico"%string pixel_dir
         = (Raise struct_error, pixel_dir))
  /\ (is_png png_16mib
      /\ len png_16mib = 2 ^ 24
      /\ create_ico (replicate 257 "big.png"%string) "icon.ico"%string big_dir
         = (Raise struct_error, big_dir))
  /\ (is_png (png_stub 32 32 [])
      /\ create_ico ["32x32.png"%string] "nodir/icon.ico"%string icon_dir
         = (Raise (FileNotFoundError "nodir/icon.ico"), icon_dir)).
Proof.
  split_and!; [reflexivity| |reflexivity| |reflexivity| | |reflexivity|].
  - vm_compute. reflexivity.
  - rewrite (create_ico_kept _ _ (replicate (Z.to_nat 65536) png_1x1)).
    + cbv zeta. rewrite (filter_is_png_replicate png_1x1) by done.
      rewrite length_replicate.
      rewrite decide_False; [done|]. intros [Hcount _]. lia.
    + apply holds_replicate. evaluate.
    + apply Forall_replicate. intros _. unfold readable. simpl. lia.
    + rewrite filter_is_png_replicate by done.
      intros Hnil. apply (f_equal length) in Hnil.
      rewrite length_replicate in Hnil. simpl in Hnil. lia.
    + evaluate.
  - unfold len. rewrite length_png_16mib. lia.
  - rewrite (create_ico_kept _ _ (replicate 257 png_16mib)).
    + cbv zeta. rewrite (filter_is_png_replicate png_16mib) by done.
      rewrite length_replicate.
      rewrite decide_False; [done|]. intros [_ Hfit].
      destruct (entries_fit_lookup (replicate 257 png_16mib) (data_start 257)
                  256 png_16mib) as [_ Hoff]; [done|done|done|].
      rewrite take_replicate, sum_list_with_replicate, length_png_16mib in Hoff.
      unfold data_start in Hoff. lia.
    + apply holds_replicate.
      split; [by apply reachable_top|apply lookup_singleton_eq].
    + apply Forall_replicate. intros _. unfold readable.
      rewrite length_png_16mib. lia.
    + rewrite filter_is_png_replicate by done. done.
    + split; [by apply reachable_top|].
      unfold big_dir. by rewrite lookup_singleton_ne.
  - vm_compute. reflexivity.
Qed.

(** C2, amended: when the input yields [N] PNG buffers with
    [1 <= N <= 65535], each at least 24 bytes long, every payload length
    and every payload offset stays below [2 ^ 32], and the output file
    can be opened for writing, the ICO encoder writes a file whose
    header holds reserved 0, type 1 and count [N]; the [k]-th directory
    entry declares the length of the [k]-th payload and the offset
    [6 + 16 N] plus the lengths of the payloads before it; and the file
    holds the [k]-th payload at that offset. *)
Theorem create_ico_layout fs png_files bufs output_file pngs :
  holds fs png_files bufs ->
  pngs = filter is_png bufs ->
  Forall (fun data => (24 <= length data)%nat) pngs ->
  1 <= Z.of_nat (length pngs) <= 65535 ->
  (forall (k : nat) (data : bytes),
     pngs !! k = Some data ->
     len data < 2 ^ 32
     /\ 6 + 16 * Z.of_nat (length pngs)
        + Z.of_nat (sum_list_with length (take k pngs)) < 2 ^ 32) ->
  writable fs output_file ->
  exists file : bytes,
    create_ico png_files output_file fs
    = (Return tt, <[output_file := File file]> fs)
    /\ decode LittleEndian (slice 0 2 file) = 0
    /\ decode LittleEndian (slice 2 4 file) = 1
    /\ decode LittleEndian (slice 4 6 file) = Z.of_nat (length pngs)
    /\ forall (k : nat) (data : bytes),
         pngs !! k = Some data ->
         decode LittleEndian
           (slice 8 12 (slice (6 + 16 * k) (6 + 16 * k + 16) file))
         = len data
         /\ decode LittleEndian
              (slice 12 16 (slice (6 + 16 * k) (6 + 16 * k + 16) file))
            = Z.of_nat (6 + 16 * length pngs
                        + sum_list_with length (take k pngs))
         /\ take (length data)
              (drop (6 + 16 * length pngs + sum_list_with length (take k pngs))
                 file)
            = data.
Proof.
  intros Hin -> Hlen Hcount Hfields Hout. set (pngs := filter is_png bufs) in *.
  assert (entries_fit (data_start (length pngs)) pngs) as Hfit.
  { apply entries_fit_of_lookup. intros k data Hk.
    destruct (Hfields k data Hk) as [? ?]. unfold data_start. split; [done|lia]. }
  exists (ico_file pngs).
  destruct (ico_file_header pngs) as (Hreserved & Htype & Hn).
  split_and!.
  - rewrite (create_ico_kept _ _ bufs); [|done| | |done].
    + cbv zeta. fold pngs. rewrite decide_True; [done|]. split; [lia|done].
    + apply Forall_forall. intros data Hdata Hsig.
      rewrite Forall_forall in Hlen. apply Hlen. by apply list_elem_of_filter.
    + fold pngs. intros Hnil. rewrite Hnil in Hcount. simpl in Hcount. lia.
  - by rewrite Hreserved.
  - by rewrite Htype.
  - rewrite Hn. apply decode_encode. simpl. lia.
  - intros k data Hk. rewrite (ico_file_entry pngs k data) by done.
    destruct (dir_entry_fields data
                (data_start (length pngs)
                 + Z.of_nat (sum_list_with length (take k pngs))))
      as [Hsize Hoff].
    destruct (entries_fit_lookup pngs (data_start (length pngs)) k data)
      as [Hdata Hstart]; [unfold data_start; lia|done|done|].
    rewrite Hsize, Hoff. split_and!.
    + apply decode_encode. unfold len in *. simpl. lia.
    + rewrite decode_encode by (unfold data_start in *; simpl; lia).
      unfold data_start. lia.
    + by apply ico_file_payload.
Qed.

Lemma create_ico_layout_witness :
  exists file : bytes,
    create_ico ["32x32.png"; "icon.svg"; "128x128@2x.png"]%string
      "icon.ico"%string icon_dir
    = (Return tt, <["icon.ico"%string := File file]> icon_dir)
    /\ decode LittleEndian (slice 4 6 file) = 2
    /\ decode LittleEndian (slice 12 16 (slice 22 38 file)) = 62
    /\ take 25 (drop 62 file) = png_stub 256 256 [x01].
Proof.
  destruct (create_ico_layout icon_dir
              ["32x32.png"; "icon.svg"; "128x128@2x.png"]%string
              [png_stub 32 32 []; list_byte_of_string "<svg/>";
               png_stub 256 256 [x01]]
              "icon.ico"%string
              [png_stub 32 32 []; png_stub 256 256 [x01]])
    as (file & Hrun & _ & _ & Hn & Hentries).
  - evaluate.
  - reflexivity.
  - repeat first [apply Forall_nil_2 | apply Forall_cons_2]; vm_compute; lia.
  - simpl. lia.
  - intros [|[|k]] data Hk; try discriminate Hk;
      injection Hk as <-; vm_compute; split; reflexivity.
  - evaluate.
  - exists file.
    destruct (Hentries 1%nat (png_stub 256 256 [x01]) eq_refl) as (_ & Hoff & Hdata).
    split_and!; [exact Hrun|exact Hn|exact Hoff|exact Hdata].
Defined.

(** C3, as stated, fails: with no input files the ICNS encoder does not
    fail; it writes the 8-byte file made of the magic and the total 8. *)
Lemma create_icns_no_files :
  create_icns [] "icon.icns"%string ∅
  = (Return tt,
     {[ "icon.icns"%string :=
          File (list_byte_of_string "icns" ++ [x00; x00; x00; x08]) ]}).
Proof. vm_compute. reflexivity. Qed.

(** C3, amended: an empty input sequence is no error of its own.  When
    the output file can be opened for writing, the ICNS encoder returns
    normally and writes a file of exactly the magic [icns] followed by
    the big-endian total length 8; when it cannot, the encoder raises
    what [open] raises and writes nothing. *)
Theorem create_icns_empty_input (fs : fsys) output_file :
  (writable fs output_file ->
   create_icns [] output_file fs
   = (Return tt,
      <[output_file :=
          File (list_byte_of_string "icns" ++ [x00; x00; x00; x08])]> fs))
  /\ (forall e,
        cannot_write fs output_file e ->
        create_icns [] output_file fs = (Raise e, fs)).
Proof.
  split.
  - intros Hout. erewrite create_icns_written; [|done|done|done].
    by rewrite app_nil_r.
  - intros e Hout. by eapply create_icns_not_opened.
Qed.

Lemma create_icns_empty_input_witness :
  create_icns [] "build/icon.icns"%string icon_dir
  = (Return tt,
     <["build/icon.icns"%string :=
         File (list_byte_of_string "icns" ++ [x00; x00; x00; x08])]> icon_dir)
  /\ create_icns [] "nodir/icon.icns"%string icon_dir
     = (Raise (FileNotFoundError "nodir/icon.icns"), icon_dir)
  /\ create_icns [] "build"%string icon_dir
     = (Raise (IsADirectoryError "build"), icon_dir)
  /\ create_icns [] "icon.svg/icon.icns"%string icon_dir
     = (Raise (NotADirectoryError "icon.svg/icon.icns"), icon_dir).
Proof.
  split_and!.
  - apply (create_icns_empty_input icon_dir). evaluate.
  - apply (create_icns_empty_input icon_dir).
    apply cannot_write_unreachable.
    by apply (unreachable_missing _ _ [] "nodir"%string []).
  - apply (create_icns_empty_input icon_dir).
    apply cannot_write_directory; [evaluate|reflexivity].
  - apply (create_icns_empty_input icon_dir).
    apply cannot_write_unreachable.
    by apply (unreachable_file _ _ [] "icon.svg"%string []
                (list_byte_of_string "<svg/>")).
Defined.

(** C4: the type code depends on the width alone: the seven table
    entries and [ic09] for every other width.  In a run, the entry of
    every PNG buffer starts with the code of the width the buffer
    declares, and no width makes the run fail: the run goes through
    whenever the buffers have the 20 bytes the width is read from, the
    total fits 32 bits and the output file can be opened. *)
Theorem icon_type_of_width :
  icon_type 16 = list_byte_of_string "icp4"
  /\ icon_type 32 = list_byte_of_string "icp5"
  /\ icon_type 48 = list_byte_of_string "icp6"
  /\ icon_type 128 = list_byte_of_string "ic07"
  /\ icon_type 256 = list_byte_of_string "ic08"
  /\ icon_type 512 = list_byte_of_string "ic09"
  /\ icon_type 1024 = list_byte_of_string "ic10"
  /\ (forall width,
        width ∉ [16; 32; 48; 128; 256; 512; 1024] ->
        icon_type width = list_byte_of_string "ic09")
  /\ (forall (fs : fsys) png_files bufs output_file,
        holds fs png_files bufs ->
        Forall (fun data => is_png data -> (20 <= length data)%nat) bufs ->
        8 + Z.of_nat (sum_list_with (fun data => 8 + length data)%nat
                        (filter is_png bufs)) < 2 ^ 32 ->
        writable fs output_file ->
        exists file : bytes,
          create_icns png_files output_file fs
          = (Return tt, <[output_file := File file]> fs)
          /\ forall (k : nat) (data : bytes),
               filter is_png bufs !! k = Some data ->
               exists start : nat,
                 start
                 = (8 + sum_list_with (fun data => 8 + length data)
                          (take k (filter is_png bufs)))%nat
                 /\ slice start (start + 4) file = icon_type (png_width data)).
Proof.
  split_and!; try reflexivity.
  - intros width Hwidth. unfold icon_type, icon_types.
    rewrite (not_elem_of_list_to_map_1 _ width); [done|]. exact Hwidth.
  - intros fs png_files bufs output_file Hin Hlen Htotal Hout.
    fold (total_size (filter is_png bufs)) in Htotal.
    assert (Forall (fun data => is_png data -> encodable data) bufs) as Hok.
    { apply Forall_forall. intros data Hdata Hsig. split.
      - rewrite Forall_forall in Hlen. by apply Hlen.
      - assert (data ∈ filter is_png bufs) as Hkept
          by by apply list_elem_of_filter.
        apply sum_encodable in Hkept. unfold total_size, len in *. lia. }
    exists (icns_file (filter is_png bufs)). split.
    + rewrite (create_icns_kept _ _ bufs) by done. cbv zeta.
      by rewrite decide_True by done.
    + intros k data Hk. eexists. split; [reflexivity|].
      pose proof (icns_file_entry _ k data Hk) as Hentry.
      unfold slice. rewrite Nat.add_sub'.
      apply (f_equal (take 4)) in Hentry.
      rewrite take_take, Nat.min_l in Hentry by lia. rewrite Hentry.
      unfold entry_of.
      by rewrite take_app_length' by (symmetry; apply length_icon_type).
Qed.

Lemma icon_type_of_width_witness :
  icon_type 2000 = list_byte_of_string "ic09"
  /\ exists file : bytes,
       create_icns ["32x32.png"; "wide.png"; "icon.svg"; "128x128.png"]%string
         "icon.icns"%string
         (<["wide.png"%string := File (png_stub 2000 2000 [])]> icon_dir)
       = (Return tt,
          <["icon.icns"%string := File file]>
            (<["wide.png"%string := File (png_stub 2000 2000 [])]> icon_dir))
       /\ slice 8 12 file = list_byte_of_string "icp5"
       /\ slice 40 44 file = list_byte_of_string "ic09"
       /\ slice 72 76 file = list_byte_of_string "ic07".
Proof.
  destruct icon_type_of_width as (_ & _ & _ & _ & _ & _ & _ & Hother & Hrun).
  split.
  - apply Hother. vm_compute. intros Hin.
    repeat (apply elem_of_cons in Hin as [Hin|Hin]; [discriminate Hin|]).
    by apply elem_of_nil in Hin.
  - destruct (Hrun (<["wide.png"%string := File (png_stub 2000 2000 [])]> icon_dir)
                ["32x32.png"; "wide.png"; "icon.svg"; "128x128.png"]%string
                [png_stub 32 32 []; png_stub 2000 2000 [];
                 list_byte_of_string "<svg/>"; png_stub 128 128 []]
                "icon.icns"%string)
      as (file & Hfile & Hcodes).
    + evaluate.
    + repeat first [apply Forall_nil_2 | apply Forall_cons_2];
        intros Hsig; first [vm_compute; lia | vm_compute in Hsig; discriminate Hsig].
    + vm_compute. reflexivity.
    + evaluate.
    + exists file. split; [exact Hfile|].
      destruct (Hcodes 0%nat (png_stub 32 32 []) eq_refl) as (s0 & -> & H0).
      destruct (Hcodes 1%nat (png_stub 2000 2000 []) eq_refl) as (s1 & -> & H1).
      destruct (Hcodes 2%nat (png_stub 128 128 []) eq_refl) as (s2 & -> & H2).
      split_and!; [exact H0|exact H1|exact H2].
Defined.

(** C5: a buffer that does not start with the PNG signature is passed
    over without an error, by both encoders: a run on the whole input is
    the run on any files that hold just the kept PNG buffers, in their
    input order, so every count, length and offset comes from the kept
    buffers only.  With no PNG buffer at all, the ICO encoder returns
    and writes nothing, and the ICNS encoder does what it does on no
    input: it writes the 8-byte file when the output file can be opened
    and raises what [open] raises when not.  What is written lists the
    kept buffers in input order, each with an entry of its own. *)
Theorem non_png_skipped fs png_files bufs kept_files output_file :
  holds fs png_files bufs ->
  holds fs kept_files (filter is_png bufs) ->
  create_icns png_files output_file fs = create_icns kept_files output_file fs
  /\ create_ico png_files output_file fs = create_ico kept_files output_file fs
  /\ (filter is_png bufs = [] ->
      create_ico png_files output_file fs = (Return tt, fs)
      /\ (writable fs output_file ->
          create_icns png_files output_file fs
          = (Return tt,
             <[output_file :=
                 File (list_byte_of_string "icns" ++ [x00; x00; x00; x08])]> fs))
      /\ (forall e,
            cannot_write fs output_file e ->
            create_icns png_files output_file fs = (Raise e, fs)))
  /\ (forall fs',
        create_icns png_files output_file fs = (Return tt, fs') ->
        exists header : bytes,
          length header = 8%nat
          /\ fs' !! output_file
             = Some (File
                       (header
                        ++ concat ((fun data =>
                                      icon_type (png_width data)
                                      ++ encode BigEndian 4 (8 + len data) ++ data)
                                   <$> filter is_png bufs))))
  /\ (forall fs',
        create_ico png_files output_file fs = (Return tt, fs') ->
        filter is_png bufs <> [] ->
        exists file header directory : bytes,
          fs' !! output_file = Some (File file)
          /\ file = header ++ directory ++ concat (filter is_png bufs)
          /\ length header = 6%nat
          /\ length directory = (16 * length (filter is_png bufs))%nat
          /\ decode LittleEndian (slice 4 6 file)
             = Z.of_nat (length (filter is_png bufs))).
Proof.
  intros Hin Hkept. split_and!.
  - unfold create_icns. unfold_monad.
    by rewrite (read_entries_kept fs png_files bufs Hin kept_files).
  - unfold create_ico. unfold_monad.
    by rewrite (read_images_kept fs png_files bufs Hin kept_files).
  - intros Hnone.
    assert (Forall (fun data => is_png data -> encodable data) bufs) as Hok.
    { apply Forall_forall. intros data Hdata Hsig.
      assert (data ∈ filter is_png bufs) as Hin' by by apply list_elem_of_filter.
      rewrite Hnone in Hin'. by apply elem_of_nil in Hin'. }
    split_and!.
    + by eapply create_ico_nothing.
    + intros Hout. rewrite (create_icns_kept _ _ bufs) by done.
      cbv zeta. rewrite Hnone. by rewrite decide_True by done.
    + intros e Hout. by apply (create_icns_blocked _ _ bufs).
  - intros fs' Hrun.
    destruct (create_icns_Return _ _ bufs _ _ Hin Hrun) as (_ & _ & _ & ->).
    exists (list_byte_of_string "icns"
            ++ encode BigEndian 4 (total_size (filter is_png bufs))).
    split; [by rewrite length_app, length_encode|].
    rewrite lookup_insert_eq. unfold icns_file. by rewrite <- app_assoc.
  - intros fs' Hrun Hsome.
    destruct (create_ico_Return _ _ bufs _ _ Hin Hrun Hsome)
      as (_ & Hcount & _ & _ & ->).
    exists (ico_file (filter is_png bufs)),
           (ico_header (length (filter is_png bufs))),
           (concat (directory (data_start (length (filter is_png bufs)))
                      (filter is_png bufs))).
    split_and!.
    + by rewrite lookup_insert_eq.
    + done.
    + apply length_ico_header.
    + apply length_concat_directory.
    + destruct (ico_file_header (filter is_png bufs)) as (_ & _ & ->).
      apply decode_encode. simpl. lia.
Qed.

Lemma non_png_skipped_witness :
  create_icns ["32x32.png"; "icon.svg"; "128x128.png"; "32x32.png"]%string
    "icon.icns"%string icon_dir
  = create_icns ["32x32.png"; "128x128.png"; "32x32.png"]%string
      "icon.icns"%string icon_dir
  /\ create_ico ["32x32.png"; "icon.svg"; "128x128.png"; "32x32.png"]%string
       "icon.icns"%string icon_dir
     = create_ico ["32x32.png"; "128x128.png"; "32x32.png"]%string
         "icon.icns"%string icon_dir.
Proof.
  destruct (non_png_skipped icon_dir
              ["32x32.png"; "icon.svg"; "128x128.png"; "32x32.png"]%string
              [png_stub 32 32 []; list_byte_of_string "<svg/>";
               png_stub 128 128 []; png_stub 32 32 []]
              ["32x32.png"; "128x128.png"; "32x32.png"]%string
              "icon.icns"%string)
    as (Hicns & Hico & _).
  - evaluate.
  - evaluate.
  - split; [exact Hicns|exact Hico].
Defined.

(** C6, as stated, fails: for the buffer that is the PNG signature and
    nothing more there are no bytes at offsets 16 and 20; the read
    raises [struct.error] in both encoders instead of returning a width
    and a height. *)
Lemma png_dimensions_signature_only :
  is_png PNG_SIGNATURE
  /\ unpack_uint32_be (slice 16 20 PNG_SIGNATURE) = Raise struct_error
  /\ read_image [] "cut.png"%string cut_dir = (Raise struct_error, cut_dir)
  /\ read_entry ([], 8) "cut.png"%string cut_dir = (Raise struct_error, cut_dir).
Proof. split_and!; [done|done| |]; vm_compute; reflexivity. Qed.

(** C6, amended: for every buffer that starts with the PNG signature
    and has the four bytes at offset 16, the width is their big-endian
    value, and the ICNS loop, which reads nothing else, builds its entry
    from it; when the buffer also has the four bytes at offset 20, the
    height is their big-endian value and the ICO loop keeps
    [(width, height, data)].  Neither loop touches the file system.  A
    buffer that does not start with the signature changes nothing. *)
Theorem png_dimensions (fs : fsys) png_file data b0 b1 b2 b3 :
  file_at fs png_file data ->
  (is_png data ->
   slice 16 20 data = [b0; b1; b2; b3] ->
   forall width,
     width = byte.unsigned b0 * 2 ^ 24 + byte.unsigned b1 * 2 ^ 16
             + byte.unsigned b2 * 2 ^ 8 + byte.unsigned b3 ->
     unpack_uint32_be (slice 16 20 data) = Return width
     /\ (forall entries total,
           8 + len data < 2 ^ 32 ->
           read_entry (entries, total) png_file fs
           = (Return (entries
                      ++ [icon_type width ++ encode BigEndian 4 (8 + len data)
                          ++ data],
                      total + (8 + len data)), fs))
     /\ (forall c0 c1 c2 c3 height,
           slice 20 24 data = [c0; c1; c2; c3] ->
           height = byte.unsigned c0 * 2 ^ 24 + byte.unsigned c1 * 2 ^ 16
                    + byte.unsigned c2 * 2 ^ 8 + byte.unsigned c3 ->
           unpack_uint32_be (slice 20 24 data) = Return height
           /\ forall images,
                read_image images png_file fs
                = (Return (images ++ [(width, height, data)]), fs)))
  /\ (~ is_png data ->
      (forall images, read_image images png_file fs = (Return images, fs))
      /\ (forall st, read_entry st png_file fs = (Return st, fs))).
Proof.
  intros Hfile. split.
  - intros Hsig Hw width ->.
    assert (20 <= length data)%nat as Hlen.
    { apply (f_equal length) in Hw. unfold slice in Hw.
      rewrite length_take, length_drop in Hw. cbn [length] in Hw. lia. }
    assert (png_width data
            = byte.unsigned b0 * 2 ^ 24 + byte.unsigned b1 * 2 ^ 16
              + byte.unsigned b2 * 2 ^ 8 + byte.unsigned b3) as Hwidth
      by (unfold png_width; rewrite Hw; apply decode_be_4).
    rewrite <- Hwidth. split_and!.
    + by rewrite unpack_uint32_be_4 by (rewrite length_slice; lia).
    + intros entries total Hsize.
      apply read_entry_png; [done|done|]. split; [lia|done].
    + intros c0 c1 c2 c3 height Hh ->.
      assert (24 <= length data)%nat as Hlen'.
      { apply (f_equal length) in Hh. unfold slice in Hh.
        rewrite length_take, length_drop in Hh. cbn [length] in Hh. lia. }
      assert (png_height data
              = byte.unsigned c0 * 2 ^ 24 + byte.unsigned c1 * 2 ^ 16
                + byte.unsigned c2 * 2 ^ 8 + byte.unsigned c3) as Hheight
        by (unfold png_height; rewrite Hh; apply decode_be_4).
      rewrite <- Hheight. split.
      * by rewrite unpack_uint32_be_4 by (rewrite length_slice; lia).
      * intros images. by apply read_image_png.
  - intros Hsig. split.
    + intros images. by eapply read_image_skip.
    + intros st. by eapply read_entry_skip.
Qed.

Lemma png_dimensions_witness :
  unpack_uint32_be (slice 16 20 (png_stub 256 512 [])) = Return 256
  /\ unpack_uint32_be (slice 20 24 (png_stub 256 512 [])) = Return 512
  /\ read_image [] "wide.png"%string
       {[ "wide.png"%string := File (png_stub 256 512 []) ]}
     = (Return [(256, 512, png_stub 256 512 [])],
        {[ "wide.png"%string := File (png_stub 256 512 []) ]})
  /\ read_entry ([], 8) "short.png"%string
       {[ "short.png"%string := File (take 20 (png_stub 256 512 [])) ]}
     = (Return ([list_byte_of_string "ic08" ++ [x00; x00; x00; x1c]
                 ++ take 20 (png_stub 256 512 [])], 36),
        {[ "short.png"%string := File (take 20 (png_stub 256 512 [])) ]}).
Proof.
  destruct (png_dimensions {[ "wide.png"%string := File (png_stub 256 512 []) ]}
              "wide.png"%string (png_stub 256 512 [])
              x00 x00 x01 x00)
    as [Hpng _]; [evaluate|].
  destruct (Hpng eq_refl eq_refl 256 eq_refl) as (Hw & _ & Hheight).
  destruct (Hheight x00 x00 x02 x00 512 eq_refl eq_refl) as (Hh & Himage).
  destruct (png_dimensions
              {[ "short.png"%string := File (take 20 (png_stub 256 512 [])) ]}
              "short.png"%string (take 20 (png_stub 256 512 []))
              x00 x00 x01 x00)
    as [Hshort _]; [evaluate|].
  destruct (Hshort eq_refl eq_refl 256 eq_refl) as (_ & Hentry & _).
  split_and!; [exact Hw|exact Hh|exact (Himage [])|].
  apply (Hentry [] 8). vm_compute. reflexivity.
Defined.

(** C7: in every file the ICO encoder writes, the 16 bytes at offset
    [6 + 16 k] are the directory entry of the [k]-th kept image: a width
    byte and a height byte (0 from 256 up, the value itself below), the
    bytes 0, 0, then 1 and 32 as little-endian 16-bit fields, then the
    payload length and the payload offset as little-endian 32-bit
    fields. *)
Theorem ico_directory_entries fs png_files bufs output_file fs' pngs :
  holds fs png_files bufs ->
  pngs = filter is_png bufs ->
  pngs <> [] ->
  create_ico png_files output_file fs = (Return tt, fs') ->
  exists file : bytes,
    fs' !! output_file = Some (File file)
    /\ length file
       = (6 + 16 * length pngs + sum_list_with length pngs)%nat
    /\ forall (k : nat) (data : bytes),
         pngs !! k = Some data ->
         exists (width_byte height_byte : byte) (size_field offset_field : bytes),
           slice (6 + 16 * k) (6 + 16 * k + 16) file
           = [width_byte; height_byte; x00; x00; x01; x00; x20; x00]
             ++ size_field ++ offset_field
           /\ byte.unsigned width_byte
              = (if 256 <=? png_width data then 0 else png_width data)
           /\ byte.unsigned height_byte
              = (if 256 <=? png_height data then 0 else png_height data)
           /\ length size_field = 4%nat
           /\ decode LittleEndian size_field = len data
           /\ length offset_field = 4%nat
           /\ decode LittleEndian offset_field
              = Z.of_nat (6 + 16 * length pngs
                          + sum_list_with length (take k pngs)).
Proof.
  intros Hin -> Hsome Hrun.
  destruct (create_ico_Return _ _ bufs _ _ Hin Hrun Hsome)
    as (_ & Hcount & Hfit & _ & ->).
  set (pngs := filter is_png bufs) in *.
  exists (ico_file pngs). split_and!.
  - by rewrite lookup_insert_eq.
  - apply length_ico_file.
  - intros k data Hk.
    destruct (entries_fit_lookup pngs (data_start (length pngs)) k data)
      as [Hdata Hstart]; [unfold data_start; lia|done|done|].
    rewrite (ico_file_entry pngs k data) by done. unfold dir_entry.
    eexists _, _, _, _. split_and!.
    + reflexivity.
    + apply dim_byte_unsigned, png_width_bound.
    + apply dim_byte_unsigned, png_height_bound.
    + apply length_encode.
    + apply decode_encode. unfold len in *. simpl. lia.
    + apply length_encode.
    + rewrite decode_encode by (unfold data_start in *; simpl; lia).
      unfold data_start. lia.
Qed.

Lemma ico_directory_entries_witness :
  exists file : bytes,
    <["icon.ico"%string :=
        File (ico_file [png_stub 32 32 []; png_stub 256 256 [x01]])]> icon_dir
      !! "icon.ico"%string = Some (File file)
    /\ slice 6 22 file
       = [x20; x20; x00; x00; x01; x00; x20; x00;
          x18; x00; x00; x00; x26; x00; x00; x00]
    /\ slice 22 38 file
       = [x00; x00; x00; x00; x01; x00; x20; x00;
          x19; x00; x00; x00; x3e; x00; x00; x00].
Proof.
  destruct (ico_directory_entries icon_dir
              ["32x32.png"; "icon.svg"; "128x128@2x.png"]%string
              [png_stub 32 32 []; list_byte_of_string "<svg/>";
               png_stub 256 256 [x01]]
              "icon.ico"%string
              (<["icon.ico"%string :=
                   File (ico_file [png_stub 32 32 []; png_stub 256 256 [x01]])]>
                 icon_dir)
              [png_stub 32 32 []; png_stub 256 256 [x01]])
    as (file & Hfile & _ & _).
  - evaluate.
  - reflexivity.
  - discriminate.
  - vm_compute. reflexivity.
  - exists file. split; [exact Hfile|].
    rewrite lookup_insert_eq in Hfile. injection Hfile as <-.
    split; vm_compute; reflexivity.
Defined.

(** C8: when no input buffer starts with the PNG signature, the ICO
    encoder returns normally and leaves the file system as it was: no
    file is created, truncated or written. *)
Theorem create_ico_no_png fs png_files bufs output_file :
  holds fs png_files bufs ->
  filter is_png bufs = [] ->
  create_ico png_files output_file fs = (Return tt, fs).
Proof. apply create_ico_nothing. Qed.

Lemma create_ico_no_png_witness :
  create_ico ["icon.svg"; "icon.svg"]%string "icon.ico"%string icon_dir
  = (Return tt, icon_dir).
Proof.
  apply (create_ico_no_png icon_dir ["icon.svg"; "icon.svg"]%string
           [list_byte_of_string "<svg/>"; list_byte_of_string "<svg/>"]).
  - evaluate.
  - reflexivity.
Defined.

(** C9, as stated, fails: given no images the ICO encoder writes no
    container at all; the output file does not exist afterwards, so
    there is no 6-byte header with count 0. *)
Lemma create_ico_no_files :
  create_ico [] "icon.ico"%string ∅ = (Return tt, ∅)
  /\ (create_ico [] "icon.ico"%string ∅).2 !! "icon.ico"%string
     <> Some (File (encode LittleEndian 2 0 ++ encode LittleEndian 2 1
                      ++ encode LittleEndian 2 0)).
Proof. split; [reflexivity|]. vm_compute. discriminate. Qed.

(** C9, amended: given zero images, the ICO encoder returns normally and
    writes nothing: no header, no directory, no payload, no file. *)
Theorem create_ico_empty_input (fs : fsys) output_file :
  create_ico [] output_file fs = (Return tt, fs).
Proof. done. Qed.

(** C10: the signature test alone decides whether a buffer is read.  A
    buffer that starts with the signature but ends before byte 20 makes
    the ICNS encoder raise, and one that ends before byte 24 makes the
    ICO encoder raise, wherever it stands in the input; nothing is
    written. *)
Theorem short_png_raises :
  (exists data : bytes,
     is_png data /\ (length data < 20)%nat
     /\ forall (fs : fsys) png_file output_file,
          file_at fs png_file data ->
          create_icns [png_file] output_file fs = (Raise struct_error, fs))
  /\ (exists data : bytes,
        is_png data /\ (length data < 24)%nat
        /\ forall (fs : fsys) png_file output_file,
             file_at fs png_file data ->
             create_ico [png_file] output_file fs = (Raise struct_error, fs))
  /\ (forall fs png_files bufs output_file,
        holds fs png_files bufs ->
        Exists (fun data => is_png data /\ (length data < 20)%nat) bufs ->
        create_icns png_files output_file fs = (Raise struct_error, fs))
  /\ (forall fs png_files bufs output_file,
        holds fs png_files bufs ->
        Exists (fun data => is_png data /\ (length data < 24)%nat) bufs ->
        create_ico png_files output_file fs = (Raise struct_error, fs)).
Proof.
  assert (forall fs png_files bufs output_file,
            holds fs png_files bufs ->
            Exists (fun data => is_png data /\ (length data < 20)%nat) bufs ->
            create_icns png_files output_file fs = (Raise struct_error, fs))
    as Hicns.
  { intros fs png_files bufs output_file Hin Hshort.
    apply (create_icns_unreadable _ _ _ bufs); [done|].
    eapply Exists_impl; [exact Hshort|]. simpl. intros data [Hsig Hlen].
    split; [done|]. intros [Hlong _]. lia. }
  assert (forall fs png_files bufs output_file,
            holds fs png_files bufs ->
            Exists (fun data => is_png data /\ (length data < 24)%nat) bufs ->
            create_ico png_files output_file fs = (Raise struct_error, fs))
    as Hico.
  { intros fs png_files bufs output_file Hin Hshort.
    apply (create_ico_unreadable _ _ bufs); [done|].
    eapply Exists_impl; [exact Hshort|]. simpl. intros data [Hsig Hlen].
    split; [done|]. unfold readable. lia. }
  split_and!; [| |exact Hicns|exact Hico].
  - exists PNG_SIGNATURE. split_and!; [done|simpl; lia|].
    intros fs png_file output_file Hfile.
    apply (Hicns _ _ [PNG_SIGNATURE]).
    + apply Forall2_cons_2; [done|apply Forall2_nil_2].
    + apply Exists_cons_hd. split; [done|simpl; lia].
  - exists (firstn 22 png_1x1). split_and!; [done|simpl; lia|].
    intros fs png_file output_file Hfile.
    apply (Hico _ _ [firstn 22 png_1x1]).
    + apply Forall2_cons_2; [done|apply Forall2_nil_2].
    + apply Exists_cons_hd. split; [done|simpl; lia].
Qed.

Lemma short_png_raises_witness :
  create_icns ["32x32.png"; "cut.png"; "icon.png"]%string "icon.icns"%string
    icon_dir
  = (Raise struct_error, icon_dir)
  /\ create_ico ["32x32.png"; "cut.png"; "icon.png"]%string "icon.ico"%string
       icon_dir
     = (Raise struct_error, icon_dir).
Proof.
  destruct short_png_raises as (_ & _ & Hicns & Hico).
  split.
  - apply (Hicns icon_dir _ [png_stub 32 32 []; PNG_SIGNATURE;
                             png_stub 512 512 [x02; x03]]).
    + evaluate.
    + apply Exists_cons_tl, Exists_cons_hd. split; [reflexivity|simpl; lia].
  - apply (Hico icon_dir _ [png_stub 32 32 []; PNG_SIGNATURE;
                            png_stub 512 512 [x02; x03]]).
    + evaluate.
    + apply Exists_cons_tl, Exists_cons_hd. split; [reflexivity|simpl; lia].
Defined.

End Claims.

(** * Beyond the claims *)

(** ** The encoders on any list of paths *)

Module EncoderFacts.
Import Icns Ico IcnsSpec IcoSpec IcnsFacts IcoFacts.

Lemma for_each_app {A S} (xs ys : list A) (body : S -> A -> M S) : forall s fs,
  for_each (xs ++ ys) body s fs
  = (s' ← for_each xs body s; for_each ys body s') fs.
Proof.
  induction xs as [|x xs IH]; intros s fs; [done|].
  cbn [app for_each]. unfold_monad.
  destruct (body s x fs) as [[s'|e] fs1]; [|done]. apply IH.
Qed.

Lemma read_entry_cannot st p (fs : fsys) e :
  cannot_read fs p e -> read_entry st p fs = (Raise e, fs).
Proof.
  intros Hp. destruct st as [entries total].
  unfold read_entry. erewrite bind_Raise; [done|]. by apply read_file_cannot.
Qed.

Lemma read_image_cannot images p (fs : fsys) e :
  cannot_read fs p e -> read_image images p fs = (Raise e, fs).
Proof.
  intros Hp. unfold read_image.
  erewrite bind_Raise; [done|]. by apply read_file_cannot.
Qed.

(** Either every path names a file, or there is a first one that cannot
    be read. *)
Lemma holds_or_not (fs : fsys) png_files :
  (exists bufs, holds fs png_files bufs)
  \/ (exists before p after bufs e,
        png_files = before ++ p :: after
        /\ holds fs before bufs /\ cannot_read fs p e).
Proof.
  induction png_files as [|q png_files IH].
  - left. exists []. apply Forall2_nil_2.
  - destruct (read_path_cases fs q) as [[data Hq]|[e Hq]].
    + destruct IH as [[bufs Hin]|(before & p & after & bufs & e & -> & Hin & Hp)].
      * left. exists (data :: bufs). by apply Forall2_cons_2.
      * right. exists (q :: before), p, after, (data :: bufs), e.
        split_and!; [done| |done]. by apply Forall2_cons_2.
    + right. exists [], q, png_files, [], e. split_and!; [done| |done].
      apply Forall2_nil_2.
Qed.

(** The loops read and never write. *)
Lemma read_entries_fs png_files : forall st fs,
  (for_each png_files read_entry st fs).2 = fs.
Proof.
  induction png_files as [|p png_files IH]; intros st fs; [done|].
  cbn [for_each]. unfold_monad. pose proof (read_entry_fs st p fs) as Hfs.
  destruct (read_entry st p fs) as [[st'|e] fs']; simpl in Hfs; subst fs'; [|done].
  apply IH.
Qed.

Lemma read_images_fs png_files : forall images fs,
  (for_each png_files read_image images fs).2 = fs.
Proof.
  induction png_files as [|p png_files IH]; intros images fs; [done|].
  cbn [for_each]. unfold_monad. pose proof (read_image_fs images p fs) as Hfs.
  destruct (read_image images p fs) as [[images'|e] fs']; simpl in Hfs;
    subst fs'; [|done].
  apply IH.
Qed.

(** A path that cannot be read stops the loop, after the files before
    it. *)
Lemma read_entries_cannot fs before p after bufs e :
  holds fs before bufs -> cannot_read fs p e ->
  forall st,
    for_each (before ++ p :: after) read_entry st fs
    = (Raise (if decide (Forall (fun data => is_png data -> encodable data) bufs)
              then e else struct_error), fs).
Proof.
  intros Hin Hp [entries total]. rewrite for_each_app.
  destruct (decide _) as [Hok|Hbad].
  - erewrite bind_Return by by apply read_entries.
    cbn [for_each]. erewrite bind_Raise; [done|]. by apply read_entry_cannot.
  - erewrite bind_Raise; [done|].
    eapply read_entries_unreadable; [done|].
    apply not_Forall_Exists in Hbad; [|apply _].
    eapply Exists_impl; [exact Hbad|]. simpl. intros data Hdata.
    destruct (decide (is_png data)); [|tauto]. split; [done|]. tauto.
Qed.

Lemma read_images_cannot fs before p after bufs e :
  holds fs before bufs -> cannot_read fs p e ->
  forall images,
    for_each (before ++ p :: after) read_image images fs
    = (Raise (if decide (Forall (fun data => is_png data -> readable data) bufs)
              then e else struct_error), fs).
Proof.
  intros Hin Hp images. rewrite for_each_app.
  destruct (decide _) as [Hok|Hbad].
  - erewrite bind_Return by by apply read_images.
    cbn [for_each]. erewrite bind_Raise; [done|]. by apply read_image_cannot.
  - erewrite bind_Raise; [done|].
    eapply read_images_unreadable; [done|].
    apply not_Forall_Exists in Hbad; [|apply _].
    eapply Exists_impl; [exact Hbad|]. simpl. intros data Hdata.
    destruct (decide (is_png data)); [|tauto]. split; [done|]. tauto.
Qed.

(** All the ways a run of [create_icns] can end. *)
Lemma create_icns_cases fs png_files output_file :
  (exists e, create_icns png_files output_file fs = (Raise e, fs))
  \/ (exists bufs,
        holds fs png_files bufs
        /\ Forall encodable (filter is_png bufs)
        /\ 2 ^ 32 <= total_size (filter is_png bufs)
        /\ writable fs output_file
        /\ create_icns png_files output_file fs
           = (Raise struct_error,
              <[output_file := File (list_byte_of_string "icns")]> fs))
  \/ (exists bufs,
        holds fs png_files bufs
        /\ Forall encodable (filter is_png bufs)
        /\ total_size (filter is_png bufs) < 2 ^ 32
        /\ writable fs output_file
        /\ create_icns png_files output_file fs
           = (Return tt,
              <[output_file := File (icns_file (filter is_png bufs))]> fs)).
Proof.
  destruct (holds_or_not fs png_files)
    as [[bufs Hin]|(before & p & after & bufs & e & -> & Hin & Hp)].
  - destruct (decide (Forall (fun data => is_png data -> encodable data) bufs))
      as [Hok|Hbad].
    + assert (Forall encodable (filter is_png bufs)) as Hkept.
      { apply Forall_forall. intros data [Hsig Hdata]%list_elem_of_filter.
        rewrite Forall_forall in Hok. by apply Hok. }
      destruct (writable_cases fs output_file) as [Hout|[e Hout]].
      2: { left. exists e. by apply (create_icns_blocked _ _ bufs). }
      pose proof (create_icns_kept fs png_files bufs output_file Hin Hok Hout)
        as Hrun.
      cbv zeta in Hrun. destruct (decide _) as [Hfit|Hfit] in Hrun.
      * right. right. by exists bufs.
      * right. left. exists bufs. split_and!; [done|done|lia|done|done].
    + left. exists struct_error. apply (create_icns_unreadable _ _ _ bufs); [done|].
      apply not_Forall_Exists in Hbad; [|apply _].
      eapply Exists_impl; [exact Hbad|]. simpl. intros data Hdata.
      destruct (decide (is_png data)); [|tauto]. split; [done|]. tauto.
  - left. eexists. unfold create_icns.
    erewrite bind_Raise; [done|]. by eapply read_entries_cannot.
Qed.

(** All the ways a run of [create_ico] can end. *)
Lemma create_ico_cases fs png_files output_file :
  (exists e, create_ico png_files output_file fs = (Raise e, fs))
  \/ (exists bufs,
        holds fs png_files bufs /\ filter is_png bufs = []
        /\ create_ico png_files output_file fs = (Return tt, fs))
  \/ (exists bufs,
        holds fs png_files bufs /\ filter is_png bufs <> []
        /\ Forall readable (filter is_png bufs)
        /\ Z.of_nat (length (filter is_png bufs)) <= 65535
        /\ entries_fit (data_start (length (filter is_png bufs)))
             (filter is_png bufs)
        /\ writable fs output_file
        /\ create_ico png_files output_file fs
           = (Return tt,
              <[output_file := File (ico_file (filter is_png bufs))]> fs)).
Proof.
  destruct (holds_or_not fs png_files)
    as [[bufs Hin]|(before & p & after & bufs & e & -> & Hin & Hp)].
  - destruct (decide (filter is_png bufs = [])) as [Hnone|Hsome].
    { right. left. exists bufs. split_and!; [done|done|].
      by eapply create_ico_nothing. }
    destruct (decide (Forall (fun data => is_png data -> readable data) bufs))
      as [Hok|Hbad].
    + assert (Forall readable (filter is_png bufs)) as Hkept.
      { apply Forall_forall. intros data [Hsig Hdata]%list_elem_of_filter.
        rewrite Forall_forall in Hok. by apply Hok. }
      destruct (writable_cases fs output_file) as [Hout|[e Hout]].
      2: { left.
           pose proof (create_ico_blocked fs png_files bufs output_file e
                         Hin Hok Hsome Hout) as Hrun.
           cbv zeta in Hrun. destruct (decide _) in Hrun; by eexists. }
      pose proof (create_ico_kept fs png_files bufs output_file Hin Hok Hsome Hout)
        as Hrun.
      cbv zeta in Hrun. destruct (decide _) as [[Hcount Hfit]|Hfit] in Hrun.
      * right. right. by exists bufs.
      * left. by exists struct_error.
    + left. exists struct_error. apply (create_ico_unreadable _ _ bufs); [done|].
      apply not_Forall_Exists in Hbad; [|apply _].
      eapply Exists_impl; [exact Hbad|]. simpl. intros data Hdata.
      destruct (decide (is_png data)); [|tauto]. split; [done|]. tauto.
  - left. eexists. unfold create_ico.
    erewrite bind_Raise; [done|]. by eapply read_images_cannot.
Qed.

(** Writing the output file leaves the input files as they are, unless
    the output file is one of them. *)
Lemma holds_insert_other (fs : fsys) png_files bufs output_file file :
  output_file ∉ png_files ->
  fs !! output_file <> Some Dir ->
  holds fs png_files bufs ->
  holds (<[output_file := File file]> fs) png_files bufs.
Proof.
  intros Hout Hfile Hin. induction Hin as [|p data png_files bufs Hp _ IH].
  - apply Forall2_nil_2.
  - apply not_elem_of_cons in Hout as [Hne Hout].
    apply Forall2_cons_2; [|by apply IH]. by apply file_at_insert_ne.
Qed.

End EncoderFacts.

Section EncoderExtras.
Import Icns Ico IcnsSpec IcoSpec IcnsFacts IcoFacts EncoderFacts.

(** X1: a run of [create_icns] ends in one of three ways.  It raises
    with the file system untouched; or it raises [struct.error] after
    the output file was opened, and the file holds the four magic bytes
    and nothing else; or it returns, and the output file starts with
    the magic and declares, in its total-length field, exactly its own
    length. *)
Theorem create_icns_outcomes (fs : fsys) png_files output_file :
  (exists e, create_icns png_files output_file fs = (Raise e, fs))
  \/ create_icns png_files output_file fs
     = (Raise struct_error,
        <[output_file := File (list_byte_of_string "icns")]> fs)
  \/ (exists file : bytes,
        create_icns png_files output_file fs
        = (Return tt, <[output_file := File file]> fs)
        /\ slice 0 4 file = list_byte_of_string "icns"
        /\ decode BigEndian (slice 4 8 file) = len file).
Proof.
  destruct (create_icns_cases fs png_files output_file)
    as [Hraise|[(bufs & _ & _ & _ & _ & Hrun)|(bufs & _ & _ & Hfit & _ & Hrun)]].
  - by left.
  - right. by left.
  - right. right. exists (icns_file (filter is_png bufs)).
    split; [done|]. unfold icns_file. split.
    + by apply (slice_app_middle []).
    + rewrite (slice_app_middle (list_byte_of_string "icns"))
        by (done || apply length_encode).
      unfold total_size in *. rewrite decode_encode by lia.
      unfold len. rewrite !length_app, length_encode, <- sum_entry_lengths.
      assert (forall chunks : list bytes,
                length (concat chunks) = sum_list_with length chunks) as ->.
      { induction chunks as [|c chunks IH]; [done|].
        cbn [concat sum_list_with]. by rewrite length_app, IH. }
      simpl. lia.
Qed.

(** X2: [create_ico] writes all of the file or nothing.  Either it
    raises, or it returns having kept no image, and the file system is
    untouched in both cases; or it returns and the output file has the
    6-byte header with the count of kept images, 16 bytes of directory
    for each and all the payloads. *)
Theorem create_ico_all_or_nothing (fs : fsys) png_files output_file :
  (exists e, create_ico png_files output_file fs = (Raise e, fs))
  \/ create_ico png_files output_file fs = (Return tt, fs)
  \/ (exists (bufs : list bytes) (file : bytes),
        holds fs png_files bufs
        /\ create_ico png_files output_file fs
           = (Return tt, <[output_file := File file]> fs)
        /\ 1 <= Z.of_nat (length (filter is_png bufs))
        /\ decode LittleEndian (slice 4 6 file)
           = Z.of_nat (length (filter is_png bufs))
        /\ length file
           = (6 + 16 * length (filter is_png bufs)
              + sum_list_with length (filter is_png bufs))%nat).
Proof.
  destruct (create_ico_cases fs png_files output_file)
    as [Hraise|[(bufs & _ & _ & Hrun)
               |(bufs & Hin & Hsome & _ & Hcount & _ & _ & Hrun)]].
  - by left.
  - right. by left.
  - right. right. exists bufs, (ico_file (filter is_png bufs)).
    split_and!; [done|done| | |apply length_ico_file].
    + destruct (filter is_png bufs); [done|]. simpl. lia.
    + destruct (ico_file_header (filter is_png bufs)) as (_ & _ & ->).
      apply decode_encode. simpl. lia.
Qed.

(** X3: an input path that cannot be opened makes both encoders raise
    what [open] raises for it, provided the files before it do not
    already stop the loop: [FileNotFoundError] when the path, or a
    directory on the way to it, is not there, [NotADirectoryError] when
    a regular file is in the way, [IsADirectoryError] when the path
    names a directory.  Nothing is written, whatever comes after the
    path. *)
Theorem unreadable_input_file (fs : fsys) before p after bufs output_file e :
  holds fs before bufs ->
  cannot_read fs p e ->
  (e = FileNotFoundError p \/ e = NotADirectoryError p
   \/ e = IsADirectoryError p)
  /\ (Forall (fun data => is_png data ->
                          (20 <= length data)%nat /\ 8 + len data < 2 ^ 32) bufs ->
      create_icns (before ++ p :: after) output_file fs = (Raise e, fs))
  /\ (Forall (fun data => is_png data -> (24 <= length data)%nat) bufs ->
      create_ico (before ++ p :: after) output_file fs = (Raise e, fs)).
Proof.
  intros Hin Hp. split_and!.
  - destruct Hp as [e [| |]| |]; tauto.
  - intros Hok. unfold create_icns. erewrite bind_Raise; [done|].
    rewrite (read_entries_cannot fs before p after bufs e) by done.
    by rewrite decide_True by done.
  - intros Hok. unfold create_ico. erewrite bind_Raise; [done|].
    rewrite (read_images_cannot fs before p after bufs e) by done.
    by rewrite decide_True by done.
Qed.

Lemma unreadable_input_file_witness :
  create_icns ["32x32.png"; "icon.svg"; "nowhere.png"; "cut.png"]%string
    "icon.icns"%string icon_dir
  = (Raise (FileNotFoundError "nowhere.png"), icon_dir)
  /\ create_ico ["32x32.png"; "build"; "cut.png"]%string
       "icon.ico"%string icon_dir
     = (Raise (IsADirectoryError "build"), icon_dir)
  /\ create_ico ["32x32.png"; "icon.svg/32x32.png"]%string
       "icon.ico"%string icon_dir
     = (Raise (NotADirectoryError "icon.svg/32x32.png"), icon_dir)
  /\ create_icns ["build/32x32.png"%string] "icon.icns"%string icon_dir
     = (Raise (FileNotFoundError "build/32x32.png"), icon_dir).
Proof.
  split_and!.
  - apply (unreadable_input_file icon_dir ["32x32.png"; "icon.svg"]%string
             "nowhere.png"%string ["cut.png"%string]
             [png_stub 32 32 []; list_byte_of_string "<svg/>"]).
    + evaluate.
    + apply cannot_read_missing; [evaluate|reflexivity].
    + repeat first [apply Forall_nil_2 | apply Forall_cons_2]; intros Hsig;
        first [vm_compute; split; [lia|reflexivity]
              | vm_compute in Hsig; discriminate Hsig].
  - apply (unreadable_input_file icon_dir ["32x32.png"%string]
             "build"%string ["cut.png"%string] [png_stub 32 32 []]).
    + evaluate.
    + apply cannot_read_directory; [evaluate|reflexivity].
    + repeat first [apply Forall_nil_2 | apply Forall_cons_2]; intros Hsig;
        vm_compute; lia.
  - apply (unreadable_input_file icon_dir ["32x32.png"%string]
             "icon.svg/32x32.png"%string [] [png_stub 32 32 []]).
    + evaluate.
    + apply cannot_read_unreachable.
      by apply (unreachable_file _ _ [] "icon.svg"%string []
                  (list_byte_of_string "<svg/>")).
    + repeat first [apply Forall_nil_2 | apply Forall_cons_2]; intros Hsig;
        vm_compute; lia.
  - apply (unreadable_input_file icon_dir [] "build/32x32.png"%string [] []).
    + evaluate.
    + apply cannot_read_missing; [evaluate|reflexivity].
    + apply Forall_nil_2.
Defined.

(** X4: when every PNG buffer can be read and packed but the total of
    the entry lengths reaches [2 ^ 32], and the output file can be
    opened, [create_icns] raises [struct.error] only after it has opened
    the output file and written the magic: what is left on disk is a
    4-byte file, and whatever the output file held before is gone. *)
Theorem create_icns_total_too_large (fs : fsys) png_files bufs output_file :
  holds fs png_files bufs ->
  Forall (fun data => is_png data ->
                      (20 <= length data)%nat /\ 8 + len data < 2 ^ 32) bufs ->
  2 ^ 32 <= 8 + Z.of_nat (sum_list_with (fun data => 8 + length data)%nat
                            (filter is_png bufs)) ->
  writable fs output_file ->
  create_icns png_files output_file fs
  = (Raise struct_error,
     <[output_file := File (list_byte_of_string "icns")]> fs).
Proof.
  intros Hin Hok Htotal Hout.
  rewrite (create_icns_kept _ _ bufs) by done. cbv zeta.
  rewrite decide_False; [done|]. unfold total_size. lia.
Qed.

Lemma create_icns_total_too_large_witness :
  create_icns (replicate 256 "big.png"%string) "icon.icns"%string big_dir
  = (Raise struct_error,
     <["icon.icns"%string := File (list_byte_of_string "icns")]> big_dir).
Proof.
  assert (is_png png_16mib) as Hsig by reflexivity.
  apply (create_icns_total_too_large big_dir _ (replicate 256 png_16mib)).
  - apply holds_replicate.
    split; [by apply reachable_top|apply lookup_singleton_eq].
  - apply Forall_replicate. intros _. unfold len.
    rewrite length_png_16mib. lia.
  - rewrite filter_is_png_replicate by done.
    rewrite sum_list_with_replicate, length_png_16mib. lia.
  - split; [by apply reachable_top|].
      unfold big_dir. by rewrite lookup_singleton_ne.
Defined.

(** X5: no file other than the output file is created, changed or
    removed by either encoder, however the run ends. *)
Theorem only_output_file_changes (fs : fsys) png_files output_file q :
  q <> output_file ->
  (create_icns png_files output_file fs).2 !! q = fs !! q
  /\ (create_ico png_files output_file fs).2 !! q = fs !! q.
Proof.
  intros Hq. split.
  - destruct (create_icns_cases fs png_files output_file)
      as [[e ->]|[(bufs & _ & _ & _ & _ & ->)|(bufs & _ & _ & _ & _ & ->)]];
      simpl; by rewrite ?lookup_insert_ne.
  - destruct (create_ico_cases fs png_files output_file)
      as [[e ->]|[(bufs & _ & _ & ->)|(bufs & _ & _ & _ & _ & _ & _ & ->)]];
      simpl; by rewrite ?lookup_insert_ne.
Qed.

Lemma only_output_file_changes_witness :
  (create_icns ["32x32.png"; "cut.png"]%string "icon.icns"%string icon_dir).2
    !! "32x32.png"%string
  = icon_dir !! "32x32.png"%string
  /\ (create_ico ["32x32.png"; "icon.png"]%string "icon.ico"%string icon_dir).2
       !! "icon.png"%string
     = icon_dir !! "icon.png"%string.
Proof.
  split.
  - apply (only_output_file_changes icon_dir _ "icon.icns"%string). discriminate.
  - apply (only_output_file_changes icon_dir _ "icon.ico"%string). discriminate.
Defined.

(** X6: when all input files exist, [create_icns] returns normally
    exactly when every buffer that starts with the PNG signature has at
    least 20 bytes, the total length, 8 plus 8 and the payload length
    for each, stays below [2 ^ 32], and the output file can be opened
    for writing. *)
Theorem create_icns_returns_iff (fs : fsys) png_files bufs output_file :
  holds fs png_files bufs ->
  (create_icns png_files output_file fs).1 = Return tt
  <-> Forall (fun data => (20 <= length data)%nat) (filter is_png bufs)
      /\ 8 + Z.of_nat (sum_list_with (fun data => 8 + length data)%nat
                         (filter is_png bufs)) < 2 ^ 32
      /\ writable fs output_file.
Proof.
  intros Hin. split.
  - intros Hrun.
    destruct (create_icns png_files output_file fs) as [r fs'] eqn:Hrun'.
    simpl in Hrun. subst r.
    destruct (create_icns_Return _ _ bufs _ _ Hin Hrun') as (Hok & Hfit & Hout & _).
    split_and!; [|exact Hfit|exact Hout].
    eapply Forall_impl; [exact Hok|]. by intros data [Hlen _].
  - intros (Hlen & Htotal & Hout).
    rewrite (create_icns_kept _ _ bufs); [|done| |done].
    + cbv zeta. by rewrite decide_True by done.
    + apply Forall_forall. intros data Hdata Hsig.
      assert (data ∈ filter is_png bufs) as Hkept by by apply list_elem_of_filter.
      split; [by rewrite Forall_forall in Hlen; apply Hlen|].
      apply sum_encodable in Hkept. unfold len. lia.
Qed.

Lemma create_icns_returns_iff_witness :
  (create_icns ["32x32.png"; "icon.svg"; "icon.png"]%string "icon.icns"%string
     icon_dir).1 = Return tt
  /\ ~ (create_icns ["32x32.png"; "cut.png"]%string "icon.icns"%string
          icon_dir).1 = Return tt
  /\ ~ (create_icns ["32x32.png"; "icon.svg"; "icon.png"]%string
          "nodir/icon.icns"%string icon_dir).1 = Return tt.
Proof.
  split_and!.
  - apply (create_icns_returns_iff icon_dir _
             [png_stub 32 32 []; list_byte_of_string "<svg/>";
              png_stub 512 512 [x02; x03]]).
    + evaluate.
    + split_and!; [|vm_compute; reflexivity|evaluate].
      repeat first [apply Forall_nil_2 | apply Forall_cons_2]; vm_compute; lia.
  - intros Hrun.
    apply (create_icns_returns_iff icon_dir _
             [png_stub 32 32 []; PNG_SIGNATURE]) in Hrun as [Hlen _].
    + apply Forall_cons in Hlen as [_ Hlen].
      apply Forall_cons in Hlen as [Hcut _]. vm_compute in Hcut. lia.
    + evaluate.
  - intros Hrun.
    apply (create_icns_returns_iff icon_dir _
             [png_stub 32 32 []; list_byte_of_string "<svg/>";
              png_stub 512 512 [x02; x03]]) in Hrun as (_ & _ & Hout).
    + revert Hout. apply (bool_decide_eq_false_1 _). vm_compute. reflexivity.
    + evaluate.
Defined.

(** X7: when all input files exist, [create_ico] returns normally
    exactly when every buffer that starts with the PNG signature has at
    least 24 bytes, there are at most 65535 of them, every payload
    length and payload offset is below [2 ^ 32], and the output file can
    be opened for writing, which it need not when no buffer is kept. *)
Theorem create_ico_returns_iff (fs : fsys) png_files bufs output_file pngs :
  holds fs png_files bufs ->
  pngs = filter is_png bufs ->
  (create_ico png_files output_file fs).1 = Return tt
  <-> Forall (fun data => (24 <= length data)%nat) pngs
      /\ Z.of_nat (length pngs) <= 65535
      /\ (forall (k : nat) (data : bytes),
            pngs !! k = Some data ->
            len data < 2 ^ 32
            /\ 6 + 16 * Z.of_nat (length pngs)
               + Z.of_nat (sum_list_with length (take k pngs)) < 2 ^ 32)
      /\ (pngs = [] \/ writable fs output_file).
Proof.
  intros Hin ->. set (pngs := filter is_png bufs).
  destruct (decide (pngs = [])) as [Hnone|Hsome].
  { rewrite (create_ico_nothing _ _ bufs) by done. fold pngs. rewrite Hnone.
    split; [|done]. intros _.
    split_and!; [apply Forall_nil_2|simpl; lia|done|by left]. }
  split.
  - intros Hrun.
    destruct (create_ico png_files output_file fs) as [r fs'] eqn:Hrun'.
    simpl in Hrun. subst r.
    destruct (create_ico_Return _ _ bufs _ _ Hin Hrun' Hsome)
      as (Hok & Hcount & Hfit & Hout & _).
    fold pngs in Hok, Hcount, Hfit.
    split_and!; [exact Hok|exact Hcount| |by right].
    intros k data Hk.
    destruct (entries_fit_lookup pngs (data_start (length pngs)) k data)
      as [? ?]; [unfold data_start; lia|done|done|].
    unfold data_start in *. split; [done|lia].
  - intros (Hlen & Hcount & Hfit & [Hnone|Hout]); [done|].
    rewrite (create_ico_kept _ _ bufs); [|done| |done|done].
    + cbv zeta. fold pngs. rewrite decide_True; [done|]. split; [done|].
      apply entries_fit_of_lookup. intros k data Hk.
      destruct (Hfit k data Hk) as [? ?]. unfold data_start. split; [done|lia].
    + apply Forall_forall. intros data Hdata Hsig.
      rewrite Forall_forall in Hlen. apply Hlen. by apply list_elem_of_filter.
Qed.

Lemma create_ico_returns_iff_witness :
  ~ (create_ico (replicate (Z.to_nat 65536) "pixel.png"%string)
       "icon.ico"%string pixel_dir).1 = Return tt
  /\ ~ (create_ico ["pixel.png"%string] "nodir/icon.ico"%string pixel_dir).1
       = Return tt
  /\ (create_ico ["pixel.png"%string] "icon.ico"%string pixel_dir).1
     = Return tt.
Proof.
  split_and!.
  - intros Hrun.
    apply (create_ico_returns_iff pixel_dir _
             (replicate (Z.to_nat 65536) png_1x1) _
             (replicate (Z.to_nat 65536) png_1x1)) in Hrun
      as (_ & Hcount & _).
    + rewrite length_replicate in Hcount. lia.
    + apply holds_replicate. evaluate.
    + by rewrite filter_is_png_replicate.
  - intros Hrun.
    apply (create_ico_returns_iff pixel_dir _ [png_1x1] _ [png_1x1]) in Hrun
      as (_ & _ & _ & [Hnone|Hout]).
    + discriminate Hnone.
    + revert Hout. apply (bool_decide_eq_false_1 _). vm_compute. reflexivity.
    + evaluate.
    + reflexivity.
  - apply (create_ico_returns_iff pixel_dir _ [png_1x1] _ [png_1x1]).
    + evaluate.
    + reflexivity.
    + split_and!.
      * apply Forall_cons_2; [vm_compute; lia|apply Forall_nil_2].
      * simpl. lia.
      * intros [|k] data Hk; [|discriminate Hk].
        injection Hk as <-. vm_compute. split; reflexivity.
      * right. evaluate.
Defined.

(** X8: running an encoder again reproduces its output: when the output
    file is not among the input files and a run returns normally, a
    second run on the resulting file system returns normally and leaves
    it as it is. *)
Theorem rerun_reproduces_output (fs fs' : fsys) png_files output_file :
  output_file ∉ png_files ->
  (create_icns png_files output_file fs = (Return tt, fs') ->
   create_icns png_files output_file fs' = (Return tt, fs'))
  /\ (create_ico png_files output_file fs = (Return tt, fs') ->
      create_ico png_files output_file fs' = (Return tt, fs')).
Proof.
  intros Hout. split; intros Hrun.
  - destruct (create_icns_cases fs png_files output_file)
      as [[e He]|[(bufs & _ & _ & _ & _ & He)
                 |(bufs & Hin & Hok & Hfit & Hopen & He)]];
      rewrite He in Hrun; try discriminate Hrun.
    injection Hrun as <-.
    rewrite (create_icns_kept _ _ bufs).
    + cbv zeta. rewrite decide_True by done. by rewrite insert_insert_eq.
    + apply holds_insert_other; [done|apply Hopen|done].
    + apply Forall_forall. intros data Hdata Hsig.
      rewrite Forall_forall in Hok. apply Hok. by apply list_elem_of_filter.
    + by apply writable_insert.
  - destruct (create_ico_cases fs png_files output_file)
      as [[e He]|[(bufs & _ & _ & He)
                 |(bufs & Hin & Hsome & Hok & Hcount & Hfit & Hopen & He)]];
      rewrite He in Hrun; try discriminate Hrun.
    + injection Hrun as <-. exact He.
    + injection Hrun as <-.
      rewrite (create_ico_kept _ _ bufs).
      * cbv zeta. rewrite decide_True by done. by rewrite insert_insert_eq.
      * apply holds_insert_other; [done|apply Hopen|done].
      * apply Forall_forall. intros data Hdata Hsig.
        rewrite Forall_forall in Hok. apply Hok. by apply list_elem_of_filter.
      * done.
      * by apply writable_insert.
Qed.

Lemma rerun_reproduces_output_witness :
  create_ico ["32x32.png"; "128x128@2x.png"]%string "icon.ico"%string
    (<["icon.ico"%string :=
         File (ico_file [png_stub 32 32 []; png_stub 256 256 [x01]])]> icon_dir)
  = (Return tt,
     <["icon.ico"%string :=
         File (ico_file [png_stub 32 32 []; png_stub 256 256 [x01]])]> icon_dir).
Proof.
  apply (rerun_reproduces_output icon_dir).
  - intros Hin.
    repeat (apply elem_of_cons in Hin as [Hin|Hin]; [discriminate Hin|]).
    by apply elem_of_nil in Hin.
  - vm_compute. reflexivity.
Defined.

(** X9: [create-ico.py] prints its [Created] line whenever [create_ico]
    returns, also when it wrote nothing: with four input files of which
    none starts with the PNG signature, the script prints
    [Created src-tauri/icons/icon.ico] and the file system is as
    before, so an [icon.ico] that was there stays as it was and one that
    was not there is still missing. *)
Theorem create_ico_script_nothing_written (w : world) bufs :
  holds (files w) CreateIco.png_files bufs ->
  filter is_png bufs = [] ->
  CreateIco.script w
  = (Return tt,
     World (files w) (stdout w ++ ["Created src-tauri/icons/icon.ico"%string])).
Proof.
  intros Hin Hnone. unfold CreateIco.script, mbind, IO_bind, on_files.
  by rewrite (create_ico_nothing _ _ bufs) by done.
Qed.

Lemma create_ico_script_nothing_written_witness :
  CreateIco.script (World svg_only_dir [])
  = (Return tt,
     World svg_only_dir ["Created src-tauri/icons/icon.ico"%string])
  /\ svg_only_dir !! "src-tauri/icons/icon.ico"%string = None.
Proof.
  split; [|reflexivity].
  apply (create_ico_script_nothing_written (World svg_only_dir [])
           (replicate 4 (list_byte_of_string "<svg/>"))).
  - evaluate.
  - reflexivity.
Defined.

(** X21: an output file that cannot be opened makes a run fail that
    would go through otherwise, with what [open] raises and nothing
    written.  [create_icns] opens the file before it packs the total,
    so it raises this error also when the total would not fit;
    [create_ico] opens it last, after every field has been packed, and
    not at all when no image is kept. *)
Theorem unopenable_output_file (fs : fsys) png_files bufs output_file e pngs :
  holds fs png_files bufs ->
  pngs = filter is_png bufs ->
  cannot_write fs output_file e ->
  (e = FileNotFoundError output_file \/ e = NotADirectoryError output_file
   \/ e = IsADirectoryError output_file)
  /\ (Forall (fun data => (20 <= length data)%nat /\ 8 + len data < 2 ^ 32) pngs ->
      create_icns png_files output_file fs = (Raise e, fs))
  /\ (pngs <> [] ->
      Forall (fun data => (24 <= length data)%nat) pngs ->
      Z.of_nat (length pngs) <= 65535 ->
      (forall (k : nat) (data : bytes),
         pngs !! k = Some data ->
         len data < 2 ^ 32
         /\ 6 + 16 * Z.of_nat (length pngs)
            + Z.of_nat (sum_list_with length (take k pngs)) < 2 ^ 32) ->
      create_ico png_files output_file fs = (Raise e, fs))
  /\ (pngs = [] -> create_ico png_files output_file fs = (Return tt, fs)).
Proof.
  intros Hin -> Hout. split_and!.
  - destruct Hout as [e [| |]|]; tauto.
  - intros Hok. apply (create_icns_blocked _ _ bufs); [done| |done].
    apply Forall_forall. intros data Hdata Hsig.
    rewrite Forall_forall in Hok. apply Hok. by apply list_elem_of_filter.
  - intros Hsome Hlen Hcount Hfit.
    rewrite (create_ico_blocked _ _ bufs _ e); [|done| |done|done].
    + cbv zeta. rewrite decide_True; [done|]. split; [done|].
      apply entries_fit_of_lookup. intros k data Hk.
      destruct (Hfit k data Hk) as [? ?]. unfold data_start. split; [done|lia].
    + apply Forall_forall. intros data Hdata Hsig.
      rewrite Forall_forall in Hlen. apply Hlen. by apply list_elem_of_filter.
  - intros Hnone. by apply (create_ico_nothing _ _ bufs).
Qed.

Lemma unopenable_output_file_witness :
  create_icns ["32x32.png"; "icon.svg"]%string "nodir/icon.icns"%string icon_dir
  = (Raise (FileNotFoundError "nodir/icon.icns"), icon_dir)
  /\ create_ico ["32x32.png"; "icon.svg"]%string "build"%string icon_dir
     = (Raise (IsADirectoryError "build"), icon_dir)
  /\ create_ico ["icon.svg"%string] "nodir/icon.ico"%string icon_dir
     = (Return tt, icon_dir).
Proof.
  split_and!.
  - apply (unopenable_output_file icon_dir _
             [png_stub 32 32 []; list_byte_of_string "<svg/>"] _ _
             [png_stub 32 32 []]).
    + evaluate.
    + reflexivity.
    + apply cannot_write_unreachable.
      by apply (unreachable_missing _ _ [] "nodir"%string []).
    + apply Forall_cons_2; [|apply Forall_nil_2]. vm_compute.
      split; [lia|reflexivity].
  - apply (unopenable_output_file icon_dir _
             [png_stub 32 32 []; list_byte_of_string "<svg/>"] _ _
             [png_stub 32 32 []]).
    + evaluate.
    + reflexivity.
    + apply cannot_write_directory; [evaluate|reflexivity].
    + discriminate.
    + apply Forall_cons_2; [|apply Forall_nil_2]. vm_compute. lia.
    + simpl. lia.
    + intros [|k] data Hk; [|discriminate Hk].
      injection Hk as <-. vm_compute. split; reflexivity.
  - apply (unopenable_output_file icon_dir _ [list_byte_of_string "<svg/>"] _
             (FileNotFoundError "nodir/icon.ico") []).
    + evaluate.
    + reflexivity.
    + apply cannot_write_unreachable.
      by apply (unreachable_missing _ _ [] "nodir"%string []).
    + reflexivity.
Defined.

End EncoderExtras.

(** ** generate-icons.py *)

Module GenerateIconsFacts.
Import GenerateIcons GenerateIconsSpec.

Lemma for_range_inr {S} (f : S -> S) (body : S -> error + S) n :
  (forall s, body s = inr (f s)) ->
  forall s, for_range n body s = inr (Nat.iter n f s).
Proof.
  intros Hbody. induction n as [|n IH]; intros s; [done|].
  cbn [for_range]. rewrite Hbody, IH. by rewrite Nat.iter_succ_r.
Qed.

Lemma iter_append (chunk : bytes) n : forall raw,
  Nat.iter n (fun raw => raw ++ chunk) raw = raw ++ concat (replicate n chunk).
Proof.
  induction n as [|n IH]; intros raw.
  - cbn [Nat.iter replicate concat]. by rewrite app_nil_r.
  - rewrite Nat.iter_succ_r, IH. cbn [replicate concat].
    by rewrite <- app_assoc.
Qed.

Lemma forallb_byte_range (vals : list Z) :
  forallb (fun v => (0 <=? v) && (v <? 256)) vals = true
  <-> Forall (fun v => 0 <= v < 256) vals.
Proof.
  induction vals as [|v vals IH]; simpl.
  - split; [intros _; apply Forall_nil_2|done].
  - rewrite andb_true_iff, andb_true_iff, Z.leb_le, Z.ltb_lt, IH, Forall_cons.
    tauto.
Qed.

(** What [create_simple_png] returns, in every case. *)
Lemma create_simple_png_cases width height color :
  create_simple_png width height color
  = if decide (Forall (fun v => 0 <= v < 256) color \/ width <= 0 \/ height <= 0)
    then inr (PNG_SIGNATURE
              ++ concat (replicate (Z.to_nat height) (row width color)))
    else inl ValueError.
Proof.
  unfold create_simple_png. cbv zeta.
  destruct (decide (Forall (fun v => 0 <= v < 256) color)) as [Hcolor|Hcolor].
  - rewrite decide_True by tauto.
    rewrite (for_range_inr (fun raw => raw ++ row width color)).
    + by rewrite iter_append.
    + intros raw.
      rewrite (for_range_inr
                 (fun raw => raw ++ ((byte.of_Z <$> color) ++ [xff]))).
      * rewrite iter_append. unfold row. by rewrite <- app_assoc.
      * intros raw'. unfold bytearray_extend.
        apply forallb_byte_range in Hcolor. rewrite Hcolor.
        by rewrite <- app_assoc.
  - destruct (Z.to_nat height) as [|h] eqn:Hh.
    { rewrite decide_True by lia. done. }
    destruct (Z.to_nat width) as [|w] eqn:Hw.
    { rewrite decide_True by lia.
      rewrite (for_range_inr (fun raw => raw ++ row width color)).
      - by rewrite iter_append.
      - intros raw. unfold row. by rewrite Hw. }
    rewrite decide_False by (intros [?|?]; [done|lia]). cbn [for_range].
    unfold bytearray_extend.
    destruct (forallb _ color) eqn:Hb; [|done].
    by apply forallb_byte_range in Hb.
Qed.

End GenerateIconsFacts.

Module PipelineFacts.
Import Icns Ico IcnsSpec IcoSpec IcnsFacts IcoFacts EncoderFacts GenerateIcons.

(** Two inputs that keep the same PNG buffers run alike. *)
Lemma create_icns_agree fs files1 bufs1 files2 bufs2 output_file :
  holds fs files1 bufs1 -> holds fs files2 bufs2 ->
  filter is_png bufs1 = filter is_png bufs2 ->
  create_icns files1 output_file fs = create_icns files2 output_file fs.
Proof.
  intros Hin1 Hin2 Hsame.
  destruct (kept_files_exist fs files1 bufs1 Hin1) as (kept & _ & Hkept).
  unfold create_icns. unfold_monad.
  rewrite (read_entries_kept fs files1 bufs1 Hin1 kept) by done.
  rewrite Hsame in Hkept.
  by rewrite (read_entries_kept fs files2 bufs2 Hin2 kept).
Qed.

Lemma create_ico_agree fs files1 bufs1 files2 bufs2 output_file :
  holds fs files1 bufs1 -> holds fs files2 bufs2 ->
  filter is_png bufs1 = filter is_png bufs2 ->
  create_ico files1 output_file fs = create_ico files2 output_file fs.
Proof.
  intros Hin1 Hin2 Hsame.
  destruct (kept_files_exist fs files1 bufs1 Hin1) as (kept & _ & Hkept).
  unfold create_ico. unfold_monad.
  rewrite (read_images_kept fs files1 bufs1 Hin1 kept) by done.
  rewrite Hsame in Hkept.
  by rewrite (read_images_kept fs files2 bufs2 Hin2 kept).
Qed.


Lemma length_concat_replicate (chunk : bytes) n :
  length (concat (replicate n chunk)) = (n * length chunk)%nat.
Proof.
  induction n as [|n IH]; [done|].
  cbn [replicate concat]. rewrite length_app, IH. lia.
Qed.

(** [os.makedirs(ICON_DIR, exist_ok=True)] looks at two names. *)
Lemma makedirs_icon_dir :
  makedirs ICON_DIR = make_each ["src-tauri"; "src-tauri/icons"]%string.
Proof. reflexivity. Qed.

Lemma makedirs_icon_dir_made (fs : fsys) :
  no_file_at fs "src-tauri" -> no_file_at fs "src-tauri/icons" ->
  makedirs ICON_DIR fs
  = (Return tt,
     <["src-tauri/icons"%string := Dir]> (<["src-tauri"%string := Dir]> fs)).
Proof.
  intros Htop Hicons. rewrite makedirs_icon_dir. cbn [make_each].
  assert (forall fs1 : fsys,
            no_file_at fs1 "src-tauri/icons" ->
            match fs1 !! "src-tauri/icons"%string with
            | Some (File _) =>
                (Raise (FileExistsError "src-tauri/icons"), fs1)
            | Some Dir => ret tt fs1
            | None => ret tt (<["src-tauri/icons"%string := Dir]> fs1)
            end
            = (Return tt, <["src-tauri/icons"%string := Dir]> fs1)) as Hlast.
  { intros fs1 [H|H]; rewrite H; [done|]. by rewrite insert_id. }
  destruct Htop as [Htop|Htop]; rewrite Htop.
  - apply Hlast. unfold no_file_at. by rewrite !lookup_insert_ne.
  - rewrite (insert_id fs "src-tauri"%string Dir) by done. by apply Hlast.
Qed.

(** With both directories there, it does nothing. *)
Lemma makedirs_icon_dir_there (fs : fsys) :
  fs !! "src-tauri"%string = Some Dir ->
  fs !! "src-tauri/icons"%string = Some Dir ->
  makedirs ICON_DIR fs = (Return tt, fs).
Proof.
  intros Htop Hicons. rewrite makedirs_icon_dir_made by by right.
  rewrite (insert_id fs "src-tauri"%string Dir) by done. by rewrite insert_id.
Qed.

End PipelineFacts.

Section GenerateIconsExtras.
Import Icns Ico GenerateIcons GenerateIconsSpec GenerateIconsFacts PipelineFacts.

(** X10: for a colour made of byte values, [create_simple_png] returns
    the PNG signature followed by [height] rows, each a zero byte and
    then the colour and the byte 255 for each of [width] pixels: no
    chunk, no header, nothing compressed.  The result passes the
    encoders' signature test and is [8 + height * (1 + width * (n + 1))]
    bytes long for a colour of [n] values, with negative sizes counting
    as zero. *)
Theorem create_simple_png_bytes width height color :
  Forall (fun v => 0 <= v < 256) color ->
  exists data : bytes,
    create_simple_png width height color = inr data
    /\ data
       = PNG_SIGNATURE
         ++ concat (replicate (Z.to_nat height)
                      (x00 :: concat (replicate (Z.to_nat width)
                                        ((byte.of_Z <$> color) ++ [xff]))))
    /\ is_png data
    /\ len data
       = 8 + Z.max 0 height
             * (1 + Z.max 0 width * (Z.of_nat (length color) + 1)).
Proof.
  intros Hcolor. eexists. split_and!.
  - rewrite create_simple_png_cases. by rewrite decide_True by tauto.
  - done.
  - done.
  - unfold len. rewrite length_app, length_concat_replicate. unfold row.
    cbn [length]. rewrite length_concat_replicate, length_app, length_fmap.
    cbn [length].
    rewrite Nat2Z.inj_add, Nat2Z.inj_mul, Nat2Z.inj_succ, Nat2Z.inj_mul,
      Nat2Z.inj_add.
    assert (Z.of_nat (Z.to_nat height) = Z.max 0 height) as -> by lia.
    assert (Z.of_nat (Z.to_nat width) = Z.max 0 width) as -> by lia.
    simpl. lia.
Qed.

Lemma create_simple_png_bytes_witness :
  exists data : bytes,
    create_simple_png 32 32 default_color = inr data
    /\ is_png data /\ len data = 4136.
Proof.
  destruct (create_simple_png_bytes 32 32 default_color)
    as (data & Hrun & _ & Hsig & Hlen).
  - repeat first [apply Forall_nil_2 | apply Forall_cons_2]; lia.
  - exists data. split_and!; [exact Hrun|exact Hsig|exact Hlen].
Defined.

(** X11: [create_simple_png] raises [ValueError] exactly when a colour
    value is not a byte and there is a pixel to draw, that is, when both
    sizes are positive; with no pixel, a colour out of range goes
    unnoticed. *)
Theorem create_simple_png_error_iff width height color :
  create_simple_png width height color = inl ValueError
  <-> 0 < width /\ 0 < height /\ ~ Forall (fun v => 0 <= v < 256) color.
Proof.
  rewrite create_simple_png_cases. destruct (decide _) as [Hok|Hbad].
  - split; [done|]. intros (Hw & Hh & Hcolor). exfalso.
    destruct Hok as [?|[?|?]]; [done|lia|lia].
  - split; [|done]. intros _. split_and!; [lia|lia|tauto].
Qed.

Lemma create_simple_png_error_iff_witness :
  create_simple_png 2 2 [0; 102; 256] = inl ValueError
  /\ create_simple_png 0 2 [0; 102; 256] <> inl ValueError.
Proof.
  split.
  - apply create_simple_png_error_iff. split_and!; [lia|lia|].
    intros Hcolor. do 2 apply Forall_cons in Hcolor as [_ Hcolor].
    apply Forall_cons in Hcolor as [Hv _]. lia.
  - intros Herr. apply create_simple_png_error_iff in Herr as (Hw & _). lia.
Defined.



End GenerateIconsExtras.

Section PipelineExtras.
Import Icns Ico GenerateIcons EncoderFacts PipelineFacts.

(** X13: what [main] does before it copies.  It first makes the
    directories: a regular file named [src-tauri], or one named
    [src-tauri/icons], makes [os.makedirs] raise before a line is
    printed.  Otherwise both directories are there afterwards, and
    without an [icon.svg] in the working directory [main] raises
    [FileNotFoundError] from the copy, after its nine lines of notes
    have been printed: the directories made stay, no file is created
    and the two closing lines are not printed. *)
Theorem main_without_svg (w : world) :
  (forall content,
     files w !! "src-tauri"%string = Some (File content) ->
     main w
     = (Raise (NotADirectoryError "src-tauri/icons"),
        World (files w) (stdout w)))
  /\ (forall content,
        files w !! "src-tauri"%string = Some Dir ->
        files w !! "src-tauri/icons"%string = Some (File content) ->
        main w
        = (Raise (FileExistsError "src-tauri/icons"),
           World (files w) (stdout w)))
  /\ (no_file_at (files w) "src-tauri" ->
      no_file_at (files w) "src-tauri/icons" ->
      files w !! "icon.svg"%string = None ->
      main w
      = (Raise (FileNotFoundError "icon.svg"),
         World (<["src-tauri/icons"%string := Dir]>
                  (<["src-tauri"%string := Dir]> (files w)))
           (stdout w
            ++ [ "Creating icons...";
                 "Icons will be saved to: src-tauri/icons";
                 EmptyString;
                 "Note: For production, please install ImageMagick and run:";
                 "  ./generate-icons.sh";
                 EmptyString;
                 "Or use the Tauri CLI:";
                 "  npx @tauri-apps/cli icon icon.svg";
                 EmptyString ]%string))).
Proof.
  split_and!.
  - intros content Htop. unfold main, mbind, IO_bind, on_files.
    rewrite makedirs_icon_dir. cbn [make_each]. by rewrite Htop.
  - intros content Htop Hicons. unfold main, mbind, IO_bind, on_files.
    rewrite makedirs_icon_dir. cbn [make_each]. unfold_monad.
    by rewrite Htop, Hicons.
  - intros Htop Hicons Hsvg. unfold main, mbind, IO_bind, on_files, print.
    rewrite makedirs_icon_dir_made by done. cbn [files stdout].
    set (fs := <["src-tauri/icons"%string := Dir]>
                 (<["src-tauri"%string := Dir]> (files w))).
    assert (cannot_read fs "icon.svg" (FileNotFoundError "icon.svg")) as Hread.
    { apply cannot_read_missing; [by apply reachable_top|].
      unfold fs. by rewrite !lookup_insert_ne. }
    unfold shutil_copy. cbv zeta.
    assert (forall dst : string,
              (data ← read_file "icon.svg"; open_wb dst;; write dst data) fs
              = (Raise (FileNotFoundError "icon.svg"), fs)) as Hcopy.
    { intros dst. erewrite bind_Raise; [done|]. by apply read_file_cannot. }
    destruct (isdir fs _); rewrite bool_decide_eq_false_2 by done;
      cbn [andb]; rewrite Hcopy; by rewrite <- !app_assoc.
Qed.

Lemma main_without_svg_witness :
  main (World (<["src-tauri"%string := File []]> icon_dir) [])
  = (Raise (NotADirectoryError "src-tauri/icons"),
     World (<["src-tauri"%string := File []]> icon_dir) [])
  /\ (main (World (delete "icon.svg"%string icon_dir) [])).1
     = Raise (FileNotFoundError "icon.svg")
  /\ files (main (World (delete "icon.svg"%string icon_dir) [])).2
       !! "src-tauri/icons"%string
     = Some Dir
  /\ length (stdout (main (World (delete "icon.svg"%string icon_dir) [])).2)
     = 9%nat.
Proof.
  destruct (main_without_svg
              (World (<["src-tauri"%string := File []]> icon_dir) []))
    as (Hfile & _ & _).
  destruct (main_without_svg (World (delete "icon.svg"%string icon_dir) []))
    as (_ & _ & Hmade).
  split.
  - apply (Hfile []). reflexivity.
  - rewrite Hmade by (first [by left | reflexivity]).
    split_and!; reflexivity.
Defined.

(** X14: [main] makes no PNG: on return, [src-tauri/icons/icon.png] is
    a byte-for-byte copy of [icon.svg].  So unless [icon.svg] itself
    starts with the PNG signature, both encoders, run on the four paths
    of their scripts, pass over [icon.png] and do what they do on the
    three other files alone.  This is for an [icon.png] that is not a
    directory; into a directory of that name, [shutil.copy] would put
    the copy under the name [icon.svg]. *)
Theorem placeholder_icon_passed_over (w : world) svg bufs :
  file_at (files w) "icon.svg" svg ->
  ~ is_png svg ->
  holds (files w)
    ["src-tauri/icons/32x32.png"; "src-tauri/icons/128x128.png";
     "src-tauri/icons/128x128@2x.png"]%string bufs ->
  files w !! "src-tauri/icons/icon.png"%string <> Some Dir ->
  exists w' : world,
    main w = (Return tt, w')
    /\ files w' = <["src-tauri/icons/icon.png"%string := File svg]> (files w)
    /\ create_icns CreateIcns.png_files "src-tauri/icons/icon.icns" (files w')
       = create_icns
           ["src-tauri/icons/32x32.png"; "src-tauri/icons/128x128.png";
            "src-tauri/icons/128x128@2x.png"]%string
           "src-tauri/icons/icon.icns" (files w')
    /\ create_ico CreateIco.png_files "src-tauri/icons/icon.ico" (files w')
       = create_ico
           ["src-tauri/icons/32x32.png"; "src-tauri/icons/128x128.png";
            "src-tauri/icons/128x128@2x.png"]%string
           "src-tauri/icons/icon.ico" (files w').
Proof.
  intros Hsvg Hsig Hin Hpng.
  set (three := ["src-tauri/icons/32x32.png"; "src-tauri/icons/128x128.png";
                 "src-tauri/icons/128x128@2x.png"]%string) in *.
  set (fs' := <["src-tauri/icons/icon.png"%string := File svg]> (files w)).
  assert (files w !! "src-tauri"%string = Some Dir
          /\ files w !! "src-tauri/icons"%string = Some Dir) as [Htop Hicons].
  { apply Forall2_cons_inv_l in Hin as (data & bufs' & [[_ Hdirs] _] & _ & _).
    change (dirs "src-tauri/icons/32x32.png")
      with ["src-tauri"; "src-tauri/icons"]%string in Hdirs.
    apply Forall_cons in Hdirs as [Htop Hdirs].
    by apply Forall_cons in Hdirs as [Hicons _]. }
  assert (writable (files w) "src-tauri/icons/icon.png") as Hout.
  { split; [|done]. split; [done|].
    change (dirs "src-tauri/icons/icon.png")
      with ["src-tauri"; "src-tauri/icons"]%string.
    repeat first [apply Forall_nil_2 | apply Forall_cons_2]; done. }
  assert (holds fs' three bufs) as Hthree.
  { apply holds_insert_other; [|done|done]. intros Hmem.
    repeat (apply elem_of_cons in Hmem as [Hmem|Hmem]; [discriminate Hmem|]).
    by apply elem_of_nil in Hmem. }
  assert (holds fs' (three ++ ["src-tauri/icons/icon.png"%string]) (bufs ++ [svg]))
    as Hfour.
  { apply Forall2_app; [done|]. apply Forall2_cons_2; [|apply Forall2_nil_2].
    split; [by apply reachable_insert; [|apply Hout]|apply lookup_insert_eq]. }
  assert (filter is_png (bufs ++ [svg]) = filter is_png bufs) as Hkept.
  { rewrite filter_app, filter_cons_False, filter_nil by done.
    apply app_nil_r. }
  eexists. split_and!.
  - unfold main, mbind, IO_bind, on_files, print.
    rewrite makedirs_icon_dir_there by done. cbn [files stdout].
    unfold shutil_copy. cbv zeta.
    assert (isdir (files w) (ICON_DIR +:+ "/icon.png") = false) as ->.
    { unfold isdir. rewrite lookup_path_reachable by apply Hout.
      change (ICON_DIR +:+ "/icon.png")%string with "src-tauri/icons/icon.png"%string.
      by destruct (files w !! "src-tauri/icons/icon.png"%string) as [[c|]|]. }
    rewrite bool_decide_eq_false_2 by done. cbn [andb].
    erewrite bind_Return by by apply read_file_Some.
    unfold_monad.
    change (ICON_DIR +:+ "/icon.png")%string with "src-tauri/icons/icon.png"%string.
    rewrite open_wb_writable by done. rewrite write_insert. reflexivity.
  - reflexivity.
  - cbn [files]. by apply (create_icns_agree fs' _ (bufs ++ [svg]) _ bufs).
  - cbn [files]. by apply (create_ico_agree fs' _ (bufs ++ [svg]) _ bufs).
Qed.

Lemma placeholder_icon_passed_over_witness :
  exists w' : world,
    main (World (<["icon.svg"%string := File (list_byte_of_string "<svg/>")]>
                   svg_only_dir) [])
    = (Return tt, w')
    /\ files w' !! "src-tauri/icons/icon.png"%string
       = Some (File (list_byte_of_string "<svg/>")).
Proof.
  destruct (placeholder_icon_passed_over
              (World (<["icon.svg"%string := File (list_byte_of_string "<svg/>")]>
                        svg_only_dir) [])
              (list_byte_of_string "<svg/>")
              (replicate 3 (list_byte_of_string "<svg/>")))
    as (w' & Hmain & Hfiles & _).
  - evaluate.
  - discriminate.
  - evaluate.
  - discriminate.
  - exists w'. split; [exact Hmain|]. rewrite Hfiles. apply lookup_insert_eq.
Defined.

End PipelineExtras.

(** ** update_settings.py *)

Module UpdateSettingsFacts.
Import UpdateSettings.

(** *** Searching *)

(** [find_at] returns the first place where [sub] starts. *)
Lemma find_at_Some sub s : forall k i,
  find_at sub s k = Some i ->
  exists j, i = (k + j)%nat /\ (j <= length s)%nat
            /\ sub `prefix_of` drop j s
            /\ forall m, (m < j)%nat -> ~ sub `prefix_of` drop m s.
Proof.
  induction s as [|c s IH]; intros k i Hfind; simpl in Hfind.
  - destruct (decide (sub `prefix_of` [])) as [Hp|Hp]; [|done].
    injection Hfind as <-. exists 0%nat. split_and!; [lia|done|done|lia].
  - destruct (decide (sub `prefix_of` c :: s)) as [Hp|Hp].
    + injection Hfind as <-. exists 0%nat. split_and!; [lia|simpl; lia|done|lia].
    + destruct (IH _ _ Hfind) as (j & -> & Hj & Hat & Hfirst).
      exists (S j). split_and!; [lia|simpl; lia|done|].
      intros [|m] Hm; [done|]. simpl. apply Hfirst. lia.
Qed.

Lemma find_at_None sub s : forall k,
  find_at sub s k = None ->
  forall m, ~ sub `prefix_of` drop m s.
Proof.
  induction s as [|c s IH]; intros k Hfind m; simpl in Hfind.
  - destruct (decide (sub `prefix_of` [])) as [Hp|Hp]; [done|].
    by rewrite drop_nil.
  - destruct (decide (sub `prefix_of` c :: s)) as [Hp|Hp]; [done|].
    destruct m as [|m]; [done|]. simpl. by eapply IH.
Qed.

Lemma find_at_first sub s j : forall k,
  (j <= length s)%nat ->
  sub `prefix_of` drop j s ->
  (forall m, (m < j)%nat -> ~ sub `prefix_of` drop m s) ->
  find_at sub s k = Some (k + j)%nat.
Proof.
  revert s. induction j as [|j IH]; intros s k Hj Hat Hfirst.
  - rewrite drop_0 in Hat. destruct s; simpl; rewrite decide_True by done;
      f_equal; lia.
  - destruct s as [|c s]; [simpl in Hj; lia|]. simpl.
    rewrite decide_False by (apply (Hfirst 0%nat); lia).
    rewrite (IH s (S k)); [f_equal; lia|simpl in Hj; lia|done|].
    intros m Hm. apply (Hfirst (S m)). lia.
Qed.

(** An occurrence anywhere means that the search finds something. *)
Lemma find_at_occurs sub (a b : str) k :
  exists i, find_at sub (a ++ sub ++ b) k = Some i.
Proof.
  destruct (find_at sub (a ++ sub ++ b) k) as [i|] eqn:Hfind; [by exists i|].
  exfalso. apply (find_at_None _ _ _ Hfind (length a)).
  rewrite drop_app_length. by apply prefix_app_r.
Qed.

Lemma str_find_0 (s sub : str) :
  str_find s sub 0
  = match find_at sub s 0 with Some i => Z.of_nat i | None => -1 end.
Proof.
  unfold str_find. cbv zeta. change (0 <? 0) with false. cbv iota.
  destruct (Z.ltb_spec (Z.of_nat (length s)) 0) as [?|_]; [lia|done].
Qed.

Lemma str_find_from (s sub : str) (i : nat) :
  (i <= length s)%nat ->
  str_find s sub (Z.of_nat i)
  = match find_at sub (drop i s) i with Some k => Z.of_nat k | None => -1 end.
Proof.
  intros Hi. unfold str_find. cbv zeta.
  destruct (Z.ltb_spec (Z.of_nat i) 0) as [?|_]; [lia|].
  destruct (Z.ltb_spec (Z.of_nat (length s)) (Z.of_nat i)) as [?|_]; [lia|].
  by rewrite Nat2Z.id.
Qed.

Lemma str_contains_false (s sub : str) :
  str_contains s sub = false <-> find_at sub s 0 = None.
Proof.
  unfold str_contains. rewrite str_find_0.
  destruct (find_at sub s 0) as [i|]; simpl.
  - destruct (Z.eqb_spec (Z.of_nat i) (-1)); [lia|]. simpl. split; done.
  - done.
Qed.

Lemma str_contains_occurs (a sub b : str) :
  str_contains (a ++ sub ++ b) sub = true.
Proof.
  destruct (str_contains (a ++ sub ++ b) sub) eqn:Hc; [done|].
  apply str_contains_false in Hc.
  destruct (find_at_occurs sub a b 0) as [i Hi]. congruence.
Qed.

(** *** Replacing *)

Lemma replace_from_skip old new s : forall k,
  replace_from old new s k = replace_from old new (drop k s) 0.
Proof.
  induction s as [|c s IH]; intros k.
  - by rewrite drop_nil.
  - destruct k as [|k]; [done|]. simpl. apply IH.
Qed.

Lemma replace_from_match old new s :
  old <> [] -> old `prefix_of` s ->
  replace_from old new s 0
  = new ++ replace_from old new (drop (length old) s) 0.
Proof.
  intros Hold Hp. destruct s as [|c s].
  - apply prefix_nil_inv in Hp. done.
  - simpl replace_from. rewrite decide_True by done.
    rewrite replace_from_skip. do 2 f_equal.
    destruct old as [|o old]; [done|]. simpl. by rewrite Nat.sub_0_r.
Qed.

Lemma replace_from_no_match old new c s :
  ~ old `prefix_of` c :: s ->
  replace_from old new (c :: s) 0 = c :: replace_from old new s 0.
Proof. intros Hp. simpl. by rewrite decide_False. Qed.

(** Up to the first occurrence nothing changes. *)
Lemma replace_from_first old new i : forall s,
  old <> [] ->
  old `prefix_of` drop i s ->
  (forall m, (m < i)%nat -> ~ old `prefix_of` drop m s) ->
  replace_from old new s 0
  = take i s ++ new ++ replace_from old new (drop (i + length old) s) 0.
Proof.
  induction i as [|i IH]; intros s Hold Hat Hfirst.
  - rewrite drop_0 in Hat. by rewrite replace_from_match.
  - destruct s as [|c s].
    { rewrite drop_nil in Hat. apply prefix_nil_inv in Hat. done. }
    rewrite replace_from_no_match by (apply (Hfirst 0%nat); lia).
    simpl. f_equal. apply IH; [done|done|].
    intros m Hm. apply (Hfirst (S m)). lia.
Qed.

(** Without an occurrence nothing changes at all. *)
Lemma replace_from_absent old new s :
  (forall m, ~ old `prefix_of` drop m s) ->
  replace_from old new s 0 = s.
Proof.
  induction s as [|c s IH]; intros Habsent; [done|].
  rewrite replace_from_no_match by apply (Habsent 0%nat).
  f_equal. apply IH. intros m. apply (Habsent (S m)).
Qed.

Lemma str_replace_nonempty (s old new : str) :
  old <> [] -> str_replace s old new = replace_from old new s 0.
Proof. intros Hold. by destruct old. Qed.

Lemma str_replace_absent (s old new : str) :
  old <> [] -> str_contains s old = false -> str_replace s old new = s.
Proof.
  intros Hold Hc. rewrite str_replace_nonempty by done.
  apply replace_from_absent. apply str_contains_false in Hc.
  by eapply find_at_None.
Qed.

(** Replacing a text by itself changes nothing. *)
Lemma replace_from_same old n : forall s,
  (length s <= n)%nat -> old <> [] -> replace_from old old s 0 = s.
Proof.
  induction n as [|n IH]; intros s Hn Hold.
  - destruct s; [done|simpl in Hn; lia].
  - destruct s as [|c s]; [done|].
    destruct (decide (old `prefix_of` c :: s)) as [Hp|Hp].
    + rewrite replace_from_match by done.
      destruct Hp as [rest Hrest]. rewrite Hrest, drop_app_length.
      rewrite IH; [done| |done].
      apply (f_equal length) in Hrest. rewrite length_app in Hrest.
      simpl in *. destruct old; [done|]. simpl in Hrest. lia.
    + rewrite replace_from_no_match by done. f_equal.
      apply IH; [simpl in Hn; lia|done].
Qed.

End UpdateSettingsFacts.

Module UpdateSettingsSteps.
Import UpdateSettings UpdateSettingsFacts.

Lemma str_find_0_Some (s sub : str) (i : nat) :
  str_find s sub 0 = Z.of_nat i -> find_at sub s 0 = Some i.
Proof.
  rewrite str_find_0. destruct (find_at sub s 0) as [k|]; [|lia].
  intros Hk. f_equal. lia.
Qed.

Lemma str_slice_inside (s : str) (i j : nat) :
  (i <= length s)%nat -> (j <= length s)%nat ->
  str_slice s (Z.of_nat i) (Z.of_nat j) = take (j - i) (drop i s).
Proof.
  intros Hi Hj. unfold str_slice. cbv zeta.
  destruct (Z.ltb_spec (Z.of_nat i) 0) as [?|_]; [lia|].
  destruct (Z.ltb_spec (Z.of_nat j) 0) as [?|_]; [lia|].
  rewrite !Z.min_l by lia. by rewrite !Nat2Z.id.
Qed.

Lemma str_contains_at (s sub : str) m :
  sub `prefix_of` drop m s -> str_contains s sub = true.
Proof.
  intros Hat. destruct (str_contains s sub) eqn:Hc; [done|].
  apply str_contains_false in Hc. by apply (find_at_None _ _ _ Hc) in Hat.
Qed.

Lemma str_contains_true (s sub : str) :
  str_contains s sub = true ->
  exists i, sub `prefix_of` drop i s
            /\ forall m, (m < i)%nat -> ~ sub `prefix_of` drop m s.
Proof.
  intros Hc. destruct (find_at sub s 0) as [i|] eqn:Hfind.
  - apply find_at_Some in Hfind as (j & -> & _ & Hat & Hfirst). by exists j.
  - apply str_contains_false in Hfind. congruence.
Qed.

(** After replacing a marker that occurs, whatever the replacement
    contains is in the text. *)
Lemma str_contains_replaced (s old new sub : str) m :
  old <> [] ->
  str_contains s old = true ->
  (m <= length new)%nat ->
  sub `prefix_of` drop m new ->
  str_contains (str_replace s old new) sub = true.
Proof.
  intros Hold Hc Hm Hsub. apply str_contains_true in Hc as (i & Hat & Hfirst).
  rewrite str_replace_nonempty by done.
  rewrite (replace_from_first old new i) by done.
  apply (str_contains_at _ _ (length (take i s) + m)).
  rewrite drop_app_add, drop_app.
  destruct Hsub as [k Hk]. rewrite Hk.
  replace (m - length new)%nat with 0%nat by lia.
  rewrite drop_0, <- app_assoc. by apply prefix_app_r.
Qed.

Lemma length_flat_map_cons (new s : str) :
  length (flat_map (fun c => c :: new) s) = (length s * S (length new))%nat.
Proof.
  induction s as [|c s IH]; [done|].
  cbn [flat_map]. rewrite length_app, IH. simpl. lia.
Qed.

Lemma prefix_take_iff (p l : str) : p `prefix_of` l <-> take (length p) l = p.
Proof.
  split.
  - intros [k ->]. by rewrite take_app_length.
  - intros <-. apply prefix_take.
Qed.

(** Whether [p] starts [t ++ x] depends on the first [length p]
    characters of [x] only. *)
Lemma prefix_swap_tail (p t x y : str) :
  p `prefix_of` t ++ x ->
  take (length p) x = take (length p) y ->
  p `prefix_of` t ++ y.
Proof.
  rewrite !prefix_take_iff, !take_app. intros Hp Hxy.
  assert (take (length p - length t) x = take (length p - length t) y) as <-;
    [|done].
  rewrite <- (Nat.min_l (length p - length t) (length p)) by lia.
  by rewrite <- !take_take, Hxy.
Qed.

Lemma prefix_app_longer (p u r : str) :
  p `prefix_of` u ++ r -> (length p <= length u)%nat -> p `prefix_of` u.
Proof.
  rewrite !prefix_take_iff. intros Hp Hlen. by rewrite take_app_le in Hp.
Qed.

(** What the third step does once both searches succeed. *)
Lemma replace_header_found (content : str) (i j : nat) :
  find_at old_header_start content 0 = Some i ->
  find_at old_header_end (drop i content) i = Some j ->
  (i < j)%nat /\ (j + 9 <= length content)%nat
  /\ replace_header content
     = take i content ++ new_header
       ++ replace_from (take (j + 9 - i) (drop i content)) new_header
            (drop (j + 9) content) 0.
Proof.
  intros Hstart Hend.
  pose proof Hstart as (i0 & Hi0 & Hi & Hat1 & Hfirst1)%find_at_Some.
  simpl in Hi0. subst i0.
  pose proof Hend as (j' & -> & Hj' & Hat2 & Hfirst2)%find_at_Some.
  rewrite drop_drop in Hat2.
  assert (j' <> 0)%nat as Hne.
  { intros ->. rewrite Nat.add_0_r in Hat2.
    destruct Hat1 as [k1 Hk1], Hat2 as [k2 Hk2]. rewrite Hk1 in Hk2.
    discriminate Hk2. }
  assert (i + j' + 9 <= length content)%nat as Hlen.
  { apply prefix_length in Hat2. rewrite length_drop in Hat2.
    change (length old_header_end) with 9%nat in Hat2. lia. }
  split_and!; [lia|done|].
  unfold replace_header. cbv zeta.
  rewrite str_find_0, Hstart, str_find_from, Hend by done.
  destruct (Z.eqb_spec (Z.of_nat i) (-1)) as [?|_]; [lia|]. cbn [negb].
  change (Z.of_nat (length old_header_end)) with (Z.of_nat 9).
  rewrite <- Nat2Z.inj_add, str_slice_inside by lia.
  set (old := take (i + j' + 9 - i) (drop i content)).
  assert (length old = (j' + 9)%nat) as Hold_len
    by (unfold old; rewrite length_take, length_drop; lia).
  assert (old <> []) as Hold
    by (intros Hnil; rewrite Hnil in Hold_len; simpl in Hold_len; lia).
  rewrite str_replace_nonempty by done.
  rewrite (replace_from_first old new_header i); [| done | apply prefix_take |].
  - do 3 f_equal. rewrite Hold_len. f_equal. lia.
  - intros m Hm Hocc. apply (Hfirst1 m Hm).
    transitivity old; [|done].
    apply prefix_take_iff. unfold old. rewrite take_take, Nat.min_l.
    + by apply prefix_take_iff.
    + change (length old_header_start) with 7%nat. lia.
Qed.

(** Once the header has been replaced, the third step finds the new
    header in the same place and replaces it by itself. *)
Lemma replace_header_twice (content : str) (i j : nat) :
  find_at old_header_start content 0 = Some i ->
  find_at old_header_end (drop i content) i = Some j ->
  replace_header (replace_header content) = replace_header content.
Proof.
  intros Hstart Hend.
  destruct (replace_header_found content i j Hstart Hend) as (Hij & Hj & Hrun).
  pose proof Hstart as (i0 & Hi0 & Hi & Hat1 & Hfirst1)%find_at_Some.
  simpl in Hi0. subst i0. rewrite Hrun.
  set (R := replace_from _ new_header (drop (j + 9) content) 0).
  set (c' := take i content ++ new_header ++ R).
  assert (length (take i content) = i) as Hpre by (rewrite length_take; lia).
  assert (drop i c' = new_header ++ R) as Hdrop
    by (unfold c'; by rewrite drop_app_length').
  assert (find_at old_header_start c' 0 = Some i) as Hstart'.
  { apply (find_at_first _ _ i 0).
    - unfold c'. rewrite length_app. lia.
    - rewrite Hdrop. apply prefix_app_r. by eexists.
    - intros m Hm Hocc. apply (Hfirst1 m Hm).
      unfold c' in Hocc. rewrite drop_app_le in Hocc by lia.
      rewrite <- (take_drop i content) at 1. rewrite drop_app_le by lia.
      eapply prefix_swap_tail; [exact Hocc|].
      apply prefix_take_iff in Hat1. rewrite Hat1.
      change (length old_header_start) with 7%nat.
      by rewrite take_app_le by (change (length new_header) with 931%nat; lia). }
  assert (find_at old_header_end (drop i c') i = Some (i + 922)%nat) as Hend'.
  { rewrite Hdrop. apply find_at_first.
    - rewrite length_app. change (length new_header) with 931%nat. lia.
    - rewrite drop_app_le by (change (length new_header) with 931%nat; lia).
      apply prefix_app_r. by exists [].
    - intros m Hm Hocc.
      rewrite drop_app_le in Hocc by (change (length new_header) with 931%nat; lia).
      apply prefix_app_longer in Hocc.
      + assert (find_at old_header_end new_header 0 = Some 922%nat) as Hnew
          by (vm_compute; reflexivity).
        apply find_at_Some in Hnew as (j0 & Hj0 & _ & _ & Hfirst).
        simpl in Hj0. subst j0. by apply (Hfirst m).
      + rewrite length_drop. change (length new_header) with 931%nat.
        change (length old_header_end) with 9%nat. lia. }
  destruct (replace_header_found c' i (i + 922) Hstart' Hend') as (_ & _ & Hrun').
  rewrite Hrun'. replace (i + 922 + 9 - i)%nat with (length new_header)
    by (change (length new_header) with 931%nat; lia).
  rewrite Hdrop, take_app_length.
  assert (drop (i + 922 + 9) c' = R) as ->.
  { unfold c'.
    replace (i + 922 + 9)%nat with (length (take i content) + length new_header)%nat
      by (change (length new_header) with 931%nat; lia).
    by rewrite drop_app_add, drop_app_length. }
  rewrite (replace_from_same new_header (length R)) by done.
  unfold c'. by rewrite take_app_length'.
Qed.

End UpdateSettingsSteps.

Section UpdateSettingsExtras.
Import UpdateSettings UpdateSettingsFacts UpdateSettingsSteps.

(** X15: the script reports success whether or not it changed
    anything.  When the page holds neither the import marker, nor the
    [handleLogout] marker, nor [<header], the text written back is the
    text read, and [Successfully updated settings page.] is printed all
    the same; when the page cannot be opened, because it or a directory
    on the way to it is missing, or a regular file is in the way, or it
    is a directory, what [open] raises is raised, nothing is written
    and nothing is printed. *)
Theorem script_nothing_to_patch (w : text_world) :
  (forall e,
     cannot_read (text_files w) file_path e ->
     script w = (Raise e, w))
  /\ (forall content,
        file_at (text_files w) file_path content ->
        str_contains content import_marker = false ->
        str_contains content func_marker = false ->
        str_contains content old_header_start = false ->
        script w
        = (Return tt,
           TextWorld (text_files w)
             (printed w ++ ["Successfully updated settings page."%string]))).
Proof.
  split.
  - intros e Hfile. unfold script. by rewrite (read_path_cannot _ _ e).
  - intros content Hfile Himport Hfunc Hheader. unfold script.
    rewrite (read_path_file _ _ content) by done.
    rewrite create_path_writable by by eapply file_at_writable.
    assert (add_import content = content) as ->.
    { unfold add_import. destruct (negb _); [|done].
      by apply str_replace_absent. }
    assert (add_go_back content = content) as ->.
    { unfold add_go_back. destruct (negb _); [|done].
      by apply str_replace_absent. }
    assert (replace_header content = content) as ->.
    { unfold replace_header. cbv zeta.
      unfold str_contains in Hheader.
      destruct (str_find content old_header_start 0 =? -1); [done|].
      discriminate Hheader. }
    rewrite insert_insert_eq. rewrite insert_id; [done|]. apply Hfile.
Qed.

Lemma script_nothing_to_patch_witness :
  script (TextWorld (settings_page (list_ascii_of_string "<h1>Settings</h1>")) [])
  = (Return tt,
     TextWorld (settings_page (list_ascii_of_string "<h1>Settings</h1>"))
       ["Successfully updated settings page."%string])
  /\ script (TextWorld {[ "apps"%string := Dir ]} [])
     = (Raise (FileNotFoundError file_path),
        TextWorld {[ "apps"%string := Dir ]} [])
  /\ script (TextWorld {[ "apps"%string := File [] ]} [])
     = (Raise (NotADirectoryError file_path),
        TextWorld {[ "apps"%string := File [] ]} []).
Proof.
  split_and!.
  - destruct (script_nothing_to_patch
                (TextWorld (settings_page (list_ascii_of_string "<h1>Settings</h1>"))
                   []))
      as [_ Hrun].
    apply (Hrun (list_ascii_of_string "<h1>Settings</h1>"));
      first [evaluate | reflexivity].
  - apply (script_nothing_to_patch (TextWorld {[ "apps"%string := Dir ]} [])).
    apply cannot_read_unreachable.
    apply (unreachable_missing _ _ ["apps"%string] "apps/web"%string
             ["apps/web/src"; "apps/web/src/routes"; "apps/web/src/routes/app";
              "apps/web/src/routes/app/settings"]%string);
      [done|reflexivity| |reflexivity].
    apply Forall_cons_2; [reflexivity|apply Forall_nil_2].
  - apply (script_nothing_to_patch (TextWorld {[ "apps"%string := File [] ]} [])).
    apply cannot_read_unreachable.
    by apply (unreachable_file _ _ [] "apps"%string
                ["apps/web"; "apps/web/src"; "apps/web/src/routes";
                 "apps/web/src/routes/app";
                 "apps/web/src/routes/app/settings"]%string []).
Defined.

(** X16: a [<header] that is never closed wrecks the page.  When the
    first [<header] starts at index 8 or later and no [</header>]
    follows it, [find] returns -1, the end index becomes 8, the slice
    to replace is empty, and [replace] puts the new header before every
    character of the page and after the last one. *)
Theorem replace_header_without_end (content : str) (i : nat) :
  str_find content old_header_start 0 = Z.of_nat i ->
  (8 <= i)%nat ->
  str_find content old_header_end (Z.of_nat i) = -1 ->
  replace_header content
  = new_header ++ flat_map (fun c => c :: new_header) content
  /\ length (replace_header content)
     = (length content + (length content + 1) * 931)%nat.
Proof.
  intros Hstart Hi Hend.
  assert (replace_header content
          = new_header ++ flat_map (fun c => c :: new_header) content) as Hrun.
  { unfold replace_header. cbv zeta. rewrite Hstart, Hend.
    destruct (Z.eqb_spec (Z.of_nat i) (-1)) as [?|_]; [lia|]. cbn [negb].
    assert (str_slice content (Z.of_nat i)
              (-1 + Z.of_nat (length old_header_end)) = []) as ->; [|done].
    unfold str_slice. cbv zeta.
    change (-1 + Z.of_nat (length old_header_end)) with 8.
    destruct (Z.ltb_spec (Z.of_nat i) 0) as [?|_]; [lia|].
    change (8 <? 0) with false. cbv iota.
    replace (Z.to_nat (Z.min 8 (Z.of_nat (length content)))
             - Z.to_nat (Z.min (Z.of_nat i) (Z.of_nat (length content))))%nat
      with 0%nat by lia.
    done. }
  split; [done|]. rewrite Hrun, length_app, length_flat_map_cons.
  change (length new_header) with 931%nat. lia.
Qed.

Lemma replace_header_without_end_witness :
  length (replace_header (list_ascii_of_string "<main>  <header>Settings</main>"))
  = (31 + 32 * 931)%nat.
Proof.
  destruct (replace_header_without_end
              (list_ascii_of_string "<main>  <header>Settings</main>") 8)
    as [_ Hlen].
  - reflexivity.
  - lia.
  - reflexivity.
  - exact Hlen.
Defined.

(** X17: when the page has a [<header] and a [</header>] after it, the
    third step replaces the text from the first [<header] to the end of
    the first [</header>] that follows by the new header and leaves
    everything before it as it was; after it, only further copies of
    that same old header text are replaced. *)
Theorem replace_header_first_block (content : str) (i j : nat) :
  str_find content old_header_start 0 = Z.of_nat i ->
  str_find content old_header_end (Z.of_nat i) = Z.of_nat j ->
  (i < j)%nat /\ (j + 9 <= length content)%nat
  /\ replace_header content
     = take i content ++ new_header
       ++ str_replace (drop (j + 9) content)
            (take (j + 9 - i) (drop i content)) new_header.
Proof.
  intros Hstart Hend. apply str_find_0_Some in Hstart.
  pose proof Hstart as (i0 & Hi0 & Hi & _)%find_at_Some.
  simpl in Hi0. subst i0.
  rewrite str_find_from in Hend by done.
  destruct (find_at old_header_end (drop i content) i) as [k|] eqn:Hfind; [|lia].
  assert (k = j) as -> by lia.
  destruct (replace_header_found content i j Hstart Hfind) as (Hij & Hj & Hrun).
  split_and!; [done|done|]. rewrite Hrun. do 2 f_equal.
  rewrite str_replace_nonempty; [done|].
  intros Hnil. apply (f_equal length) in Hnil.
  rewrite length_take, length_drop in Hnil. simpl in Hnil. lia.
Qed.

Lemma replace_header_first_block_witness :
  replace_header
    (list_ascii_of_string "<main><header>Settings</header><p>x</p></main>")
  = list_ascii_of_string "<main>" ++ new_header
    ++ list_ascii_of_string "<p>x</p></main>".
Proof.
  destruct (replace_header_first_block
              (list_ascii_of_string
                 "<main><header>Settings</header><p>x</p></main>") 6 22)
    as (_ & _ & Hrun).
  - reflexivity.
  - reflexivity.
  - rewrite Hrun. reflexivity.
Defined.

(** X18: the first step adds the import after every import marker,
    not once.  A page that has the import already, or has no marker,
    stays as it is.  Otherwise the text up to the first marker stays,
    the marker is followed by a line break, two spaces and the import,
    and the same is done to the rest of the page: a page with two
    markers gets the import twice.  After the step a page that had a
    marker has the import, and applying the step again changes
    nothing. *)
Theorem add_import_every_marker (content : str) :
  (str_contains content new_import = true -> add_import content = content)
  /\ (str_contains content import_marker = false ->
      add_import content = content)
  /\ (forall i : nat,
        str_contains content new_import = false ->
        str_find content import_marker 0 = Z.of_nat i ->
        add_import content
        = take i content
          ++ (import_marker ++ list_ascii_of_string (nl +:+ "  ") ++ new_import)
          ++ str_replace (drop (i + 46) content) import_marker
               (import_marker ++ list_ascii_of_string (nl +:+ "  ")
                  ++ new_import))
  /\ (str_contains content import_marker = true ->
      str_contains (add_import content) new_import = true)
  /\ add_import (add_import content) = add_import content.
Proof.
  assert (str_contains content new_import = false ->
          str_contains content import_marker = true ->
          str_contains
            (str_replace content import_marker
               (import_marker ++ list_ascii_of_string (nl +:+ "  ") ++ new_import))
            new_import = true) as Hadded.
  { intros _ Hmarker.
    apply (str_contains_replaced _ _ _ _ 49); [done|done|simpl; lia|].
    by exists []. }
  split_and!.
  - intros Hnew. unfold add_import. by rewrite Hnew.
  - intros Hmarker. unfold add_import. destruct (negb _); [|done].
    by apply str_replace_absent.
  - intros i Hnew Hfind. unfold add_import. rewrite Hnew. cbn [negb].
    apply str_find_0_Some in Hfind.
    apply find_at_Some in Hfind as (j & Hj & _ & Hat & Hfirst).
    simpl in Hj. subst j.
    rewrite !str_replace_nonempty by done.
    by rewrite (replace_from_first import_marker _ i).
  - intros Hmarker. unfold add_import.
    destruct (str_contains content new_import) eqn:Hnew; [done|].
    by apply Hadded.
  - unfold add_import at 2 3.
    destruct (str_contains content new_import) eqn:Hnew; cbn [negb].
    + unfold add_import. by rewrite Hnew.
    + destruct (str_contains content import_marker) eqn:Hmarker.
      * unfold add_import. by rewrite Hadded.
      * rewrite str_replace_absent by done.
        unfold add_import. rewrite Hnew. cbn [negb].
        by apply str_replace_absent.
Qed.

Lemma add_import_every_marker_witness :
  add_import (import_marker ++ list_ascii_of_string "let x = 1;" ++ import_marker)
  = (import_marker ++ list_ascii_of_string (nl +:+ "  ") ++ new_import)
    ++ list_ascii_of_string "let x = 1;"
    ++ (import_marker ++ list_ascii_of_string (nl +:+ "  ") ++ new_import).
Proof.
  destruct (add_import_every_marker
              (import_marker ++ list_ascii_of_string "let x = 1;" ++ import_marker))
    as (_ & _ & Hrun & _).
  rewrite (Hrun 0%nat) by reflexivity. vm_compute. reflexivity.
Defined.

(** X19: the second step puts [goBack] before every [handleLogout]
    marker, not once.  A page that has [function goBack()] already, or
    has no marker, stays as it is.  Otherwise the text up to the first
    marker stays, the function and two spaces come before the marker,
    and the same is done to the rest of the page: a page with two
    markers gets two copies of [goBack].  After the step a page that
    had a marker has [function goBack()], and applying the step again
    changes nothing. *)
Theorem add_go_back_every_marker (content : str) :
  (str_contains content (list_ascii_of_string "function goBack()") = true ->
   add_go_back content = content)
  /\ (str_contains content func_marker = false ->
      add_go_back content = content)
  /\ (forall i : nat,
        str_contains content (list_ascii_of_string "function goBack()") = false ->
        str_find content func_marker 0 = Z.of_nat i ->
        add_go_back content
        = take i content
          ++ (go_back_func ++ list_ascii_of_string "  " ++ func_marker)
          ++ str_replace (drop (i + 25) content) func_marker
               (go_back_func ++ list_ascii_of_string "  " ++ func_marker))
  /\ (str_contains content func_marker = true ->
      str_contains (add_go_back content) (list_ascii_of_string "function goBack()")
      = true)
  /\ add_go_back (add_go_back content) = add_go_back content.
Proof.
  assert (str_contains content func_marker = true ->
          str_contains
            (str_replace content func_marker
               (go_back_func ++ list_ascii_of_string "  " ++ func_marker))
            (list_ascii_of_string "function goBack()") = true) as Hadded.
  { intros Hmarker.
    apply (str_contains_replaced _ _ _ _ 3); [done|done|simpl; lia|].
    by eexists. }
  split_and!.
  - intros Hnew. unfold add_go_back. by rewrite Hnew.
  - intros Hmarker. unfold add_go_back. destruct (negb _); [|done].
    by apply str_replace_absent.
  - intros i Hnew Hfind. unfold add_go_back. rewrite Hnew. cbn [negb].
    apply str_find_0_Some in Hfind.
    apply find_at_Some in Hfind as (j & Hj & _ & Hat & Hfirst).
    simpl in Hj. subst j.
    rewrite !str_replace_nonempty by done.
    by rewrite (replace_from_first func_marker _ i).
  - intros Hmarker. unfold add_go_back.
    destruct (str_contains content (list_ascii_of_string "function goBack()"))
      eqn:Hnew; cbn [negb]; [done|].
    by apply Hadded.
  - unfold add_go_back at 2 3.
    destruct (str_contains content (list_ascii_of_string "function goBack()"))
      eqn:Hnew; cbn [negb].
    + unfold add_go_back. by rewrite Hnew.
    + destruct (str_contains content func_marker) eqn:Hmarker.
      * unfold add_go_back. by rewrite Hadded.
      * rewrite str_replace_absent by done.
        unfold add_go_back. rewrite Hnew. cbn [negb].
        by apply str_replace_absent.
Qed.

Lemma add_go_back_every_marker_witness :
  add_go_back (func_marker ++ list_ascii_of_string " } " ++ func_marker)
  = (go_back_func ++ list_ascii_of_string "  " ++ func_marker)
    ++ list_ascii_of_string " } "
    ++ (go_back_func ++ list_ascii_of_string "  " ++ func_marker).
Proof.
  destruct (add_go_back_every_marker
              (func_marker ++ list_ascii_of_string " } " ++ func_marker))
    as (_ & _ & Hrun & _).
  rewrite (Hrun 0%nat) by reflexivity. vm_compute. reflexivity.
Defined.

(** X20: unless a [<header] is opened and never closed, the third step
    can be applied again without changing the page further. *)
Theorem replace_header_idempotent (content : str) :
  str_find content old_header_start 0 = -1
  \/ 0 <= str_find content old_header_end (str_find content old_header_start 0) ->
  replace_header (replace_header content) = replace_header content.
Proof.
  intros Hfound.
  destruct (find_at old_header_start content 0) as [i|] eqn:Hstart.
  - pose proof Hstart as (i0 & Hi0 & Hi & _)%find_at_Some.
    simpl in Hi0. subst i0.
    rewrite str_find_0, Hstart in Hfound.
    destruct Hfound as [?|Hend]; [lia|].
    rewrite str_find_from in Hend by done.
    destruct (find_at old_header_end (drop i content) i) as [j|] eqn:Hfind;
      [|lia].
    by apply (replace_header_twice content i j).
  - assert (replace_header content = content) as Hsame.
    { unfold replace_header. cbv zeta. by rewrite str_find_0, Hstart. }
    by rewrite !Hsame.
Qed.

Lemma replace_header_idempotent_witness :
  replace_header
    (replace_header
       (list_ascii_of_string "<main><header>Settings</header></main>"))
  = replace_header
      (list_ascii_of_string "<main><header>Settings</header></main>").
Proof.
  apply replace_header_idempotent. right. vm_compute. discriminate.
Defined.

End UpdateSettingsExtras.
